(** * bioRxiv digest: a shallow embedding of [scripts/biorxiv_digest.py]

    Python values are modelled as follows.
    - [str] is a list of Unicode code points ([pystr]); [len] is [length],
      slicing is [take]/[drop], comparison is lexicographic on code points.
    - JSON data ([Dict[str, Any]], [Any]) is the inductive type [json]; a
      [dict] is an association list in insertion order with distinct keys.
      JSON floats are not represented: numbers are integers.
    - A raised exception is the [Raise] constructor of [result].
    - Library routines the program calls but does not define ([repr] of
      containers, [json.loads], [email.utils.getaddresses]), the tables of
      the Unicode database that [int] and [str.isdigit] consult outside
      ASCII, and the interpreter's limit on the digits of an [int] literal
      are the methods of the class [PyRuntime]; the catalog, the model and
      the clock are the fields of [world].
    - The paging loop takes fuel; every statement about it gives the
      result for any sufficient amount.

    The definitions come first, in the order of the source; the
    properties follow. *)

From Stdlib Require Import ZArith NArith Lia Ascii String Decimal DecimalN.
From stdpp Require Import base option list gmap sorting.

Local Open Scope N_scope.
Local Set Warnings "-register-all".

(** ** Strings *)

Module PyStr.

Abbreviation pystr := (list N).

Fixpoint lit (s : string) : pystr :=
  match s with
  | EmptyString => []
  | String a r => N_of_ascii a :: lit r
  end.
Arguments lit _%_string : simpl never.

(** [str.isspace] on one code point (CPython's [_PyUnicode_IsWhitespace]);
    the regular-expression class [\s] on [str] patterns is the same set. *)
Definition is_space (c : N) : bool :=
  ((9 <=? c) && (c <=? 13)) || ((28 <=? c) && (c <=? 32))
  || (c =? 133) || (c =? 160) || (c =? 5760)
  || ((8192 <=? c) && (c <=? 8202))
  || (c =? 8232) || (c =? 8233) || (c =? 8239) || (c =? 8287) || (c =? 12288).

Fixpoint drop_while (p : N → bool) (s : pystr) : pystr :=
  match s with
  | [] => []
  | c :: r => if p c then drop_while p r else s
  end.

(** [s.lstrip()] *)
Definition lstrip (s : pystr) : pystr := drop_while is_space s.

(** [s.rstrip()] *)
Fixpoint rstrip (s : pystr) : pystr :=
  match s with
  | [] => []
  | c :: r =>
      match rstrip r with
      | [] => if is_space c then [] else [c]
      | r' => c :: r'
      end
  end.

(** [s.strip()] *)
Definition strip (s : pystr) : pystr := rstrip (lstrip s).

(** [s.startswith(p)] *)
Fixpoint startswith (p s : pystr) : bool :=
  match p, s with
  | [], _ => true
  | a :: p', b :: s' => (a =? b) && startswith p' s'
  | _ :: _, [] => false
  end.

(** [s.endswith(p)] *)
Definition endswith (p s : pystr) : bool := startswith (rev p) (rev s).

(** [a < b] and [a <= b] on [str]: lexicographic on code points. *)
Fixpoint str_ltb (a b : pystr) : bool :=
  match a, b with
  | _, [] => false
  | [], _ :: _ => true
  | x :: a', y :: b' => (x <? y) || ((x =? y) && str_ltb a' b')
  end.

Definition str_leb (a b : pystr) : bool := negb (str_ltb b a).

(** [p in s] for strings: [p] occurs as a contiguous substring. *)
Fixpoint contains (p s : pystr) : bool :=
  startswith p s || match s with [] => false | _ :: r => contains p r end.

Fixpoint uint_codes (d : uint) : pystr :=
  match d with
  | Nil => []
  | D0 d => 48 :: uint_codes d
  | D1 d => 49 :: uint_codes d
  | D2 d => 50 :: uint_codes d
  | D3 d => 51 :: uint_codes d
  | D4 d => 52 :: uint_codes d
  | D5 d => 53 :: uint_codes d
  | D6 d => 54 :: uint_codes d
  | D7 d => 55 :: uint_codes d
  | D8 d => 56 :: uint_codes d
  | D9 d => 57 :: uint_codes d
  end.

(** [str(n)] for a non-negative [int] *)
Definition dec (n : N) : pystr := uint_codes (N.to_uint n).

(** [str(z)] for an [int] *)
Definition dec_Z (z : Z) : pystr :=
  if (z <? 0)%Z then 45 :: dec (Z.abs_N z) else dec (Z.abs_N z).

(** [f"{i:02d}"] for a non-negative [int] *)
Definition fmt02 (i : N) : pystr :=
  let d := dec i in replicate (2 - length d)%nat 48 ++ d.

Definition digit_val (c : N) : option Z :=
  if (48 <=? c) && (c <=? 57) then Some (Z.of_N (c - 48)) else None.

(** The digit part of an integer literal: decimal digits, single underscores
    allowed between two digits. *)
Fixpoint parse_digits (acc : Z) (after_digit : bool) (s : pystr) : option Z :=
  match s with
  | [] => if after_digit then Some acc else None
  | c :: r =>
      if c =? 95 then
        if after_digit then parse_digits acc false r else None
      else
        match digit_val c with
        | Some d => parse_digits (10 * acc + d)%Z true r
        | None => None
        end
  end.

(** [Py_ISSPACE]: the whitespace [int] skips around a literal.  The
    separators U+001C to U+001F, which [str.strip] removes, are not in it. *)
Definition is_ascii_space (c : N) : bool :=
  ((9 <=? c) && (c <=? 13)) || (c =? 32).

(** [s] without its longest suffix of characters that satisfy [p] *)
Fixpoint drop_end_while (p : N → bool) (s : pystr) : pystr :=
  match s with
  | [] => []
  | c :: r =>
      match drop_end_while p r with
      | [] => if p c then [] else [c]
      | r' => c :: r'
      end
  end.

End PyStr.
Import PyStr.

(** ** Python values and exceptions *)

Inductive json : Type :=
  | JNull
  | JBool (b : bool)
  | JInt (z : Z)
  | JStr (s : pystr)
  | JList (l : list json)
  | JObj (items : list (pystr * json)).

Abbreviation dict := (list (pystr * json)).

Inductive exn : Type :=
  | AttributeError
  | TypeError
  | ValueError
  | RuntimeError
  | RequestError.

Inductive result (A : Type) : Type :=
  | Ok (a : A)
  | Raise (e : exn).
Arguments Ok {A} a.
Arguments Raise {A} e.

Definition bind {A B} (r : result A) (k : A → result B) : result B :=
  match r with
  | Ok a => k a
  | Raise e => Raise e
  end.

Notation "x ←? r ; k" := (bind r (λ x, k))
  (at level 20, r at level 100, k at level 200, right associativity,
   format "x  ←?  r ;  '/' k").

(** Library behaviour the program calls but does not define. *)
Class PyRuntime : Type := {
  (** [repr] of a [list] or [dict] *)
  py_repr : json → pystr;
  (** [json.loads]; a failure is [json.JSONDecodeError], a [ValueError] *)
  json_loads : pystr → result json;
  (** The address parts [email.utils.getaddresses] finds in the address
      headers of a message, given the values assigned to them *)
  getaddresses : list pystr → list pystr;
  (** [unicodedata.decimal] of a code point outside ASCII: the value of a
      decimal digit of any script, [None] for every other character *)
  unicode_decimal : N → option N;
  (** [str.isdigit] on one code point outside ASCII *)
  unicode_isdigit : N → bool;
  (** [sys.get_int_max_str_digits()]: the longest digit string [int]
      converts, 4300 unless configured; 0 is no limit *)
  int_max_str_digits : nat;
}.

Section Values.
Context `{!PyRuntime}.

(** What [int] makes of one character before it reads the literal: an ASCII
    character stays, any other whitespace becomes a space, any other decimal
    digit becomes the ASCII digit of its value; [None] is a character that
    is neither. *)
Definition ascii_of (c : N) : option N :=
  if c <? 128 then Some c
  else if is_space c then Some 32
  else (λ d, 48 + d) <$> unicode_decimal c.

(** A literal of [digits] digits is refused for its length. *)
Definition over_digit_limit (digits : nat) : bool :=
  (640 <? digits)%nat && (0 <? int_max_str_digits)%nat
  && (int_max_str_digits <? digits)%nat.

(** [int(s)] for a [str] in base ten; [None] is [ValueError].  ASCII
    whitespace around the literal is skipped, one sign is accepted, then
    come digits with single underscores between them, up to the limit. *)
Definition py_int (s : pystr) : option Z :=
  a ← mapM ascii_of s;
  let t := drop_while is_ascii_space a in
  let neg := match t with c :: _ => c =? 45 | [] => false end in
  let u := match t with c :: r => if (c =? 45) || (c =? 43) then r else t | [] => [] end in
  let body := drop_end_while is_ascii_space u in
  z ← parse_digits 0 false body;
  if over_digit_limit (length (List.filter (λ c, negb (c =? 95)) body)) then None
  else Some (if neg then (- z)%Z else z).

(** [s.isdigit()] *)
Definition isdigit_char (c : N) : bool :=
  if c <? 128 then (48 <=? c) && (c <=? 57) else unicode_isdigit c.

Definition isdigit (s : pystr) : bool :=
  match s with
  | [] => false
  | _ => forallb isdigit_char s
  end.

(** [str(v)].  An [int] inside a parsed document is within the digit limit,
    since the parser reads it with [int]; [str] of it does not fail. *)
Definition py_str (v : json) : pystr :=
  match v with
  | JNull => lit "None"
  | JBool true => lit "True"
  | JBool false => lit "False"
  | JInt z => dec_Z z
  | JStr s => s
  | JList _ | JObj _ => py_repr v
  end.

(** [bool(v)] *)
Definition truthy (v : json) : bool :=
  match v with
  | JNull => false
  | JBool b => b
  | JInt z => negb (z =? 0)%Z
  | JStr s => negb (bool_decide (s = []))
  | JList l => match l with [] => false | _ => true end
  | JObj d => match d with [] => false | _ => true end
  end.

(** [d.get(k)] on a [dict] *)
Fixpoint dict_lookup (d : dict) (k : pystr) : option json :=
  match d with
  | [] => None
  | (k', v) :: r => if bool_decide (k' = k) then Some v else dict_lookup r k
  end.

(** [d.get(k, default)] on a [dict] *)
Definition dict_get (d : dict) (k : pystr) (default : json) : json :=
  match dict_lookup d k with Some v => v | None => default end.

(** [v.get(k, default)] on any value: only a [dict] has the method. *)
Definition py_get (v : json) (k : pystr) (default : json) : result json :=
  match v with
  | JObj d => Ok (dict_get d k default)
  | _ => Raise AttributeError
  end.

End Values.

(** ** The paper record *)

Record Paper : Type := mkPaper {
  pid : pystr;
  title : pystr;
  doi : pystr;
  version : pystr;
  date : pystr;
  category : pystr;
  authors : pystr;
  abstract : pystr;
}.

Definition nonempty (s : pystr) : bool :=
  match s with [] => false | _ => true end.

(** [Paper.biorxiv_url] *)
Definition biorxiv_url (p : Paper) : pystr :=
  if nonempty (doi p) && nonempty (version p) then
    lit "https://www.biorxiv.org/content/" ++ doi p ++ lit "v" ++ version p
  else if nonempty (doi p) then lit "https://doi.org/" ++ doi p
  else [].

(** ** Configuration *)

(** [env(name, default, required)]; [environ] is [os.environ]. *)
Definition env (environ : gmap pystr pystr) (name : pystr)
    (default : option pystr) (required : bool) : result pystr :=
  let v := match environ !! name with Some x => Some x | None => default end in
  let v_truthy := match v with Some x => nonempty x | None => false end in
  if required && negb v_truthy then Raise RuntimeError
  else Ok (match v with Some x => x | None => [] end).

(** ** Paper fetcher *)

Section Fetcher.
Context `{!PyRuntime}.

(** [normalize_collection] *)
Definition normalize_collection (payload : json) : list json :=
  match payload with
  | JObj d =>
      match dict_lookup d (lit "collection") with
      | Some col =>
          match (if truthy col then col else JList []) with
          | JList l => l
          | _ => []
          end
      | None => []
      end
  | JList l => l
  | _ => []
  end.

(** [parse_total]; [payload.get] and [msgs[0].get] raise on a value that is
    not a [dict]. *)
Definition parse_total (payload : json) : result (option Z) :=
  msgs ←? py_get payload (lit "messages") JNull;
  match msgs with
  | JList (m0 :: _) =>
      total ←? py_get m0 (lit "total") JNull;
      match total with
      | JInt z => Ok (Some z)
      | JBool b => Ok (Some (if b then 1 else 0)%Z)
      | JStr s =>
          if isdigit s then
            match py_int s with
            | Some z => Ok (Some z)
            | None => Raise ValueError
            end
          else Ok None
      | _ => Ok None
      end
  | _ => Ok None
  end.

(** The value of [str(row.get(k, "")).strip()] *)
Definition field (row : dict) (k : string) : pystr :=
  strip (py_str (dict_get row (lit k) (JStr []))).

Definition int_or_minus_one (s : pystr) : Z :=
  match py_int s with Some z => z | None => (-1)%Z end.

(** The dictionary [best] of [dedupe_keep_latest_version]: keys in order of
    first insertion; assigning to a present key keeps its place. *)
Fixpoint best_lookup (best : list (pystr * dict)) (k : pystr) : option dict :=
  match best with
  | [] => None
  | (k', r) :: b => if bool_decide (k' = k) then Some r else best_lookup b k
  end.

Fixpoint best_assign (best : list (pystr * dict)) (k : pystr) (row : dict)
    : list (pystr * dict) :=
  match best with
  | [] => [(k, row)]
  | (k', r) :: b =>
      if bool_decide (k' = k) then (k', row) :: b
      else (k', r) :: best_assign b k row
  end.

(** One iteration of the loop of [dedupe_keep_latest_version] *)
Definition dedupe_step (best : list (pystr * dict)) (row : dict)
    : list (pystr * dict) :=
  let doi := field row "doi" in
  if negb (nonempty doi) then best
  else
    let v_raw := field row "version" in
    let v := int_or_minus_one v_raw in
    match best_lookup best doi with
    | None => best_assign best doi row
    | Some cur =>
        let existing_v :=
          int_or_minus_one (py_str (dict_get cur (lit "version") (JStr (lit "-1")))) in
        if (v >? existing_v)%Z then best_assign best doi row else best
    end.

(** [dedupe_keep_latest_version] *)
Definition dedupe_keep_latest_version (rows : list dict) : list dict :=
  (foldl dedupe_step [] rows).*2.

(** The sort key [str(r.get("date", ""))] *)
Definition date_key (r : dict) : pystr :=
  py_str (dict_get r (lit "date") (JStr [])).

(** [rows.sort(key=..., reverse=True)]: a stable sort, larger keys first;
    rows with equal keys keep their order. *)
Fixpoint insert_desc (x : dict) (rows : list dict) : list dict :=
  match rows with
  | [] => [x]
  | y :: r =>
      if str_ltb (date_key x) (date_key y) then y :: insert_desc x r
      else x :: rows
  end.

Definition sort_by_date_desc (rows : list dict) : list dict :=
  foldr insert_desc [] rows.

(** The [Paper] built from the [i]-th row, [i] counted from 1 *)
Definition make_paper (i : nat) (r : dict) : Paper :=
  {| pid := lit "P" ++ fmt02 (N.of_nat i);
     title := field r "title";
     doi := field r "doi";
     version := field r "version";
     date := field r "date";
     category := field r "category";
     authors := field r "authors";
     abstract := field r "abstract" |}.

(** Lines 156-176 of [load_recent_papers]: from the accumulated rows to the
    papers. *)
Definition papers_of_rows (all_rows : list dict) : list Paper :=
  imap (λ i r, make_paper (S i) r) (sort_by_date_desc (dedupe_keep_latest_version all_rows)).

(** The variables of the paging loop of [load_recent_papers] *)
Record fetch_state : Type := mkFetch {
  all_rows : list json;
  cursor : Z;
  total : option Z;
}.

Inductive step : Type :=
  | Continue (st : fetch_state)
  | Break (st : fetch_state).

(** The body of the [while True] loop after the request returned [payload] *)
Definition page (payload : json) (st : fetch_state) : result step :=
  let rows := normalize_collection payload in
  match rows with
  | [] => Ok (Break st)
  | _ =>
      total' ←? match total st with
                | None => parse_total payload
                | Some t => Ok (Some t)
                end;
      let cursor' := (cursor st + Z.of_nat (length rows))%Z in
      let st' := {| all_rows := all_rows st ++ rows; cursor := cursor'; total := total' |} in
      if (Z.of_nat (length rows) <? 100)%Z then Ok (Break st')
      else
        match total' with
        | Some t => if (cursor' >=? t)%Z then Ok (Break st') else Ok (Continue st')
        | None => Ok (Continue st')
        end
  end.

(** The paging loop.  [api cursor] is [fetch_biorxiv_details] for the run's
    server, dates and category.  The result carries the cursors requested,
    in order; [None] means the fuel ran out before the loop ended. *)
Fixpoint fetch_pages (fuel : nat) (api : Z → result json) (st : fetch_state)
    : option (list Z * result fetch_state) :=
  match fuel with
  | O => None
  | S fuel' =>
      match api (cursor st) with
      | Raise e => Some ([cursor st], Raise e)
      | Ok payload =>
          match page payload st with
          | Raise e => Some ([cursor st], Raise e)
          | Ok (Break st') => Some ([cursor st], Ok st')
          | Ok (Continue st') =>
              match fetch_pages fuel' api st' with
              | Some (tr, r) => Some (cursor st :: tr, r)
              | None => None
              end
          end
      end
  end.

Definition fetch_init : fetch_state :=
  {| all_rows := []; cursor := 0; total := None |}.

(** Rows are used through [row.get] only, which a value other than a [dict]
    does not have. *)
Fixpoint as_dicts (rows : list json) : result (list dict) :=
  match rows with
  | [] => Ok []
  | JObj d :: r => ds ←? as_dicts r; Ok (d :: ds)
  | _ :: _ => Raise AttributeError
  end.

(** [load_recent_papers] *)
Definition load_recent_papers (fuel : nat) (api : Z → result json)
    : option (result (list Paper)) :=
  match fetch_pages fuel api fetch_init with
  | None => None
  | Some (_, r) =>
      Some (st ←? r; rows ←? as_dicts (all_rows st); Ok (papers_of_rows rows))
  end.

End Fetcher.

(** ** Response interpreter *)

Section Interpreter.
Context `{!PyRuntime}.

Definition FENCE : pystr := Eval cbv in lit "```".

(** [re.sub(r"^```(?:json)?\s*", "", s)]: the pattern can only match at the
    start; it takes the fence, then [json] if it follows, then all the
    whitespace that follows. *)
Definition sub_leading_fence (s : pystr) : pystr :=
  if startswith FENCE s then
    let r := drop 3 s in
    lstrip (if startswith (lit "json") r then drop 4 r else r)
  else s.

(** [re.sub(r"\s*```$", "", s)]: [$] matches at the end of the string and
    also just before a newline that ends it; the match starts at the
    beginning of the whitespace run before the closing fence. *)
Definition sub_trailing_fence (s : pystr) : pystr :=
  if endswith FENCE s then rstrip (take (length s - 3) s)
  else if endswith (FENCE ++ [10]) s then rstrip (take (length s - 4) s) ++ [10]
  else s.

(** The suffix of [s] that starts at the first occurrence of [c] *)
Fixpoint from_first (c : N) (s : pystr) : option pystr :=
  match s with
  | [] => None
  | x :: r => if x =? c then Some s else from_first c r
  end.

(** The prefix of [s] that ends at the last occurrence of [c] *)
Fixpoint upto_last (c : N) (s : pystr) : option pystr :=
  match s with
  | [] => None
  | x :: r =>
      match upto_last c r with
      | Some t => Some (x :: t)
      | None => if x =? c then Some [x] else None
      end
  end.

(** [re.search(r"\{.*\}", s, flags=re.DOTALL)], the matched text: from the
    first opening brace that has a closing brace after it to the last
    closing brace. *)
Definition brace_span (s : pystr) : option pystr :=
  match from_first 123 s with
  | Some (b :: r) => cons b <$> upto_last 125 r
  | _ => None
  end.

(** [extract_json] *)
Definition extract_json (text : pystr) : result json :=
  let cleaned := strip text in
  let cleaned := sub_leading_fence cleaned in
  let cleaned := sub_trailing_fence cleaned in
  if startswith [123] cleaned && endswith [125] cleaned then json_loads cleaned
  else
    match brace_span cleaned with
    | None => Raise ValueError
    | Some m => json_loads m
    end.

(** Lines 458-469 of [main]: the fields of the parsed response, checked and
    cut. *)
Record selection : Type := mkSelection {
  top_papers : list json;
  trends : json;
  general_concept : json;
  specific_concept : json;
}.

Definition select (ai : json) : result selection :=
  top ←? py_get ai (lit "top_papers") (JList []);
  tr ←? py_get ai (lit "general_trends") (JList []);
  gc ←? py_get ai (lit "general_concept") (JList []);
  sc ←? py_get ai (lit "specific_concept") (JList []);
  match top with
  | JList l =>
      let tr := match tr with JList _ => tr | _ => JList [JStr (py_str tr)] end in
      Ok {| top_papers := take 5 l; trends := tr;
            general_concept := gc; specific_concept := sc |}
  | _ => Raise RuntimeError
  end.

End Interpreter.

(** ** Prompt builder *)

(** [re.sub(r"\s+", " ", s)]: every maximal run of whitespace becomes one
    space; [in_run] tells that the previous character was whitespace. *)
Fixpoint squeeze (in_run : bool) (s : pystr) : pystr :=
  match s with
  | [] => []
  | c :: r =>
      if is_space c then
        if in_run then squeeze true r else 32 :: squeeze true r
      else c :: squeeze false r
  end.

Definition ELLIPSIS : N := 8230.

(** [re.sub(r"\s+", " ", s).strip()] *)
Definition collapse_ws (s : pystr) : pystr := strip (squeeze false s).

(** [clip], the local function of [build_ai_prompt] *)
Definition clip (s : pystr) (n : nat) : pystr :=
  let s := collapse_ws s in
  take n s ++ (if (n <? length s)%nat then [ELLIPSIS] else []).

(** [sep.join(lines)] *)
Fixpoint join (sep : pystr) (lines : list pystr) : pystr :=
  match lines with
  | [] => []
  | [l] => l
  | l :: r => l ++ sep ++ join sep r
  end.

(** Template text: [~] stands for the double quote. *)
Definition tpl (s : string) : pystr :=
  map (λ c, if c =? 126 then 34 else c) (lit s).
Arguments tpl _%_string : simpl never.

Definition paper_lines (p : Paper) : list pystr :=
  [ lit "- [" ++ pid p ++ lit "] Title: " ++ clip (title p) 220
      ++ lit " | Category: " ++ clip (category p) 60
      ++ lit " | Date: " ++ date p ++ lit " | DOI: " ++ doi p;
    lit "  Abstract: " ++ clip (abstract p) 900 ].

(** [build_ai_prompt] *)
Definition build_ai_prompt (interests : pystr) (papers : list Paper)
    (general_topic : pystr) : pystr :=
  join [10]
    ([ lit "You are a research assistant helping rank bioRxiv papers for a daily email digest.";
       [];
       lit "USER_INTERESTS:";
       strip interests;
       [];
       lit "TASK:";
       lit "- Select the 5 most relevant papers to USER_INTERESTS. Favour papers which target major problems in their respective field, make novel contributions to their field, and have solid methodological rigor relative to the other papers in the list.";
       lit "- For each selected paper: produce a three sentence summary that is understandable to a second year undergraduate student in the field.";
       lit "- After this, write a short 'general_trends' section (3" ++ [8211] ++ lit "6 bullet points) describing what existing paradigms and opinions are changed from the results of these papers. Think beyond the first-order conclusions of the paper, and think about what the consequences of these discoveries are (but do not speculate too much).";
       lit "- Along with the 'general_trends' section, include a 'general_concept' section explaining " ++ general_topic ++ lit ". Write 3" ++ [8211] ++ lit "4 bullet points only. The first bullet should immediately begin explaining the concept; do not use a title, heading, or naming-only bullet. Bullets should emphasize structure, mechanisms, formal insights, or non-obvious implications, not introductory definitions. Use plain text only (no markdown, no headings, no formatting). Aim for a level of depth appropriate for a well-educated reader who wants a concise but nontrivial conceptual insight rather than a textbook overview.";
       lit "- Finally, include a 'specific_concept' section describing any ONE advanced concept (graduate level) from USER_INTERESTS. Choose a concept that is non-introductory, and non-textbook (avoid canonical topics such as allostery, basic Bayesian inference, classic signaling pathways, etc.). The concept does not need to appear in or relate to any of the papers; treat this section as independent enrichment. After the concepts are generated, choose exactly one to write about. Write 3" ++ [8211] ++ lit "4 bullet points only. The first bullet should immediately begin explaining the concept; do not use a title or heading bullet. Bullets should focus on mechanism, formal structure, or nuanced implications, not definitions aimed at beginners. Use plain text only (no markdown, no headings, no bold/italics).";
       [];
       lit "OUTPUT: Return ONLY valid JSON with this schema:";
       lit "{";
       tpl "  ~top_papers~: [";
       tpl "    {~id~: ~P01~, ~summary~: ~...~},";
       tpl "    {~id~: ~P02~, ~summary~: ~...~}";
       lit "  ],";
       tpl "  ~general_trends~: [~...~, ~...~],";
       tpl "  ~general_concept~: [~...~, ~...~],";
       tpl "  ~specific_concept~: [~...~, ~...~]";
       lit "}";
       [];
       lit "PAPERS:" ]
     ++ concat (map paper_lines papers)).

(** ** Digest renderer *)

(** [s.replace(c, rep)] for a one-character [c] *)
Fixpoint replace_char (c : N) (rep : pystr) (s : pystr) : pystr :=
  match s with
  | [] => []
  | x :: r => (if x =? c then rep else [x]) ++ replace_char c rep r
  end.

(** [html.escape(s)], with [quote=True]: the ampersand first, then the
    angle brackets and both quotes. *)
Definition html_escape (s : pystr) : pystr :=
  let s := replace_char 38 (lit "&amp;") s in
  let s := replace_char 60 (lit "&lt;") s in
  let s := replace_char 62 (lit "&gt;") s in
  let s := replace_char 34 (lit "&quot;") s in
  replace_char 39 (lit "&#x27;") s.

Section Renderer.
Context `{!PyRuntime}.

(** [esc], the local function of [build_email_html], on a [str] *)
Definition esc (s : pystr) : pystr := html_escape s.

(** [esc(t)] on any value: [t or ""] is the empty string for a falsy [t];
    [html.escape] calls [str.replace], which only a [str] has. *)
Definition esc_any (t : json) : result pystr :=
  if truthy t then
    match t with
    | JStr s => Ok (html_escape s)
    | _ => Raise AttributeError
    end
  else Ok (html_escape []).

(** The values a [for] loop over [v] visits *)
Definition py_iter (v : json) : result (list json) :=
  match v with
  | JList l => Ok l
  | JStr s => Ok (map (λ c, JStr [c]) s)
  | JObj d => Ok (map (λ kv, JStr kv.1) d)
  | _ => Raise TypeError
  end.

(** One entry of [items_html] *)
Definition item_html (idx : nat) (p : Paper) (one_liner url : pystr) : pystr :=
  strip
    (tpl "
            <div style=~margin: 0 0 18px 0;~>
              <h3 style=~margin: 0 0 6px 0;~>" ++ dec (N.of_nat idx)
     ++ tpl ". <a href=~" ++ esc url
     ++ tpl "~>" ++ esc (title p)
     ++ tpl "</a></h3>
              <div style=~font-size: 13px; color: #333;~>
                <div><b>Authors:</b> " ++ esc (authors p)
     ++ tpl "</div>
                <div><b>Category:</b> " ++ esc (category p)
     ++ tpl " &nbsp; <b>Date:</b> " ++ esc (date p)
     ++ tpl " &nbsp; <b>DOI:</b> " ++ esc (doi p)
     ++ tpl "v" ++ esc (version p)
     ++ tpl "</div>
              </div>
              <p style=~margin: 8px 0 6px 0;~><b>AI Summary:</b> " ++ esc one_liner
     ++ tpl "</p>
              <p style=~margin: 0;~><b>Abstract:</b><br/>" ++ esc (abstract p)
     ++ tpl "</p>
            </div>
            ").

(** The loop over [enumerate(top, start=1)]; [idx] is the number of the
    first entry of [top]. *)
Fixpoint render_items (idx : nat) (top : list json) (id_to_paper : gmap pystr Paper)
    : result (list pystr) :=
  match top with
  | [] => Ok []
  | entry :: rest =>
      pidv ←? py_get entry (lit "id") (JStr []);
      match id_to_paper !! strip (py_str pidv) with
      | None => render_items (S idx) rest id_to_paper
      | Some p =>
          sv ←? py_get entry (lit "summary") (JStr []);
          let one_liner := strip (py_str sv) in
          let url :=
            if nonempty (biorxiv_url p) then biorxiv_url p
            else if nonempty (doi p) then lit "https://doi.org/" ++ doi p
            else [] in
          items ←? render_items (S idx) rest id_to_paper;
          Ok (item_html idx p one_liner url :: items)
      end
  end.

(** ["".join(f"<li>{esc(t)}</li>" for t in ts if str(t).strip())] *)
Fixpoint render_bullets (ts : list json) : result pystr :=
  match ts with
  | [] => Ok []
  | t :: r =>
      if nonempty (strip (py_str t)) then
        e ←? esc_any t;
        rest ←? render_bullets r;
        Ok (lit "<li>" ++ e ++ lit "</li>" ++ rest)
      else render_bullets r
  end.

(** The text [build_email_html] returns, from its rendered parts *)
Definition document (date_str time_str : pystr) (items_html : list pystr)
    (trends_html conceptg_html concepts_html general_topic : pystr) : pystr :=
  strip
    (tpl "
    <html>
      <body style=~font-family: Arial, sans-serif; line-height: 1.35;~>
        <h2 style=~margin: 0 0 8px 0;~>bioRxiv daily digest " ++ [8212] ++ tpl " " ++ esc date_str
     ++ tpl "</h2>
        <div style=~color:#555; font-size: 12px; margin-bottom: 16px;~>
          Generated at " ++ esc time_str
     ++ tpl " (America/Toronto)
        </div>

        " ++ concat items_html
     ++ tpl "

        <hr style=~margin: 22px 0;~ />
        <h3 style=~margin: 0 0 8px 0;~>General Trends</h3>
        <ul style=~margin: 0; padding-left: 18px;~>
          " ++ trends_html
     ++ tpl "
        </ul>

        <hr style=~margin: 22px 0;~ />
        <h3 style=~margin: 0 0 8px 0;~>General Concept: " ++ esc general_topic
     ++ tpl "</h3>
        <ul style=~margin: 0; padding-left: 18px;~>
          " ++ conceptg_html
     ++ tpl "
        </ul>

        <hr style=~margin: 22px 0;~ />
        <h3 style=~margin: 0 0 8px 0;~>Specific Concept</h3>
        <ul style=~margin: 0; padding-left: 18px;~>
          " ++ concepts_html
     ++ tpl "
        </ul>

        <div style=~margin-top: 18px; color:#777; font-size: 12px;~>
          Automated via GitHub Actions + Gemini + bioRxiv API.
        </div>
      </body>
    </html>
    ").

(** [build_email_html]; [date_str] and [time_str] are the two results of
    [now_local.strftime]. *)
Definition build_email_html (date_str time_str : pystr) (top : list json)
    (id_to_paper : gmap pystr Paper) (trends general_concept specific_concept : json)
    (general_topic : pystr) : result pystr :=
  items_html ←? render_items 1 top id_to_paper;
  trends_html ←? (ts ←? py_iter trends; render_bullets ts);
  conceptg_html ←? (ts ←? py_iter general_concept; render_bullets ts);
  concepts_html ←? (ts ←? py_iter specific_concept; render_bullets ts);
  Ok (document date_str time_str items_html trends_html conceptg_html concepts_html
        general_topic).

End Renderer.

(** ** Model invocation *)

Inductive endpoint : Type :=
  | Primary
  | Fallback.

Section Gemini.
Context `{!PyRuntime}.

(** [v[k]] for a string key; [None] is the [KeyError] or [TypeError]. *)
Definition subscript_key (v : json) (k : pystr) : option json :=
  match v with
  | JObj d => dict_lookup d k
  | _ => None
  end.

(** [v[0]]; [None] is the [IndexError], [KeyError] or [TypeError]. *)
Definition subscript_0 (v : json) : option json :=
  match v with
  | JList (x :: _) => Some x
  | JStr (c :: _) => Some (JStr [c])
  | _ => None
  end.

(** ["".join(p.get("text", "") for p in parts if isinstance(p, dict))];
    [None] is the [TypeError] of [join] on an item that is not a [str]. *)
Fixpoint join_texts (parts : list json) : option pystr :=
  match parts with
  | [] => Some []
  | JObj d :: r =>
      match dict_get d (lit "text") (JStr []) with
      | JStr t => app t <$> join_texts r
      | _ => None
      end
  | _ :: r => join_texts r
  end.

(** Lines 205-207 of [call_gemini]; [None] is any exception they raise. *)
Definition response_text (data : json) : option pystr :=
  cands ← subscript_key data (lit "candidates");
  c0 ← subscript_0 cands;
  content ← subscript_key c0 (lit "content");
  parts ← subscript_key content (lit "parts");
  items ← match py_iter parts with Ok l => Some l | Raise _ => None end;
  text ← join_texts items;
  Some (strip text).

(** [call_gemini].  [post e prompt] is the request to endpoint [e] with the
    body built from [prompt], [raise_for_status] and [r.json()] together;
    [json_dumps] is [json.dumps]. *)
Definition call_gemini (json_dumps : json → pystr)
    (post : endpoint → pystr → result json) (prompt : pystr) : result pystr :=
  data ←? match post Primary prompt with
          | Ok data => Ok data
          | Raise _ => post Fallback prompt
          end;
  Ok (match response_text data with
      | Some text => text
      | None => json_dumps data
      end).

End Gemini.

(** ** Mail dispatch *)

(** [re.split(r"[;,]+", raw)]: [acc] is the piece being read, [after_sep]
    tells that the previous character was a separator. *)
Fixpoint split_seps (after_sep : bool) (acc : pystr) (s : pystr) : list pystr :=
  match s with
  | [] => [acc]
  | c :: r =>
      if (c =? 59) || (c =? 44) then
        if after_sep then split_seps true acc r
        else acc :: split_seps true [] r
      else split_seps false (acc ++ [c]) r
  end.

(** [_parse_recipients] *)
Definition _parse_recipients (raw : pystr) : list pystr :=
  if negb (nonempty raw) then []
  else
    omap (λ p, if nonempty p && nonempty (strip p) then Some (strip p) else None)
         (split_seps false [] raw).

(** What one SMTP session is given: the relay and the login, the envelope,
    and the message as the function builds it.  [headers] holds the fields
    the function sets itself ([msg[name] = value]), in order, each with the
    value it assigns.  The message that leaves has more to it, all of it
    the library's doing and none of it part of [headers]: [EmailMessage]
    parses an address value when it is assigned and returns what it
    parsed; [set_content] and [add_alternative] add [MIME-Version] and
    [Content-Type]. *)
Record delivery : Type := mkDelivery {
  relay : pystr * Z;
  login : pystr * pystr;
  mail_from : pystr;
  rcpt_to : list pystr;
  headers : list (pystr * pystr);
  text_part : pystr;
  html_part : pystr;
}.

Definition or_else (s default : pystr) : pystr :=
  if nonempty s then s else default.

Definition TEXT_FALLBACK : pystr :=
  lit "Your email client does not support HTML. Please view this digest in an HTML-capable client.".

Section Dispatch.
Context `{!PyRuntime}.

(** [int(env("SMTP_PORT", "587") or "587")] and its likes *)
Definition env_int (environ : gmap pystr pystr) (name default : string) : result Z :=
  v ←? env environ (lit name) (Some (lit default)) false;
  match py_int (or_else v (lit default)) with
  | Some z => Ok z
  | None => Raise ValueError
  end.

(** The first definition of [send_email] (lines 343-399).  The module binds
    the name again below, so no call reaches this one. *)
Definition send_email_first (environ : gmap pystr pystr) (subject html_body : pystr)
    : result delivery :=
  smtp_host ←? env environ (lit "SMTP_HOST") None true;
  smtp_port ←? env_int environ "SMTP_PORT" "587";
  smtp_user ←? env environ (lit "SMTP_USER") None true;
  smtp_password ←? env environ (lit "SMTP_PASSWORD") None true;
  email_to_raw ←? env environ (lit "EMAIL_TO") None true;
  email_cc_raw ←? env environ (lit "EMAIL_CC") None false;
  email_bcc_raw ←? env environ (lit "EMAIL_BCC") None false;
  email_from0 ←? env environ (lit "EMAIL_FROM") (Some smtp_user) false;
  let email_from := or_else email_from0 smtp_user in
  let to_list := _parse_recipients email_to_raw in
  let cc_list := if nonempty email_cc_raw then _parse_recipients email_cc_raw else [] in
  let bcc_list := if nonempty email_bcc_raw then _parse_recipients email_bcc_raw else [] in
  match to_list with
  | [] => Raise ValueError
  | _ =>
      let msg :=
        [(lit "Subject", subject); (lit "From", email_from);
         (lit "To", join (lit ", ") to_list)]
        ++ match cc_list with
           | [] => []
           | _ => [(lit "Cc", join (lit ", ") cc_list)]
           end in
      let all_recipients := to_list ++ cc_list ++ bcc_list in
      Ok {| relay := (smtp_host, smtp_port);
            login := (smtp_user, smtp_password);
            mail_from := email_from;
            rcpt_to := all_recipients;
            headers := msg;
            text_part := TEXT_FALLBACK;
            html_part := html_body |}
  end.

(** [msg[name]]: the first header of that name *)
Fixpoint header (msg : list (pystr * pystr)) (name : pystr) : option pystr :=
  match msg with
  | [] => None
  | (k, v) :: r => if bool_decide (k = name) then Some v else header r name
  end.

(** The recipients [smtplib.SMTP.send_message] takes from the message when
    it is given no [to_addrs]: the addresses of the To, Bcc and Cc headers
    that are present. *)
Definition header_recipients (msg : list (pystr * pystr)) : list pystr :=
  getaddresses
    (omap (header msg) [lit "To"; lit "Bcc"; lit "Cc"]).

(** The sender [send_message] takes from the message when it is given no
    [from_addr] *)
Definition header_sender (msg : list (pystr * pystr)) : pystr :=
  let from_ :=
    match header msg (lit "Sender") with
    | Some v => Some v
    | None => header msg (lit "From")
    end in
  match getaddresses (option_list from_) with
  | a :: _ => a
  | [] => []
  end.

(** The second definition of [send_email] (lines 402-425): the one that
    the name denotes when [main] runs. *)
Definition send_email (environ : gmap pystr pystr) (subject html_body : pystr)
    : result delivery :=
  smtp_host ←? env environ (lit "SMTP_HOST") None true;
  smtp_port ←? env_int environ "SMTP_PORT" "587";
  smtp_user ←? env environ (lit "SMTP_USER") None true;
  smtp_password ←? env environ (lit "SMTP_PASSWORD") None true;
  email_to ←? env environ (lit "EMAIL_TO") None true;
  email_from0 ←? env environ (lit "EMAIL_FROM") (Some smtp_user) false;
  let email_from := or_else email_from0 smtp_user in
  let msg :=
    [(lit "Subject", subject); (lit "From", email_from); (lit "To", email_to)] in
  Ok {| relay := (smtp_host, smtp_port);
        login := (smtp_user, smtp_password);
        mail_from := header_sender msg;
        rcpt_to := header_recipients msg;
        headers := msg;
        text_part := TEXT_FALLBACK;
        html_part := html_body |}.

End Dispatch.

(** ** The run *)

(** [l[:k]] *)
Definition slice_to {A} (k : Z) (l : list A) : list A :=
  if (k <? 0)%Z then take (length l - Z.to_nat (- k)) l
  else take (Z.to_nat k) l.

(** [papers[: max(10, min(max_for_ai, len(papers)))]] *)
Definition papers_for_ai (max_for_ai : Z) (papers : list Paper) : list Paper :=
  slice_to (Z.max 10 (Z.min max_for_ai (Z.of_nat (length papers)))) papers.

(** What a run reads from outside the process. *)
Record world : Type := mkWorld {
  environ : gmap pystr pystr;
  (** the catalog, by cursor *)
  catalog : Z → result json;
  (** [call_gemini], by prompt *)
  gemini : pystr → result pystr;
  (** [general_topics[n]] for the drawn [n] *)
  today_topic : pystr;
  (** [now_local.strftime("%Y-%m-%d")] *)
  date_str : pystr;
  (** [now_local.strftime("%Y-%m-%d %H:%M %Z")] *)
  time_str : pystr;
}.

Inductive outcome : Type :=
  | NoPapers
  | Sent (d : delivery).

Section Main.
Context `{!PyRuntime}.

(** [{p.pid: p for p in papers}] *)
Definition index_by_pid (papers : list Paper) : gmap pystr Paper :=
  foldl (λ m p, <[pid p := p]> m) ∅ papers.

(** [main] from the response text on (lines 456-479) *)
Definition digest (w : world) (for_ai : list Paper) (ai_text : pystr) : result delivery :=
  ai ←? extract_json ai_text;
  sel ←? select ai;
  let id_to_paper := index_by_pid for_ai in
  let subject := lit "bioRxiv digest: (" ++ date_str w ++ lit ")" in
  html_body ←? build_email_html (date_str w) (time_str w) (top_papers sel) id_to_paper
                 (trends sel) (general_concept sel) (specific_concept sel) (today_topic w);
  send_email (environ w) subject html_body.

(** Lines 434-440 of [main]: the settings read before the fetch; the
    interests and the cap are the two used below. *)
Definition settings (environ : gmap pystr pystr) : result (pystr * Z) :=
  interests ←? env environ (lit "DIGEST_INTERESTS") None true;
  gemini_key ←? env environ (lit "GEMINI_API_KEY") None true;
  lookback_days ←? env_int environ "LOOKBACK_DAYS" "1";
  max_for_ai ←? env_int environ "MAX_PAPERS_FOR_AI" "60";
  Ok (interests, max_for_ai).

(** [main]; [None] means the paging loop did not end within [fuel] requests. *)
Definition main (fuel : nat) (w : world) : option (result outcome) :=
  match settings (environ w) with
  | Raise e => Some (Raise e)
  | Ok (interests, max_for_ai) =>
      match load_recent_papers fuel (catalog w) with
      | None => None
      | Some (Raise e) => Some (Raise e)
      | Some (Ok []) => Some (Ok NoPapers)
      | Some (Ok papers) =>
          let for_ai := papers_for_ai max_for_ai papers in
          let prompt := build_ai_prompt interests for_ai (today_topic w) in
          Some (ai_text ←? gemini w prompt;
                d ←? digest w for_ai ai_text;
                Ok (Sent d))
      end
  end.

End Main.

(** * Vocabulary of the properties *)

(** Every whitespace character of [s] is a single space that no whitespace
    follows. *)
Fixpoint squeezed (s : pystr) : bool :=
  match s with
  | [] => true
  | c :: r =>
      (if is_space c then
         (c =? 32) && match r with [] => true | d :: _ => negb (is_space d) end
       else true)
      && squeezed r
  end.

(** [s] has no whitespace at either end and single spaces inside. *)
Definition ws_normal (s : pystr) : bool :=
  squeezed s && bool_decide (strip s = s).

(** [s.split()]: the maximal runs of characters of [s] that are not
    whitespace, in order; [cur] is the run being read. *)
Fixpoint words_from (cur : pystr) (s : pystr) : list pystr :=
  match s with
  | [] => if nonempty cur then [cur] else []
  | c :: r =>
      if is_space c then
        if nonempty cur then cur :: words_from [] r else words_from [] r
      else words_from (cur ++ [c]) r
  end.

Definition words (s : pystr) : list pystr := words_from [] s.

(** The characters that open or close a tag or an attribute value *)
Definition is_markup (c : N) : bool :=
  (c =? 60) || (c =? 62) || (c =? 34) || (c =? 39).

(** The markup characters of [s], in order *)
Definition markup (s : pystr) : pystr := List.filter is_markup s.

(** [html.escape] on one character *)
Definition esc_char (c : N) : pystr :=
  if c =? 38 then lit "&amp;"
  else if c =? 60 then lit "&lt;"
  else if c =? 62 then lit "&gt;"
  else if c =? 34 then lit "&quot;"
  else if c =? 39 then lit "&#x27;"
  else [c].

(** [s] has neither an opening nor a closing brace. *)
Definition brace_free (s : pystr) : bool :=
  forallb (λ c, negb (c =? 123) && negb (c =? 125)) s.

(** [s] is empty or starts with a character that is not whitespace. *)
Definition head_nonspace (s : pystr) : Prop :=
  match s with [] => True | c :: _ => is_space c = false end.

(** The characters of [s] that are not whitespace *)
Definition ink (s : pystr) : pystr := List.filter (λ c, negb (is_space c)) s.

(** [c] is one of the digits 0 to 9. *)
Definition ascii_digit (c : N) : bool := (48 <=? c) && (c <=? 57).

(** [c] is a separator of recipient lists. *)
Definition is_sep (c : N) : bool := (c =? 59) || (c =? 44).

(** [a] is an address as [_parse_recipients] returns them: not empty, no
    whitespace at its ends, no separator inside. *)
Definition clean_address (a : pystr) : Prop :=
  a ≠ [] ∧ strip a = a ∧ forallb (λ c, negb (is_sep c)) a = true.

Section Vocabulary.
Context `{!PyRuntime}.

(** [isinstance(v, list)] *)
Definition is_list (v : json) : bool :=
  match v with JList _ => true | _ => false end.

(** The [general_trends] value after line 466 *)
Definition coerced_trends (tr : json) : json :=
  if is_list tr then tr else JList [JStr (py_str tr)].

(** The value of [total] once the loop body has passed line 148: parsed
    from this page when none was known, otherwise kept. *)
Definition total_after (payload : json) (st : fetch_state) : result (option Z) :=
  match total st with
  | None => parse_total payload
  | Some t => Ok (Some t)
  end.

(** The loop variables after a page with rows has been taken in *)
Definition advanced (payload : json) (st : fetch_state) (t' : option Z) : fetch_state :=
  {| all_rows := all_rows st ++ normalize_collection payload;
     cursor := cursor st + Z.of_nat (length (normalize_collection payload));
     total := t' |}.

(** The DOI and the version number [dedupe_keep_latest_version] reads off a
    row when the loop meets it (lines 104-111): the text is trimmed, and a
    version that does not parse as an integer counts as -1. *)
Definition doi_of (row : dict) : pystr := field row "doi".

Definition ver_of (row : dict) : Z := int_or_minus_one (field row "version").

(** [r] occurs in [rows]; among the rows with its DOI none has a greater
    version and none before it has the same version. *)
Definition first_max (rows : list dict) (r : dict) : Prop :=
  ∃ pre post, rows = pre ++ r :: post
    ∧ Forall (λ x, doi_of x = doi_of r → (ver_of x < ver_of r)%Z) pre
    ∧ Forall (λ x, doi_of x = doi_of r → (ver_of x ≤ ver_of r)%Z) post.

(** The same for any way [ver] of reading a version number off a row *)
Definition first_max_by (ver : dict → Z) (rows : list dict) (r : dict) : Prop :=
  ∃ pre post, rows = pre ++ r :: post
    ∧ Forall (λ x, doi_of x = doi_of r → (ver x < ver r)%Z) pre
    ∧ Forall (λ x, doi_of x = doi_of r → (ver x ≤ ver r)%Z) post.

(** The version number line 116 reads off a row that is kept already: the
    stored value is not trimmed, and the default is ["-1"]. *)
Definition stored_ver (row : dict) : Z :=
  int_or_minus_one (py_str (dict_get row (lit "version") (JStr (lit "-1")))).

(** Both readings of the version of [row] give the same number. *)
Definition version_stable (row : dict) : Prop := stored_ver row = ver_of row.

(** The version of [row] is absent or prints without whitespace at its
    ends. *)
Definition version_trimmed (row : dict) : Prop :=
  match dict_lookup row (lit "version") with
  | Some v => strip (py_str v) = py_str v
  | None => True
  end.

(** What the loop of [dedupe_keep_latest_version] maintains once it has
    gone through the rows [seen] *)
Definition dedupe_inv (seen : list dict) (best : list (pystr * dict)) : Prop :=
  NoDup best.*1
  ∧ Forall (λ kr, kr.1 ≠ [] ∧ doi_of kr.2 = kr.1 ∧ kr.2 ∈ seen
                  ∧ (Forall version_stable seen → first_max seen kr.2)) best
  ∧ Forall (λ x, doi_of x ≠ [] → doi_of x ∈ best.*1) seen.

(** The cursors the paging loop requests in its first [fuel] rounds,
    whether it has ended by then or not *)
Fixpoint requests (fuel : nat) (api : Z → result json) (st : fetch_state) : list Z :=
  match fuel with
  | O => []
  | S fuel' =>
      cursor st ::
        match api (cursor st) with
        | Ok payload =>
            match page payload st with
            | Ok (Continue st') => requests fuel' api st'
            | _ => []
            end
        | Raise _ => []
        end
  end.

(** Descending order of the raw sort keys of rows, and of the dates of
    papers *)
Definition rows_desc (a b : dict) : Prop := str_leb (date_key b) (date_key a) = true.

Definition papers_desc (p q : Paper) : Prop := str_leb (date q) (date p) = true.

(** The [doi] field of [row] is absent, or is a string that is empty or all
    whitespace. *)
Definition blank_doi (row : dict) : bool :=
  match dict_lookup row (lit "doi") with
  | None => true
  | Some (JStr s) => forallb is_space s
  | Some _ => false
  end.

(** A paper with every field empty, the item it renders to, and [n] empty
    bullets *)
Definition blank_paper : Paper := mkPaper [] [] [] [] [] [] [] [].

Definition blank_item : pystr := item_html 0 blank_paper [] [].

Definition blank_bullets (n : nat) : pystr :=
  concat (replicate n (lit "<li>" ++ lit "</li>")).

(** The document with [k] items and [n1], [n2], [n3] bullets and no data *)
Definition blank_document (k n1 n2 n3 : nat) : pystr :=
  document [] [] (replicate k blank_item)
    (blank_bullets n1) (blank_bullets n2) (blank_bullets n3) [].

(** The recipient lists the first [send_email] reads from the environment *)
Definition recipients_of (environ : gmap pystr pystr) (name : string) : list pystr :=
  match environ !! lit name with
  | Some raw => _parse_recipients raw
  | None => []
  end.

(** The response of the model service that carries the texts [ts] as the
    parts of its first candidate *)
Definition candidate_response (ts : list pystr) : json :=
  JObj [(lit "candidates",
         JList [JObj [(lit "content",
                       JObj [(lit "parts",
                              JList ((λ t, JObj [(lit "text", JStr t)]) <$> ts))])]])].

(** [v] is a [dict]. *)
Definition is_dict (v : json) : bool :=
  match v with JObj _ => true | _ => false end.

(** [v] is a [list] of [str]. *)
Definition str_list (v : json) : bool :=
  match v with
  | JList l => forallb (λ t, match t with JStr _ => true | _ => false end) l
  | _ => false
  end.

(** [v] is [None], a [bool] or a number: a [for] loop cannot run over it. *)
Definition not_iterable (v : json) : bool :=
  match v with
  | JNull | JBool _ | JInt _ => true
  | _ => false
  end.

(** The entry of [top] names a paper of [id_to_paper]. *)
Definition known_entry (id_to_paper : gmap pystr Paper) (entry : json) : bool :=
  match entry with
  | JObj d => bool_decide (is_Some (id_to_paper !! strip (py_str (dict_get d (lit "id") (JStr [])))))
  | _ => false
  end.

End Vocabulary.

(** * Example data *)

(** A complete mail configuration with one address in each of the To, Cc
    and Bcc lists *)
Definition demo_environ : gmap pystr pystr :=
  list_to_map
    [(lit "SMTP_HOST", lit "smtp.example.org");
     (lit "SMTP_USER", lit "digest@example.org");
     (lit "SMTP_PASSWORD", lit "secret");
     (lit "EMAIL_TO", lit "a@x.com");
     (lit "EMAIL_CC", lit "c@z.com");
     (lit "EMAIL_BCC", lit "b@y.com")].

(** Addresses of header values that are plain comma-separated lists *)
Fixpoint split_commas (acc : pystr) (s : pystr) : list pystr :=
  match s with
  | [] => [acc]
  | c :: r => if c =? 44 then acc :: split_commas [] r else split_commas (acc ++ [c]) r
  end.

(** A run whose model answers without any JSON object *)
Definition bad_response_world : world :=
  {| environ :=
       <[lit "DIGEST_INTERESTS" := lit "protein folding"]>
         (<[lit "GEMINI_API_KEY" := lit "key"]> demo_environ);
     catalog := λ cursor,
       if (cursor =? 0)%Z then
         Ok (JObj [(lit "collection",
                    JList [JObj [(lit "doi", JStr (lit "10.1101/a"));
                                 (lit "version", JStr (lit "1"));
                                 (lit "date", JStr (lit "2024-01-01"))]])])
       else Raise RequestError;
     gemini := λ _, Ok (lit "I could not rank the papers.");
     today_topic := lit "Entropy";
     date_str := lit "2024-01-02";
     time_str := lit "2024-01-02 08:00 EST" |}.

(** A run whose model answers with an empty object *)
Definition sending_world : world :=
  {| environ := environ bad_response_world;
     catalog := catalog bad_response_world;
     gemini := λ _, Ok (lit "{}");
     today_topic := lit "Entropy";
     date_str := lit "2024-01-02";
     time_str := lit "2024-01-02 08:00 EST" |}.

(** A runtime to evaluate examples with: containers print as [[...]], the
    parser accepts any text in braces and hands it back, header values are
    plain comma-separated address lists; of the digits outside ASCII it
    knows the Arabic-Indic and the fullwidth ones and three superscripts;
    the digit limit is the default. *)
Definition demo_runtime : PyRuntime :=
  {| py_repr := λ _, lit "[...]";
     json_loads := λ s,
       if startswith [123] s && endswith [125] s then Ok (JObj [(lit "text", JStr s)])
       else Raise ValueError;
     getaddresses := λ hs,
       hs ≫= (λ h, List.filter nonempty (strip <$> split_commas [] h));
     unicode_decimal := λ c,
       if (1632 <=? c) && (c <=? 1641) then Some (c - 1632)
       else if (65296 <=? c) && (c <=? 65305) then Some (c - 65296)
       else None;
     unicode_isdigit := λ c,
       ((1632 <=? c) && (c <=? 1641)) || ((65296 <=? c) && (c <=? 65305))
       || (c =? 178) || (c =? 179) || (c =? 185);
     int_max_str_digits := 4300 |}.

(** A paper whose title tries to inject a script element *)
Definition hostile_paper : Paper :=
  {| pid := lit "P01";
     title := lit "<script>alert(1)</script>";
     doi := lit "10.1101/a";
     version := lit "1";
     date := lit "2024-01-01";
     category := lit "biophysics";
     authors := lit "A. Author";
     abstract := lit "An abstract." |}.

Definition hostile_top : list json :=
  [JObj [(lit "id", JStr (lit "P01")); (lit "summary", JStr (lit "A summary."))]].

(** The digest for [hostile_paper] *)
Definition hostile_html : result pystr :=
  build_email_html (H := demo_runtime) (lit "2024-01-02") (lit "2024-01-02 08:00 EST")
    hostile_top (index_by_pid [hostile_paper])
    (JList [JStr (lit "<b>bold</b> trend")]) (JList []) (JList [])
    (lit "Entropy & information").

Definition hostile_doc : pystr :=
  match hostile_html with Ok doc => doc | Raise _ => [] end.

(** A response object with seven selections and a [general_trends] that is
    a string *)
Definition long_response : dict :=
  [(lit "top_papers", JList (replicate 7 (JObj [(lit "id", JStr (lit "P01"))])));
   (lit "general_trends", JStr (lit "one trend"))].

Definition row_of (doi version date : string) : dict :=
  [(lit "doi", JStr (lit doi)); (lit "version", JStr (lit version));
   (lit "date", JStr (lit date))].

(** Two rows with distinct DOIs; the date of the first starts with a space. *)
Definition padded_rows : list dict :=
  [row_of "10.1101/a" "1" " 2024-01-02"; row_of "10.1101/b" "1" "2024-01-01"].

(** Rows with clean dates; two of them share a DOI. *)
Definition clean_rows : list dict :=
  [row_of "10.1101/a" "1" "2024-01-01"; row_of "10.1101/b" "1" "2024-01-03";
   row_of "10.1101/a" "2" "2024-01-02"; row_of "" "1" "2024-01-04"].

(** A catalog of 150 rows served as a page of 100 and a page of 50 *)
Definition demo_page1 : json :=
  JObj [(lit "messages", JList [JObj [(lit "total", JInt 150)]]);
        (lit "collection", JList (replicate 100 (JObj (row_of "10.1101/a" "1" "2024-01-01"))))].

Definition demo_catalog (cursor : Z) : result json :=
  if (cursor =? 0)%Z then Ok demo_page1
  else if (cursor =? 100)%Z then
    Ok (JObj [(lit "collection", JList (replicate 50 (JObj (row_of "10.1101/b" "1" "2024-01-02"))))])
  else Raise RequestError.


(** Two rows with distinct DOIs, newest first *)
Definition distinct_rows : list dict :=
  [row_of "10.1101/b" "1" "2024-01-03"; row_of "10.1101/a" "2" "2024-01-02"].

(** A catalog that answers with the inner list only *)
Definition bare_list_catalog (cursor : Z) : result json :=
  Ok (JList [JObj (row_of "10.1101/a" "1" "2024-01-01")]).

(** A catalog that answers with a status message and no [collection] *)
Definition message_only : json :=
  JObj [(lit "messages", JList [JObj [(lit "status", JStr (lit "no posts found"))]])].

Definition message_catalog (cursor : Z) : result json := Ok message_only.

(** A run with nothing configured *)
Definition unset_world : world :=
  {| environ := ∅;
     catalog := demo_catalog;
     gemini := λ _, Raise RequestError;
     today_topic := lit "Entropy";
     date_str := lit "2024-01-02";
     time_str := lit "2024-01-02 08:00 EST" |}.

(** A run with the interests and the key configured, against the catalog
    that has no rows *)
Definition quiet_world : world :=
  {| environ := environ bad_response_world;
     catalog := message_catalog;
     gemini := λ _, Raise RequestError;
     today_topic := lit "Entropy";
     date_str := lit "2024-01-02";
     time_str := lit "2024-01-02 08:00 EST" |}.

(** A model whose primary endpoint answers with two text parts, and one
    whose endpoints both fail *)
Definition demo_post (e : endpoint) (prompt : pystr) : result json :=
  match e with
  | Primary => Ok (candidate_response [tpl " {~top_papers~"; lit ": []} "])
  | Fallback => Raise RequestError
  end.

Definition failing_post (e : endpoint) (prompt : pystr) : result json :=
  match e with
  | Primary => Raise RequestError
  | Fallback => Raise ValueError
  end.

(** [hostile_paper] with other authors and another version *)
Definition revised_paper : Paper :=
  {| pid := pid hostile_paper;
     title := title hostile_paper;
     doi := doi hostile_paper;
     version := lit "2";
     date := date hostile_paper;
     category := category hostile_paper;
     authors := lit "B. Author, C. Author";
     abstract := abstract hostile_paper |}.

(** Two records of one DOI: the version of the first is ["5"] followed by
    the information separator U+001C, that of the second is ["3"]. *)
Definition padded_version_row : dict :=
  [(lit "doi", JStr (lit "10.1101/a")); (lit "version", JStr (lit "5" ++ [28]))].

Definition plain_version_row : dict :=
  [(lit "doi", JStr (lit "10.1101/a")); (lit "version", JStr (lit "3"))].

(** A catalog that answers every request with a full page and no total *)
Definition endless_catalog (cursor : Z) : result json :=
  Ok (JObj [(lit "collection",
             JList (replicate 100 (JObj (row_of "10.1101/a" "1" "2024-01-01"))))]).
(** * Properties *)

Local Close Scope N_scope.

Lemma Ok_inj {A} (a b : A) : Ok a = Ok b → a = b.
Proof. by intros [= ->]. Qed.

(** ** Strings *)

Section StringFacts.

Lemma lstrip_cons_space c s : is_space c = true → lstrip (c :: s) = lstrip s.
Proof. intros Hc. unfold lstrip. simpl. by rewrite Hc. Qed.

Lemma lstrip_cons_nonspace c s : is_space c = false → lstrip (c :: s) = c :: s.
Proof. intros Hc. unfold lstrip. simpl. by rewrite Hc. Qed.

Lemma lstrip_head s : match lstrip s with [] => True | c :: _ => is_space c = false end.
Proof.
  induction s as [|c s IH]; [done|].
  destruct (is_space c) eqn:Hc.
  - by rewrite lstrip_cons_space.
  - by rewrite lstrip_cons_nonspace.
Qed.

Lemma lstrip_fixed s :
  match s with [] => True | c :: _ => is_space c = false end → lstrip s = s.
Proof. destruct s as [|c s]; [done|]. apply lstrip_cons_nonspace. Qed.

Lemma lstrip_idem s : lstrip (lstrip s) = lstrip s.
Proof. apply lstrip_fixed, lstrip_head. Qed.

Lemma rstrip_cons c s :
  rstrip (c :: s) =
    match rstrip s with
    | [] => if is_space c then [] else [c]
    | r => c :: r
    end.
Proof. done. Qed.

Lemma rstrip_head s :
  match s with [] => True | c :: _ => is_space c = false end →
  match rstrip s with [] => s = [] | c :: _ => is_space c = false end.
Proof.
  destruct s as [|c s]; [done|]. intros Hc. rewrite rstrip_cons.
  destruct (rstrip s); by rewrite ?Hc.
Qed.

Lemma rstrip_idem s : rstrip (rstrip s) = rstrip s.
Proof.
  induction s as [|c s IH]; [done|]. rewrite rstrip_cons.
  destruct (rstrip s) as [|d r] eqn:Hr.
  - destruct (is_space c) eqn:Hc; [done|]. simpl. by rewrite Hc.
  - rewrite rstrip_cons, IH. done.
Qed.

Lemma strip_idem s : strip (strip s) = strip s.
Proof.
  unfold strip. rewrite (lstrip_fixed (rstrip _)); [apply rstrip_idem|].
  pose proof (rstrip_head (lstrip s) (lstrip_head s)) as H.
  destruct (rstrip (lstrip s)); done.
Qed.

Lemma rstrip_app_nonempty s t : rstrip t ≠ [] → rstrip (s ++ t) = s ++ rstrip t.
Proof.
  intros Ht. induction s as [|c s IH]; [done|].
  simpl app. rewrite rstrip_cons, IH.
  destruct (s ++ rstrip t) eqn:E; [|done].
  apply app_eq_nil in E as [_ ?]. done.
Qed.

Lemma rstrip_app_empty s t : rstrip t = [] → rstrip (s ++ t) = rstrip s.
Proof.
  intros Ht. induction s as [|c s IH]; [done|].
  simpl app. by rewrite !rstrip_cons, IH.
Qed.

Lemma rstrip_snoc_nonspace s c : is_space c = false → rstrip (s ++ [c]) = s ++ [c].
Proof. intros Hc. rewrite rstrip_app_nonempty; simpl; by rewrite Hc. Qed.

Lemma rstrip_all_space s : forallb is_space s = true → rstrip s = [].
Proof.
  induction s as [|c s IH]; [done|]. simpl.
  intros [Hc Hs]%andb_prop. by rewrite IH, Hc.
Qed.

Lemma lstrip_all_space s : forallb is_space s = true → lstrip s = [].
Proof.
  induction s as [|c s IH]; [done|]. simpl.
  intros [Hc Hs]%andb_prop. rewrite lstrip_cons_space; auto.
Qed.

Lemma lstrip_app_space s t : forallb is_space s = true → lstrip (s ++ t) = lstrip t.
Proof.
  induction s as [|c s IH]; [done|]. simpl.
  intros [Hc Hs]%andb_prop. rewrite lstrip_cons_space; auto.
Qed.

Lemma lstrip_app_nonempty s t : lstrip s ≠ [] → lstrip (s ++ t) = lstrip s ++ t.
Proof.
  induction s as [|c s IH]; [done|]. simpl app.
  destruct (is_space c) eqn:Hc.
  - rewrite !lstrip_cons_space by done. apply IH.
  - by rewrite !lstrip_cons_nonspace.
Qed.

Lemma lstrip_empty_all_space s : lstrip s = [] → forallb is_space s = true.
Proof.
  induction s as [|c s IH]; [done|].
  destruct (is_space c) eqn:Hc.
  - rewrite lstrip_cons_space by done. simpl. rewrite Hc. auto.
  - by rewrite lstrip_cons_nonspace.
Qed.

Lemma rstrip_empty_all_space s : rstrip s = [] → forallb is_space s = true.
Proof.
  induction s as [|c s IH]; [done|]. rewrite rstrip_cons.
  destruct (rstrip s); [|done].
  destruct (is_space c) eqn:Hc; [|done]. simpl. rewrite Hc. auto.
Qed.

Lemma startswith_app p s : startswith p (p ++ s) = true.
Proof. induction p as [|a p IH]; [done|]. simpl. by rewrite N.eqb_refl. Qed.

Lemma startswith_prefix p s : startswith p s = true → ∃ t, s = p ++ t.
Proof.
  revert s. induction p as [|a p IH]; intros s H; [by exists s|].
  destruct s as [|b s]; [done|]. simpl in H.
  apply andb_prop in H as [->%N.eqb_eq [t ->]%IH]. by exists t.
Qed.

Lemma rstrip_nonspace s : forallb (λ c, negb (is_space c)) s = true → rstrip s = s.
Proof.
  induction s as [|c s IH]; [done|]. cbn [forallb].
  intros [Hc Hs]%andb_prop. apply negb_true_iff in Hc.
  rewrite rstrip_cons, IH by done. destruct s; by rewrite ?Hc.
Qed.

Lemma strip_nonspace s : forallb (λ c, negb (is_space c)) s = true → strip s = s.
Proof.
  intros Hs. unfold strip. rewrite lstrip_fixed; [by apply rstrip_nonspace|].
  destruct s as [|c s]; [done|]. cbn [forallb] in Hs.
  apply andb_prop in Hs as [Hc _]. by apply negb_true_iff in Hc.
Qed.

End StringFacts.

(** ** The cap on the papers sent to the model *)

Lemma slice_to_nonneg {A} (k : Z) (l : list A) :
  (0 ≤ k)%Z → slice_to k l = take (Z.to_nat k) l.
Proof. intros Hk. unfold slice_to. destruct (Z.ltb_spec k 0); [lia|done]. Qed.

Lemma take_min_length {A} (n : nat) (l : list A) :
  take n l = take (n `min` length l) l.
Proof.
  destruct (Nat.le_ge_cases n (length l)).
  - by rewrite Nat.min_l.
  - rewrite Nat.min_r by done. by rewrite !firstn_all2.
Qed.

(** C9: for every cap [m] and every list of papers, the papers sent to the
    model are the first [min (len papers) (max 10 m)] of them; so a cap
    below 10 still lets ten through, and fewer than ten papers are all
    sent. *)
Theorem papers_for_ai_floor (m : Z) (papers : list Paper) :
  papers_for_ai m papers
    = take (length papers `min` Z.to_nat (Z.max 10 m)) papers
  ∧ length (papers_for_ai m papers)
    = length papers `min` Z.to_nat (Z.max 10 m)
  ∧ ((m < 10)%Z → papers_for_ai m papers = take 10 papers)
  ∧ ((length papers < 10)%nat → papers_for_ai m papers = papers).
Proof.
  assert (Hmain : papers_for_ai m papers
            = take (length papers `min` Z.to_nat (Z.max 10 m)) papers).
  { unfold papers_for_ai. rewrite slice_to_nonneg by lia.
    rewrite take_min_length.
    rewrite (take_min_length (_ `min` _)). f_equal. lia. }
  split; [done|]. split; [|split].
  - rewrite Hmain, length_take. lia.
  - intros Hm. rewrite Hmain, (take_min_length 10). f_equal. lia.
  - intros Hlen. rewrite Hmain. apply firstn_all2. lia.
Qed.

(** ** Validation of the parsed response *)

Section SelectFacts.
Context `{!PyRuntime}.

Lemma select_dict (d : dict) :
  select (JObj d) =
    match dict_get d (lit "top_papers") (JList []) with
    | JList l =>
        Ok {| top_papers := take 5 l;
              trends := coerced_trends (dict_get d (lit "general_trends") (JList []));
              general_concept := dict_get d (lit "general_concept") (JList []);
              specific_concept := dict_get d (lit "specific_concept") (JList []) |}
    | _ => Raise RuntimeError
    end.
Proof.
  unfold select, coerced_trends, is_list. simpl.
  destruct (dict_get d (lit "top_papers") (JList [])); try done.
  destruct (dict_get d (lit "general_trends") (JList [])); done.
Qed.

(** C7: on a parsed response object, the check fails (with the fatal
    [RuntimeError]) exactly when [top_papers] is not a list; otherwise it
    succeeds, keeps the first five entries of [top_papers] whatever their
    number, and turns a [general_trends] that is not a list into the
    one-element list of its string form. *)
Theorem select_checks_top_papers_only (d : dict) :
  let top := dict_get d (lit "top_papers") (JList []) in
  let tr := dict_get d (lit "general_trends") (JList []) in
  (select (JObj d) = Raise RuntimeError ↔ is_list top = false)
  ∧ (∀ l, top = JList l →
       ∃ sel, select (JObj d) = Ok sel
         ∧ top_papers sel = take 5 l
         ∧ length (top_papers sel) = length l `min` 5
         ∧ trends sel = (if is_list tr then tr else JList [JStr (py_str tr)])).
Proof.
  intros top tr. rewrite select_dict. fold top. fold tr. split.
  - destruct top; simpl; split; intros; done.
  - intros l ->. eexists. split; [done|]. simpl.
    rewrite length_take. repeat split; lia.
Qed.

End SelectFacts.

(** ** Clipping *)

Section ClipFacts.

Lemma squeeze_squeezed s :
  squeezed (squeeze false s) = true
  ∧ squeezed (squeeze true s) = true
  ∧ head_nonspace (squeeze true s).
Proof.
  induction s as [|c s (IH1 & IH2 & IH3)]; [done|].
  simpl. destruct (is_space c) eqn:Hc; simpl; rewrite ?Hc; simpl.
  - repeat split; try done.
    rewrite IH2. unfold head_nonspace in IH3.
    destruct (squeeze true s); [done|]. by rewrite IH3.
  - by rewrite IH1.
Qed.

Lemma squeezed_lstrip s : squeezed s = true → squeezed (lstrip s) = true.
Proof.
  induction s as [|c s IH]; [done|]. intros H.
  destruct (is_space c) eqn:Hc.
  - rewrite lstrip_cons_space by done. apply IH.
    simpl in H. by apply andb_prop in H as [_ ?].
  - by rewrite lstrip_cons_nonspace.
Qed.

Lemma rstrip_keeps_head c s :
  is_space c = false → ∃ t, rstrip (c :: s) = c :: t.
Proof. intros Hc. rewrite rstrip_cons. destruct (rstrip s); rewrite ?Hc; eauto. Qed.

Lemma squeezed_rstrip s : squeezed s = true → squeezed (rstrip s) = true.
Proof.
  induction s as [|c s IH]; [done|]. intros H.
  simpl in H. apply andb_prop in H as [Hc Hs].
  rewrite rstrip_cons. specialize (IH Hs).
  destruct (rstrip s) as [|d r] eqn:Hr.
  - destruct (is_space c) eqn:E; [done|]. simpl. by rewrite E.
  - change (squeezed (c :: d :: r)) with
      ((if is_space c then (c =? 32)%N && negb (is_space d) else true)
       && squeezed (d :: r)).
    rewrite IH, andb_true_r.
    destruct (is_space c) eqn:E; [|done].
    apply andb_prop in Hc as [-> Hnext]. simpl.
    destruct s as [|d' s']; [done|].
    apply negb_true_iff in Hnext.
    destruct (rstrip_keeps_head d' s' Hnext) as [t Ht].
    rewrite Ht in Hr. injection Hr as <- _. by rewrite Hnext.
Qed.

Lemma squeeze_fixed s :
  squeezed s = true →
  squeeze false s = s ∧ (head_nonspace s → squeeze true s = s).
Proof.
  induction s as [|c s IH]; [done|]. intros H.
  simpl in H. apply andb_prop in H as [Hc Hs].
  destruct (IH Hs) as [IH1 IH2]. simpl.
  destruct (is_space c) eqn:E.
  - apply andb_prop in Hc as [->%N.eqb_eq Hnext]. split.
    + f_equal. apply IH2. destruct s; [done|]. by apply negb_true_iff.
    + simpl. intros ?. congruence.
  - rewrite IH1. done.
Qed.

Lemma ink_squeeze b s : ink (squeeze b s) = ink s.
Proof.
  revert b. induction s as [|c s IH]; intros b; [done|]. simpl.
  destruct (is_space c) eqn:Hc; simpl; rewrite ?Hc; simpl.
  - destruct b; simpl; apply IH.
  - f_equal. apply IH.
Qed.

Lemma ink_lstrip s : ink (lstrip s) = ink s.
Proof.
  induction s as [|c s IH]; [done|].
  destruct (is_space c) eqn:Hc.
  - rewrite lstrip_cons_space by done. simpl. by rewrite Hc.
  - by rewrite lstrip_cons_nonspace.
Qed.

Lemma ink_rstrip s : ink (rstrip s) = ink s.
Proof.
  induction s as [|c s IH]; [done|]. rewrite rstrip_cons.
  destruct (rstrip s) as [|d r] eqn:Hr.
  - simpl. rewrite <- IH. destruct (is_space c) eqn:Hc; simpl; by rewrite ?Hc.
  - simpl. simpl in IH. by rewrite IH.
Qed.

Lemma collapse_ws_normal s : ws_normal (collapse_ws s) = true.
Proof.
  unfold ws_normal, collapse_ws. apply andb_true_intro. split.
  - unfold strip. apply squeezed_rstrip, squeezed_lstrip, squeeze_squeezed.
  - apply bool_decide_eq_true, strip_idem.
Qed.

Lemma collapse_ws_fixed s : ws_normal s = true → collapse_ws s = s.
Proof.
  unfold ws_normal, collapse_ws.
  intros [Hsq Hst%bool_decide_eq_true]%andb_prop.
  by rewrite (proj1 (squeeze_fixed s Hsq)).
Qed.

Lemma words_from_spec cur s :
  forallb (λ c, negb (is_space c)) cur = true →
  Forall (λ w, w ≠ [] ∧ forallb (λ c, negb (is_space c)) w = true) (words_from cur s)
  ∧ concat (words_from cur s) = cur ++ ink s.
Proof.
  revert cur. induction s as [|c s IH]; intros cur Hcur; cbn [words_from ink List.filter].
  - destruct cur; cbn [nonempty concat]; [done|].
    split; [by repeat constructor|by rewrite !app_nil_r].
  - destruct (is_space c) eqn:Hc; cbn [negb].
    + destruct (IH [] eq_refl) as [IH1 IH2]. fold (ink s) in *.
      destruct cur as [|x cur]; cbn [nonempty]; [done|].
      split; [by constructor|]. cbn [concat]. by rewrite IH2.
    + destruct (IH (cur ++ [c])) as [IH1 IH2].
      { rewrite forallb_app, Hcur. cbn. by rewrite Hc. }
      split; [done|]. fold (ink s) in *. by rewrite IH2, <- app_assoc.
Qed.

Lemma join_words_nonempty sep w ws : w ≠ [] → join sep (w :: ws) ≠ [].
Proof. intros Hw. destruct ws; cbn [join]; [done|]. by destruct w. Qed.

Lemma lstrip_squeeze s : lstrip (squeeze false s) = squeeze true s.
Proof.
  destruct s as [|c s]; [done|]. cbn [squeeze].
  destruct (is_space c) eqn:Hc.
  - rewrite lstrip_cons_space by done. apply lstrip_fixed.
    apply (squeeze_squeezed s).
  - by rewrite lstrip_cons_nonspace.
Qed.

(** The squeezed text, trimmed on the right, is the words joined by one
    space: after the word [cur] being read, and after whitespace. *)
Lemma rstrip_squeeze_words s cur :
  forallb (λ c, negb (is_space c)) cur = true →
  (cur ≠ [] → rstrip (cur ++ squeeze false s) = join [32%N] (words_from cur s))
  ∧ rstrip (squeeze true s) = join [32%N] (words_from [] s).
Proof.
  revert cur. induction s as [|c s IH]; intros cur Hcur.
  - split; [|done]. intros Hne. rewrite app_nil_r, rstrip_nonspace by done.
    cbn [words_from]. by destruct cur.
  - destruct (IH [] eq_refl) as [_ IHrun]. cbn [squeeze words_from].
    destruct (is_space c) eqn:Hc.
    + split; [|exact IHrun]. intros Hne.
      destruct cur as [|x cur]; [done|]. cbn [nonempty].
      pose proof (proj1 (words_from_spec [] s eq_refl)) as Hw.
      destruct (words_from [] s) as [|w ws] eqn:E.
      * rewrite rstrip_app_empty by (rewrite rstrip_cons, IHrun; done).
        by rewrite rstrip_nonspace.
      * apply Forall_inv in Hw as [Hw _].
        pose proof (join_words_nonempty [32%N] w ws Hw) as Hj.
        rewrite rstrip_app_nonempty.
        -- rewrite rstrip_cons, IHrun.
           change (join [32%N] ((x :: cur) :: w :: ws))
             with ((x :: cur) ++ [32%N] ++ join [32%N] (w :: ws)).
           by destruct (join [32%N] (w :: ws)).
        -- rewrite rstrip_cons, IHrun. by destruct (join [32%N] (w :: ws)).
    + assert (Hc' : forallb (λ c, negb (is_space c)) (cur ++ [c]) = true).
      { rewrite forallb_app, Hcur. cbn. by rewrite Hc. }
      destruct (IH (cur ++ [c]) Hc') as [IHword _].
      split.
      * intros _. rewrite cons_middle, app_assoc. apply IHword. by destruct cur.
      * change (c :: squeeze false s) with ([] ++ [c] ++ squeeze false s).
        destruct (IH [c]) as [IHc _]; [cbn; by rewrite Hc|]. by apply IHc.
Qed.

Lemma collapse_ws_words s : collapse_ws s = join [32%N] (words s).
Proof.
  unfold collapse_ws, strip, words. rewrite lstrip_squeeze.
  apply (rstrip_squeeze_words s [] eq_refl).
Qed.

(** C8: clipping first collapses whitespace: the collapsed string is the
    words of the input, its maximal runs of characters that are not
    whitespace, joined by single spaces; so it has no whitespace at its
    ends, only single spaces inside and the same visible characters, and a
    string already in that form is left as it is.  When the collapsed
    string is longer than [n] the result is its first [n] characters and
    one marker; otherwise it is the collapsed string. *)
Theorem clip_collapses_then_cuts (s : pystr) (n : nat) :
  let c := collapse_ws s in
  ws_normal c = true
  ∧ ink c = ink s
  ∧ (ws_normal s = true → c = s)
  ∧ (n < length c → clip s n = take n c ++ [ELLIPSIS] ∧ length (clip s n) = S n)
  ∧ (length c ≤ n → clip s n = c)
  ∧ c = join [32%N] (words s)
  ∧ Forall (λ w, w ≠ [] ∧ forallb (λ x, negb (is_space x)) w = true) (words s)
  ∧ concat (words s) = ink s.
Proof.
  intros c. split; [apply collapse_ws_normal|]. split; [|split; [|split; [|split]]].
  - unfold c, collapse_ws, strip. by rewrite ink_rstrip, ink_lstrip, ink_squeeze.
  - apply collapse_ws_fixed.
  - intros Hn. unfold clip. fold c.
    destruct (Nat.ltb_spec n (length c)); [|lia].
    split; [done|]. rewrite length_app, length_take. simpl. lia.
  - intros Hn. unfold clip. fold c.
    destruct (Nat.ltb_spec n (length c)); [lia|].
    rewrite firstn_all2 by done. apply app_nil_r.
  - split; [apply collapse_ws_words|]. apply (words_from_spec [] s eq_refl).
Qed.

(** A 1000-character abstract of 200 four-letter words, two spaces after
    each, clipped to 900: its first 900 characters with one space after
    each word, and the marker; a short one with whitespace of several
    kinds comes back with single spaces; a 50-character one without
    whitespace is unchanged. *)
Lemma clip_collapses_then_cuts_witness :
  clip (concat (replicate 200 (lit "word  "))) 900
  = take 900 (concat (replicate 200 (lit "word "))) ++ [ELLIPSIS]
  ∧ length (clip (concat (replicate 200 (lit "word  "))) 900) = 901
  ∧ clip ([32; 9] ++ lit "two" ++ [10; 32; 160] ++ lit "words" ++ [13; 10])%N 900
    = lit "two words"
  ∧ collapse_ws ([32; 9] ++ lit "two" ++ [10; 32; 160] ++ lit "words" ++ [13; 10])%N
    = join [32%N] [lit "two"; lit "words"]
  ∧ clip (replicate 50 97%N) 900 = replicate 50 97%N.
Proof.
  split; [|split; [|split; [|split]]].
  - refine (eq_trans (proj1 (proj1 (proj2 (proj2 (proj2
      (clip_collapses_then_cuts (concat (replicate 200 (lit "word  "))) 900)))) _)) _).
    + vm_compute. lia.
    + vm_compute. reflexivity.
  - refine (proj2 (proj1 (proj2 (proj2 (proj2
      (clip_collapses_then_cuts (concat (replicate 200 (lit "word  "))) 900)))) _)).
    vm_compute. lia.
  - refine (eq_trans (proj1 (proj2 (proj2 (proj2 (proj2
      (clip_collapses_then_cuts
         ([32; 9] ++ lit "two" ++ [10; 32; 160] ++ lit "words" ++ [13; 10])%N 900)))))
      _) _).
    + vm_compute. lia.
    + vm_compute. reflexivity.
  - exact (proj1 (proj2 (proj2 (proj2 (proj2 (proj2
      (clip_collapses_then_cuts
         ([32; 9] ++ lit "two" ++ [10; 32; 160] ++ lit "words" ++ [13; 10])%N 0))))))).
  - refine (proj1 (proj2 (proj2 (proj2 (proj2
      (clip_collapses_then_cuts (replicate 50 97%N) 900))))) _).
    vm_compute. lia.
Defined.

End ClipFacts.

(** ** The paging loop *)

Section PagingFacts.
Context `{!PyRuntime}.

Lemma page_no_rows payload st :
  normalize_collection payload = [] → page payload st = Ok (Break st).
Proof. intros Hrows. unfold page. by rewrite Hrows. Qed.

Lemma page_rows payload st t' :
  normalize_collection payload ≠ [] →
  total_after payload st = Ok t' →
  page payload st =
    Ok ((if (Z.of_nat (length (normalize_collection payload)) <? 100)%Z
            || match t' with
               | Some t => (cursor (advanced payload st t') >=? t)%Z
               | None => false
               end
         then Break else Continue) (advanced payload st t')).
Proof.
  intros Hrows Ht. unfold page, total_after in *.
  destruct (normalize_collection payload) as [|r rows] eqn:E; [done|].
  rewrite Ht. simpl bind. unfold advanced. rewrite E.
  destruct (_ <? 100)%Z; [done|]. simpl.
  destruct t' as [t|]; [|done]. simpl. by destruct (_ >=? t)%Z.
Qed.

Lemma fetch_pages_break fuel api st payload st' :
  api (cursor st) = Ok payload → page payload st = Ok (Break st') →
  fetch_pages (S fuel) api st = Some ([cursor st], Ok st').
Proof. intros Ha Hp. simpl. by rewrite Ha, Hp. Qed.

Lemma fetch_pages_continue fuel api st payload st' :
  api (cursor st) = Ok payload → page payload st = Ok (Continue st') →
  fetch_pages (S fuel) api st =
    match fetch_pages fuel api st' with
    | Some (tr, r) => Some (cursor st :: tr, r)
    | None => None
    end.
Proof. intros Ha Hp. simpl. by rewrite Ha, Hp. Qed.

(** With a first page of 100 rows that announces a total of 150, the
    second request is the last, whatever it returns. *)
Lemma fetch_pages_total_150 fuel api p1 :
  api 0%Z = Ok p1 →
  length (normalize_collection p1) = 100 →
  parse_total p1 = Ok (Some 150%Z) →
  ∃ r, fetch_pages (S (S fuel)) api fetch_init = Some ([0; 100]%Z, r).
Proof.
  intros Ha Hlen Ht.
  assert (Hp1 : page p1 fetch_init = Ok (Continue (advanced p1 fetch_init (Some 150%Z)))).
  { rewrite (page_rows p1 fetch_init (Some 150%Z)).
    - unfold advanced. simpl. by rewrite Hlen.
    - intros E. by rewrite E in Hlen.
    - done. }
  rewrite (fetch_pages_continue _ _ _ _ _ Ha Hp1).
  assert (Hc : cursor (advanced p1 fetch_init (Some 150%Z)) = 100%Z)
    by (unfold advanced; simpl; by rewrite Hlen).
  assert (Htot : total (advanced p1 fetch_init (Some 150%Z)) = Some 150%Z) by done.
  generalize dependent (advanced p1 fetch_init (Some 150%Z)). intros st1 _ Hc Htot.
  simpl. rewrite Hc.
  destruct (api 100%Z) as [p2|e]; [|by eexists].
  destruct (normalize_collection p2) as [|x rows] eqn:E.
  - rewrite page_no_rows by done. by eexists.
  - rewrite (page_rows p2 st1 (Some 150%Z));
      [|by rewrite E|by unfold total_after; rewrite Htot].
    destruct (Z.ltb_spec (Z.of_nat (length (normalize_collection p2))) 100);
      simpl; [by eexists|].
    rewrite Hc. destruct (Z.geb_spec (100 + Z.of_nat (length (normalize_collection p2))) 150).
    + by eexists.
    + lia.
Qed.

(** C3: the loop stops at once on a page without rows, whether or not a
    total is known; on a page with rows it stops exactly when the page has
    fewer than 100 rows or a total is known and the advanced cursor has
    reached it, and goes on to the next request otherwise; after a page of
    fewer than 100 rows no request follows even when reading the total
    raises; with 100 rows and a total of 150 on the first page, exactly the
    cursors 0 and 100 are requested. *)
Theorem paging_stops (api : Z → result json) (fuel : nat) (st : fetch_state)
    (payload : json) :
  api (cursor st) = Ok payload →
  let rows := normalize_collection payload in
  (rows = [] → fetch_pages (S fuel) api st = Some ([cursor st], Ok st))
  ∧ (∀ t', rows ≠ [] → total_after payload st = Ok t' →
       let st' := advanced payload st t' in
       (length rows < 100 →
          fetch_pages (S fuel) api st = Some ([cursor st], Ok st'))
       ∧ (∀ t, t' = Some t → (t ≤ cursor st')%Z →
            fetch_pages (S fuel) api st = Some ([cursor st], Ok st'))
       ∧ (100 ≤ length rows → (∀ t, t' = Some t → (cursor st' < t)%Z) →
            fetch_pages (S fuel) api st =
              match fetch_pages fuel api st' with
              | Some (tr, r) => Some (cursor st :: tr, r)
              | None => None
              end))
  ∧ (length rows < 100 → ∃ r, fetch_pages (S fuel) api st = Some ([cursor st], r))
  ∧ (cursor st = 0%Z → total st = None → length rows = 100 →
       parse_total payload = Ok (Some 150%Z) → all_rows st = [] →
       ∃ r, fetch_pages (S (S fuel)) api st = Some ([0; 100]%Z, r)).
Proof.
  intros Ha rows. split; [|split; [|split]].
  - intros Hrows. eapply fetch_pages_break; [done|]. by apply page_no_rows.
  - intros t' Hrows Ht st'. pose proof (page_rows payload st t' Hrows Ht) as Hp.
    fold rows st' in Hp. split; [|split].
    + intros Hlen. eapply fetch_pages_break; [done|]. rewrite Hp.
      destruct (Z.ltb_spec (Z.of_nat (length rows)) 100); [done|lia].
    + intros t -> Hge. eapply fetch_pages_break; [done|]. rewrite Hp.
      destruct (Z.geb_spec (cursor st') t); [|lia]. by rewrite orb_true_r.
    + intros Hlen Hlt. eapply fetch_pages_continue; [done|]. rewrite Hp.
      destruct (Z.ltb_spec (Z.of_nat (length rows)) 100); [lia|].
      destruct t' as [t|]; [|done].
      destruct (Z.geb_spec (cursor st') t); [|done].
      specialize (Hlt t eq_refl). lia.
  - intros Hlen. cbn [fetch_pages]. rewrite Ha. unfold page. fold rows.
    destruct rows as [|x rows'] eqn:E; [by eexists|].
    destruct (match total st with None => _ | Some t => _ end) as [t'|];
      cbn [bind]; [|by eexists].
    destruct (Z.ltb_spec (Z.of_nat (length (x :: rows'))) 100); [by eexists|lia].
  - intros Hc Htot Hlen Hpt Hall.
    assert (st = fetch_init) as ->.
    { destruct st. simpl in *. by subst. }
    by apply (fetch_pages_total_150 fuel api payload).
Qed.

End PagingFacts.

(** ** Deduplication *)

Section DedupeFacts.
Context `{!PyRuntime}.

(** Lines 115-118 read the version of the kept row as lines 107-111 did
    when that version is absent or prints without whitespace at its ends. *)
Lemma version_stable_trimmed r : version_trimmed r → version_stable r.
Proof.
  unfold version_trimmed, version_stable, stored_ver, ver_of, field, dict_get.
  destruct (dict_lookup r (lit "version")) as [v|].
  - by intros ->.
  - intros _. reflexivity.
Qed.

Lemma key_elem (best : list (pystr * dict)) k r : (k, r) ∈ best → k ∈ best.*1.
Proof. intros Hin. by apply (list_elem_of_fmap_2' fst best (k, r)). Qed.

Lemma best_lookup_None best k : best_lookup best k = None ↔ k ∉ best.*1.
Proof.
  induction best as [|[k' r] b IH]; simpl.
  - split; [intros _; apply not_elem_of_nil|done].
  - rewrite not_elem_of_cons. case_bool_decide as Hk.
    + split; [done|]. intros [Hne _]. by destruct Hne.
    + rewrite IH. split; [|by intros [_ ?]]. intros ?. split; [|done].
      intros ->. by apply Hk.
Qed.

Lemma best_lookup_Some best k r : best_lookup best k = Some r → (k, r) ∈ best.
Proof.
  induction best as [|[k' r'] b IH]; simpl; [done|].
  case_bool_decide.
  - intros [= ->]. subst. left.
  - intros ?. right. auto.
Qed.

Lemma best_lookup_elem best k r :
  NoDup best.*1 → (k, r) ∈ best → best_lookup best k = Some r.
Proof.
  induction best as [|[k' r'] b IH]; simpl.
  - intros _ ?%elem_of_nil. done.
  - intros [Hk Hnd]%NoDup_cons [[= -> ->]|Hin]%elem_of_cons.
    + by rewrite bool_decide_eq_true_2.
    + rewrite bool_decide_eq_false_2; [auto|].
      intros ->. apply Hk. by apply (key_elem b k r).
Qed.

Lemma best_assign_fresh best k row :
  k ∉ best.*1 → best_assign best k row = best ++ [(k, row)].
Proof.
  induction best as [|[k' r] b IH]; simpl; [done|].
  intros [Hne Hb]%not_elem_of_cons.
  rewrite bool_decide_eq_false_2 by done. by rewrite IH.
Qed.

Lemma best_assign_keys best k row :
  k ∈ best.*1 → (best_assign best k row).*1 = best.*1.
Proof.
  induction best as [|[k' r] b IH]; simpl.
  - intros ?%elem_of_nil. done.
  - intros Hin. case_bool_decide; [done|]. simpl. f_equal.
    apply IH. apply elem_of_cons in Hin as [->|]; done.
Qed.

Lemma best_assign_elem best k row k' r' :
  NoDup best.*1 → (k', r') ∈ best_assign best k row →
  (k' = k ∧ r' = row) ∨ (k' ≠ k ∧ (k', r') ∈ best).
Proof.
  induction best as [|[k0 r0] b IH]; simpl.
  - intros _ [[= -> ->]|?%elem_of_nil]%elem_of_cons; [by left|done].
  - intros [Hk Hnd]%NoDup_cons. case_bool_decide as Hk0.
    + subst k0. intros [[= -> ->]|Hin]%elem_of_cons; [by left|].
      right. split; [|by right].
      intros ->. apply Hk. by apply (key_elem b k r').
    + intros [[= -> ->]|Hin]%elem_of_cons.
      * right. split; [done|left].
      * destruct (IH Hnd Hin) as [?|[? ?]]; [by left|].
        right. split; [done|by right].
Qed.

Lemma first_max_snoc seen x r :
  first_max seen r →
  (doi_of x = doi_of r → (ver_of x ≤ ver_of r)%Z) →
  first_max (seen ++ [x]) r.
Proof.
  intros (pre & post & -> & Hpre & Hpost) Hx.
  exists pre, (post ++ [x]). split; [by rewrite <- app_assoc|].
  split; [done|]. apply Forall_app. split; [done|]. by constructor.
Qed.

Lemma first_max_new seen x :
  Forall (λ y, doi_of y = doi_of x → (ver_of y < ver_of x)%Z) seen →
  first_max (seen ++ [x]) x.
Proof. intros Hseen. exists seen, []. done. Qed.

Lemma first_max_bound seen r y :
  first_max seen r → y ∈ seen → doi_of y = doi_of r → (ver_of y ≤ ver_of r)%Z.
Proof.
  intros (pre & post & -> & Hpre & Hpost) Hin Hd.
  rewrite Forall_forall in Hpre. rewrite Forall_forall in Hpost.
  apply elem_of_app in Hin as [Hin|[->|Hin]%elem_of_cons].
  - specialize (Hpre _ Hin Hd). lia.
  - lia.
  - exact (Hpost _ Hin Hd).
Qed.

Lemma first_max_elem seen r : first_max seen r → r ∈ seen.
Proof.
  intros (pre & post & -> & _). apply elem_of_app. right. left.
Qed.

Lemma dedupe_step_inv seen best x :
  dedupe_inv seen best → dedupe_inv (seen ++ [x]) (dedupe_step best x).
Proof.
  intros (Hnd & Hbest & Hseen). unfold dedupe_step. fold (doi_of x).
  rewrite Forall_forall in Hbest. rewrite Forall_forall in Hseen.
  assert (Hold : ∀ k r, (k, r) ∈ best → (doi_of x = doi_of r → (ver_of x ≤ stored_ver r)%Z) →
            k ≠ [] ∧ doi_of r = k ∧ r ∈ seen ++ [x]
            ∧ (Forall version_stable (seen ++ [x]) → first_max (seen ++ [x]) r)).
  { intros k r Hin Hx. destruct (Hbest _ Hin) as (Hk & Hr & Hrs & Hfm). simpl in *.
    split; [done|]. split; [done|]. split; [apply elem_of_app; by left|].
    intros [Hst Hstx]%Forall_app. apply first_max_snoc; [by apply Hfm|].
    intros E. specialize (Hx E). rewrite Forall_forall in Hst.
    by rewrite <- (Hst r Hrs). }
  destruct (doi_of x) as [|c d] eqn:Hd; simpl negb; cbv iota.
  { (* no DOI: the row is skipped *)
    split; [done|]. split.
    - apply Forall_forall. intros [k r] Hin. apply (Hold k r); [done|].
      intros E. destruct (Hbest _ Hin) as (Hk & Hr & _). simpl in *. congruence.
    - apply Forall_app. split; [by apply Forall_forall|].
      constructor; [|done]. intros E. congruence. }
  fold (ver_of x). rewrite <- Hd. rewrite <- Hd in Hold.
  destruct (best_lookup best (doi_of x)) as [cur|] eqn:Hl.
  - (* the DOI has a row already *)
    pose proof (best_lookup_Some _ _ _ Hl) as Hcur.
    destruct (Hbest _ Hcur) as (_ & Hcd & Hcs & Hcfm). simpl in Hcd, Hcs, Hcfm.
    assert (Hkey : doi_of x ∈ best.*1).
    { by apply (key_elem best _ cur). }
    fold (stored_ver cur).
    destruct (Z.gtb_spec (ver_of x) (stored_ver cur)) as [Hgt|Hle].
    + split; [by rewrite best_assign_keys|]. split.
      * apply Forall_forall. intros [k r] Hin. simpl.
        destruct (best_assign_elem _ _ _ _ _ Hnd Hin) as [[-> ->]|[Hne Hin']].
        -- split; [by rewrite Hd|]. split; [done|].
           split; [apply elem_of_app; right; left|].
           intros [Hst _]%Forall_app.
           apply first_max_new, Forall_forall. intros y Hy Hyd.
           assert (ver_of y ≤ ver_of cur)%Z.
           { apply (first_max_bound seen); [by apply Hcfm|done|congruence]. }
           rewrite Forall_forall in Hst. specialize (Hst cur Hcs).
           unfold version_stable in Hst. lia.
        -- apply (Hold k r Hin'). intros E.
           destruct (Hbest _ Hin') as (_ & Hr & _). simpl in *. congruence.
      * rewrite best_assign_keys by done.
        apply Forall_app. split; [by apply Forall_forall|]. by constructor.
    + split; [done|]. split.
      * apply Forall_forall. intros [k r] Hin. apply (Hold k r); [done|].
        intros E. assert (r = cur) as ->; [|done].
        destruct (Hbest _ Hin) as (_ & Hr & _). simpl in Hr.
        rewrite <- Hr, <- E in Hin.
        pose proof (best_lookup_elem _ _ _ Hnd Hin). congruence.
      * apply Forall_app. split; [by apply Forall_forall|]. by constructor.
  - (* a new DOI *)
    apply best_lookup_None in Hl.
    rewrite best_assign_fresh by done. split; [|split].
    + rewrite fmap_app. apply NoDup_app. split; [done|]. split.
      * intros k Hk [->|?%elem_of_nil]%elem_of_cons; done.
      * apply NoDup_singleton.
    + apply Forall_app. split.
      * apply Forall_forall. intros [k r] Hin. apply (Hold k r); [done|].
        intros E. exfalso. apply Hl.
        destruct (Hbest _ Hin) as (_ & Hr & _). simpl in Hr. rewrite E, Hr.
        by apply (key_elem best k r).
      * constructor; [|done]. simpl. split; [by rewrite Hd|]. split; [done|].
        split; [apply elem_of_app; right; left|]. intros _.
        apply first_max_new, Forall_forall. intros y Hy Hyd.
        exfalso. apply Hl. rewrite <- Hyd. apply Hseen; [done|].
        rewrite Hyd, Hd. done.
    + rewrite fmap_app. apply Forall_app. split.
      * apply Forall_forall. intros y Hy Hyd. apply elem_of_app. left. auto.
      * constructor; [|done]. intros _. apply elem_of_app. right. left.
Qed.

Lemma dedupe_loop_inv rows seen best :
  dedupe_inv seen best → dedupe_inv (seen ++ rows) (foldl dedupe_step best rows).
Proof.
  revert seen best. induction rows as [|x rows IH]; intros seen best Hinv.
  - by rewrite app_nil_r.
  - simpl. rewrite cons_middle, app_assoc. by apply IH, dedupe_step_inv.
Qed.

Lemma dedupe_inv_final rows :
  dedupe_inv rows (foldl dedupe_step [] rows).
Proof.
  apply (dedupe_loop_inv rows [] []).
  split; [constructor|]. split; constructor.
Qed.

Lemma keyed_by_doi (best : list (pystr * dict)) :
  Forall (λ kr, doi_of kr.2 = kr.1) best → doi_of <$> best.*2 = best.*1.
Proof.
  induction 1 as [|[k r] b Hr _ IH]; [done|].
  rewrite !fmap_cons, IH. simpl in *. by rewrite Hr.
Qed.

Lemma dedupe_dois rows :
  doi_of <$> dedupe_keep_latest_version rows = (foldl dedupe_step [] rows).*1.
Proof.
  unfold dedupe_keep_latest_version.
  destruct (dedupe_inv_final rows) as (_ & Hbest & _).
  apply keyed_by_doi. eapply Forall_impl; [exact Hbest|]. by intros ? (_ & ? & _).
Qed.

(** Every kept row is an input row with a non-empty DOI. *)
Lemma dedupe_kept rows :
  Forall (λ r, doi_of r ≠ [] ∧ r ∈ rows) (dedupe_keep_latest_version rows).
Proof.
  destruct (dedupe_inv_final rows) as (_ & Hbest & _).
  unfold dedupe_keep_latest_version. apply Forall_fmap.
  eapply Forall_impl; [exact Hbest|].
  intros [k r] (Hk & Hr & Hin & _). simpl in *.
  split; [congruence|done].
Qed.

(** X26: the rows kept have pairwise distinct DOIs; every kept row has a
    non-empty DOI and occurs in the input; every non-empty DOI of the input
    is the DOI of a kept row.  When every row's version reads the same
    trimmed and untrimmed, as it does when it is absent or prints without
    whitespace at its ends, every kept row has the greatest version among
    the input rows with its DOI (a version that does not parse counting
    as -1) and is the first of them with that version. *)
Theorem dedupe_first_max_when_stable (rows : list dict) :
  let out := dedupe_keep_latest_version rows in
  NoDup (doi_of <$> out)
  ∧ Forall (λ r, doi_of r ≠ [] ∧ r ∈ rows) out
  ∧ Forall (λ x, doi_of x ≠ [] → doi_of x ∈ doi_of <$> out) rows
  ∧ (Forall version_stable rows → Forall (first_max rows) out)
  ∧ (Forall version_trimmed rows → Forall version_stable rows).
Proof.
  intros out. unfold out. rewrite dedupe_dois.
  destruct (dedupe_inv_final rows) as (Hnd & Hbest & Hseen).
  split; [done|]. split; [apply dedupe_kept|]. split; [done|]. split.
  - intros Hst. unfold dedupe_keep_latest_version. apply Forall_fmap.
    eapply Forall_impl; [exact Hbest|].
    intros [k r] (_ & _ & _ & Hfm). simpl in *. by apply Hfm.
  - intros Htr. eapply Forall_impl; [exact Htr|]. intros r. apply version_stable_trimmed.
Qed.

Lemma first_max_by_second ver a b :
  a ≠ b → doi_of a = doi_of b → first_max_by ver [a; b] b → (ver a < ver b)%Z.
Proof.
  intros Hne Hd (pre & post & E & Hpre & _).
  destruct pre as [|y [|z pre]].
  - injection E as E _. done.
  - injection E as -> _. apply Forall_inv in Hpre. by apply Hpre.
  - injection E as _ _ E. by destruct pre.
Qed.

(** C2: two records with the same DOI, one with the version ["5"]
    followed by the separator U+001C, one with the version ["3"].  The loop
    reads the first as 5 when it meets it (the text is trimmed) and as -1
    once it is the kept one (the stored text is not trimmed, and [int] does
    not skip that character), so of the two it keeps whichever comes
    second.  However versions are numbered, the record kept cannot be the
    one of greatest version, first on a tie, in both orders. *)
Theorem dedupe_rereads_untrimmed_version :
  ver_of padded_version_row = 5%Z ∧ stored_ver padded_version_row = (-1)%Z
  ∧ ver_of plain_version_row = 3%Z ∧ stored_ver plain_version_row = 3%Z
  ∧ dedupe_keep_latest_version [padded_version_row; plain_version_row]
    = [plain_version_row]
  ∧ dedupe_keep_latest_version [plain_version_row; padded_version_row]
    = [padded_version_row]
  ∧ ∀ ver : dict → Z,
      ¬ (Forall (first_max_by ver [padded_version_row; plain_version_row])
           (dedupe_keep_latest_version [padded_version_row; plain_version_row])
         ∧ Forall (first_max_by ver [plain_version_row; padded_version_row])
             (dedupe_keep_latest_version [plain_version_row; padded_version_row])).
Proof.
  assert (E1 : dedupe_keep_latest_version [padded_version_row; plain_version_row]
               = [plain_version_row]) by (vm_compute; reflexivity).
  assert (E2 : dedupe_keep_latest_version [plain_version_row; padded_version_row]
               = [padded_version_row]) by (vm_compute; reflexivity).
  do 4 (split; [vm_compute; reflexivity|]).
  split; [exact E1|]. split; [exact E2|].
  intros ver [H1 H2]. rewrite E1 in H1. rewrite E2 in H2.
  apply Forall_inv in H1. apply Forall_inv in H2.
  apply first_max_by_second in H1; [|by vm_compute|reflexivity].
  apply first_max_by_second in H2; [|by vm_compute|reflexivity].
  lia.
Qed.

End DedupeFacts.

(** ** Order of strings *)

Section OrderFacts.

Lemma str_ltb_irrefl a : str_ltb a a = false.
Proof.
  induction a as [|x a IH]; [done|]. simpl.
  by rewrite N.ltb_irrefl, N.eqb_refl, IH.
Qed.

Lemma str_ltb_asym a b : str_ltb a b = true → str_ltb b a = false.
Proof.
  revert b. induction a as [|x a IH]; intros [|y b]; simpl; try done.
  intros [Hlt|[Heq Hab]%andb_prop]%orb_prop.
  - apply N.ltb_lt in Hlt.
    destruct (N.ltb_spec y x); [lia|]. destruct (N.eqb_spec y x); [lia|done].
  - apply N.eqb_eq in Heq as ->.
    by rewrite N.ltb_irrefl, N.eqb_refl, (IH _ Hab).
Qed.

(** If [a < c] then every [b] is above [a] or below [c]. *)
Lemma str_ltb_between a b c :
  str_ltb a c = true → str_ltb a b = true ∨ str_ltb b c = true.
Proof.
  revert b c. induction a as [|x a IH]; intros [|y b] [|z c]; simpl; auto.
  intros Hac.
  destruct (N.ltb_spec x y); [by left|].
  destruct (N.ltb_spec y z); [by right|]. simpl.
  destruct (N.ltb_spec x z); [lia|]. simpl in Hac.
  apply andb_prop in Hac as [->%N.eqb_eq Hac].
  assert (y = z) as -> by lia. rewrite N.eqb_refl. simpl. by apply IH.
Qed.

Lemma str_leb_refl a : str_leb a a = true.
Proof. unfold str_leb. by rewrite str_ltb_irrefl. Qed.

Lemma str_leb_trans a b c :
  str_leb a b = true → str_leb b c = true → str_leb a c = true.
Proof.
  unfold str_leb. rewrite !negb_true_iff. intros Hba Hcb.
  destruct (str_ltb c a) eqn:Hca; [|done].
  destruct (str_ltb_between c b a Hca); congruence.
Qed.

Lemma str_leb_total a b : str_leb a b = true ∨ str_leb b a = true.
Proof.
  unfold str_leb. destruct (str_ltb b a) eqn:E; [|by left].
  right. by rewrite (str_ltb_asym _ _ E).
Qed.

End OrderFacts.

(** ** Sorting and numbering *)

Section SortFacts.
Context `{!PyRuntime}.

Lemma insert_desc_perm x rows : insert_desc x rows ≡ₚ x :: rows.
Proof.
  induction rows as [|y r IH]; [done|]. simpl.
  destruct (str_ltb (date_key x) (date_key y)); [|done].
  rewrite IH. apply Permutation_swap.
Qed.

Lemma sort_by_date_desc_perm rows : sort_by_date_desc rows ≡ₚ rows.
Proof.
  induction rows as [|x r IH]; [done|]. simpl.
  by rewrite insert_desc_perm, IH.
Qed.

Lemma insert_desc_sorted x rows :
  StronglySorted rows_desc rows → StronglySorted rows_desc (insert_desc x rows).
Proof.
  induction 1 as [|y r Hr IH Hy]; simpl.
  - repeat constructor.
  - destruct (str_ltb (date_key x) (date_key y)) eqn:E.
    + constructor; [done|]. rewrite insert_desc_perm. constructor; [|done].
      unfold rows_desc, str_leb. by rewrite (str_ltb_asym _ _ E).
    + assert (Hxy : rows_desc x y) by (unfold rows_desc, str_leb; by rewrite E).
      constructor; [by constructor|]. constructor; [done|].
      eapply Forall_impl; [exact Hy|]. intros z Hz.
      unfold rows_desc in *. by apply (str_leb_trans _ (date_key y)).
Qed.

Lemma sort_by_date_desc_sorted rows : StronglySorted rows_desc (sort_by_date_desc rows).
Proof.
  induction rows as [|x r IH]; simpl; [constructor|]. by apply insert_desc_sorted.
Qed.

Lemma StronglySorted_imap {A B} (R1 : relation A) (R2 : relation B)
    (f : nat → A → B) (l : list A) :
  (∀ i j x y, R1 x y → R2 (f i x) (f j y)) →
  StronglySorted R1 l → StronglySorted R2 (imap f l).
Proof.
  intros Hf Hl. revert f Hf. induction Hl as [|x l Hl IH Hx]; intros f Hf.
  - constructor.
  - rewrite imap_cons. constructor; [apply IH; intros; by apply Hf|].
    apply Forall_forall. intros y (i & z & -> & Hz)%elem_of_lookup_imap_1.
    apply Hf. rewrite Forall_forall in Hx. apply Hx.
    by eapply list_elem_of_lookup_2.
Qed.

Lemma uint_codes_inj d d' : uint_codes d = uint_codes d' → d = d'.
Proof.
  revert d'. induction d; intros []; simpl; intros [=]; f_equal; auto.
Qed.

Lemma dec_inj n m : dec n = dec m → n = m.
Proof. intros ?%uint_codes_inj. by apply Unsigned.to_uint_inj. Qed.

Lemma dec_normal n : unorm (N.to_uint n) = N.to_uint n.
Proof. by rewrite <- Unsigned.to_of, Unsigned.of_to. Qed.

Lemma dec_nonempty n : dec n ≠ [].
Proof.
  unfold dec. pose proof (dec_normal n) as Hn.
  destruct (N.to_uint n); try done.
Qed.

(** A number of two digits or more does not start with a zero. *)
Lemma dec_no_leading_zero n c : dec n ≠ [48%N; c].
Proof.
  unfold dec. pose proof (dec_normal n) as Hn. intros E.
  destruct (N.to_uint n) as [|d| | | | | | | | |]; try done.
  simpl in E. injection E as E.
  destruct d as [|d|d|d|d|d|d|d|d|d|d]; try done;
    simpl in E; injection E as _ E; destruct d; try done.
Qed.

Lemma fmt02_inj n m : fmt02 n = fmt02 m → n = m.
Proof.
  unfold fmt02. intros E.
  pose proof (dec_nonempty n) as Hn. pose proof (dec_nonempty m) as Hm.
  pose proof (dec_no_leading_zero n) as Zn. pose proof (dec_no_leading_zero m) as Zm.
  apply dec_inj.
  destruct (dec n) as [|a [|a' sn]], (dec m) as [|b [|b' sm]];
    simpl in E; try done; try congruence.
Qed.

Lemma papers_lookup rows i :
  papers_of_rows rows !! i
  = make_paper (S i) <$> sort_by_date_desc (dedupe_keep_latest_version rows) !! i.
Proof.
  unfold papers_of_rows.
  by rewrite (list_lookup_imap (λ i r, make_paper (S i) r)).
Qed.

Lemma pids_distinct rows : NoDup (pid <$> papers_of_rows rows).
Proof.
  apply NoDup_alt. intros i j x.
  rewrite !list_lookup_fmap, !papers_lookup.
  destruct (_ !! i) as [ri|]; [|done]. destruct (_ !! j) as [rj|]; [|done].
  simpl. intros [= <-] [= E]. apply fmt02_inj in E. lia.
Qed.

End SortFacts.

(** ** The papers the fetcher emits *)

Section PapersFacts.
Context `{!PyRuntime}.

Lemma papers_dates rows :
  Forall (λ r, strip (date_key r) = date_key r) rows →
  ∀ i j x y, rows_desc x y → x ∈ rows → y ∈ rows →
    papers_desc (make_paper i x) (make_paper j y).
Proof.
  intros Hclean i j x y Hxy Hx Hy. rewrite Forall_forall in Hclean.
  unfold papers_desc, rows_desc in *. simpl. unfold field.
  fold (date_key x) (date_key y). by rewrite !Hclean.
Qed.

Lemma StronglySorted_elem {A} (R R' : relation A) (l : list A) :
  (∀ x y, x ∈ l → y ∈ l → R x y → R' x y) →
  StronglySorted R l → StronglySorted R' l.
Proof.
  intros HR Hl. induction Hl as [|x l Hl IH Hx]; [constructor|].
  constructor.
  - apply IH. intros y z Hy Hz. apply HR; by right.
  - rewrite Forall_forall in Hx. apply Forall_forall. intros y Hy.
    apply HR; [left|by right|auto].
Qed.

(** X25: the papers follow the deduplicated rows in descending order of the
    sort key [str(r.get("date", ""))], the date text as it is; their
    identifiers are P01, P02, ... in that order, pairwise distinct; and when
    no row's date text has whitespace at its ends, the dates of the papers
    are in descending order too. *)
Theorem papers_sorted_and_numbered (rows : list dict) :
  let sorted := sort_by_date_desc (dedupe_keep_latest_version rows) in
  let papers := papers_of_rows rows in
  sorted ≡ₚ dedupe_keep_latest_version rows
  ∧ StronglySorted rows_desc sorted
  ∧ length papers = length sorted
  ∧ (∀ i, papers !! i = make_paper (S i) <$> sorted !! i)
  ∧ (∀ i p, papers !! i = Some p → pid p = lit "P" ++ fmt02 (N.of_nat (S i)))
  ∧ NoDup (pid <$> papers)
  ∧ (Forall (λ r, strip (date_key r) = date_key r) rows →
       StronglySorted papers_desc papers).
Proof.
  intros sorted papers.
  split; [apply sort_by_date_desc_perm|].
  split; [apply sort_by_date_desc_sorted|].
  split; [apply length_imap|].
  split; [apply papers_lookup|].
  split; [|split; [apply pids_distinct|]].
  - intros i p. unfold papers. rewrite papers_lookup.
    destruct (_ !! i); [|done]. by intros [= <-].
  - intros Hclean. unfold papers, papers_of_rows. fold sorted.
    assert (Hsub : ∀ x, x ∈ sorted → x ∈ rows).
    { intros x Hx. unfold sorted in Hx. rewrite sort_by_date_desc_perm in Hx.
      pose proof (dedupe_kept rows) as Hout.
      rewrite Forall_forall in Hout. by apply Hout. }
    apply (StronglySorted_imap (λ x y, x ∈ rows ∧ y ∈ rows ∧ rows_desc x y)).
    + intros i j x y (Hx & Hy & Hxy). by apply (papers_dates rows).
    + apply (StronglySorted_elem rows_desc); [|apply sort_by_date_desc_sorted].
      intros x y Hx Hy Hxy. auto.
Qed.

(** C4: two records with distinct DOIs, the first dated [" 2024-01-02"],
    with a space in front, the second ["2024-01-01"].  The sort compares
    the date texts as they are, and a space sorts before every digit, so
    the second record comes first; the papers carry the trimmed dates, so
    P01 is dated 2024-01-01 and P02 is dated 2024-01-02: the sequence
    emitted is not in descending order of date. *)
Theorem papers_order_ignores_trimming :
  date_key <$> sort_by_date_desc (dedupe_keep_latest_version padded_rows)
  = [lit "2024-01-01"; lit " 2024-01-02"]
  ∧ (λ p, (pid p, date p)) <$> papers_of_rows padded_rows
    = [(lit "P01", lit "2024-01-01"); (lit "P02", lit "2024-01-02")]
  ∧ ¬ Sorted papers_desc (papers_of_rows padded_rows).
Proof.
  split; [vm_compute; reflexivity|]. split; [vm_compute; reflexivity|].
  intros Hs. apply Sorted_inv in Hs as [_ Hhd].
  apply HdRel_inv in Hhd. vm_compute in Hhd. discriminate.
Qed.

Lemma blank_doi_empty x : blank_doi x = true → doi_of x = [].
Proof.
  unfold blank_doi, doi_of, field, dict_get.
  destruct (dict_lookup x (lit "doi")) as [[]|]; try done.
  intros Hs. simpl. unfold strip. by rewrite lstrip_all_space.
Qed.

Lemma papers_of_rows_doi rows :
  Forall (λ p, doi p ≠ [] ∧ biorxiv_url p ≠ []) (papers_of_rows rows).
Proof.
  apply Forall_forall. intros p (i & r & -> & Hr)%elem_of_lookup_imap_1.
  apply list_elem_of_lookup_2 in Hr. rewrite sort_by_date_desc_perm in Hr.
  pose proof (dedupe_kept rows) as Hout.
  rewrite Forall_forall in Hout. destruct (Hout _ Hr) as (Hd & _).
  unfold biorxiv_url. simpl. fold (doi_of r).
  split; [done|]. destruct (doi_of r); [done|]. simpl.
  by destruct (field r "version").
Qed.

Lemma load_recent_papers_rows fuel api papers :
  load_recent_papers fuel api = Some (Ok papers) →
  ∃ rows, papers = papers_of_rows rows.
Proof.
  unfold load_recent_papers.
  destruct (fetch_pages fuel api fetch_init) as [[tr [st|e]]|]; simpl; try done.
  destruct (as_dicts (all_rows st)) as [rows|e]; simpl; [|done].
  intros [= <-]. by exists rows.
Qed.

(** C10: a row whose [doi] field is absent, empty or all whitespace is not
    among the rows deduplication keeps; every paper built from the rows,
    and so every paper the fetcher returns, has a non-empty DOI, and with
    it a non-empty display URL. *)
Theorem blank_doi_rows_dropped (rows : list dict) :
  (∀ x, blank_doi x = true → x ∉ dedupe_keep_latest_version rows)
  ∧ Forall (λ r, doi_of r ≠ []) (dedupe_keep_latest_version rows)
  ∧ Forall (λ p, doi p ≠ [] ∧ biorxiv_url p ≠ []) (papers_of_rows rows)
  ∧ (∀ fuel api papers, load_recent_papers fuel api = Some (Ok papers) →
       Forall (λ p, doi p ≠ [] ∧ biorxiv_url p ≠ []) papers).
Proof.
  assert (Hne : Forall (λ r, doi_of r ≠ []) (dedupe_keep_latest_version rows)).
  { eapply Forall_impl; [apply dedupe_kept|]. by intros r (? & _). }
  split; [|split; [done|split; [apply papers_of_rows_doi|]]].
  - intros x Hx Hin. rewrite Forall_forall in Hne.
    by apply (Hne _ Hin), blank_doi_empty.
  - intros fuel api papers (rs & ->)%load_recent_papers_rows.
    apply papers_of_rows_doi.
Qed.

End PapersFacts.

(** ** Extraction of the JSON object *)

Section ExtractFacts.
Context `{!PyRuntime}.

Lemma from_first_head c s t : from_first c s = Some t → ∃ r, t = c :: r.
Proof.
  induction s as [|x s IH]; simpl; [done|].
  destruct (N.eqb_spec x c) as [->|]; [|done]. intros [= <-]. by exists s.
Qed.

Lemma from_first_app_some c s t b :
  from_first c s = Some t → from_first c (s ++ b) = Some (t ++ b).
Proof.
  induction s as [|x s IH]; simpl; [done|].
  destruct (x =? c)%N; [|done]. by intros [= <-].
Qed.

Lemma from_first_app_none c s b :
  from_first c s = None → from_first c (s ++ b) = from_first c b.
Proof.
  induction s as [|x s IH]; simpl; [done|]. by destruct (x =? c)%N.
Qed.

Lemma upto_last_app_none c r b :
  upto_last c b = None → upto_last c (r ++ b) = upto_last c r.
Proof.
  intros Hb. induction r as [|x r IH]; simpl; [done|]. by rewrite IH.
Qed.

Lemma upto_last_snoc c t : upto_last c (t ++ [c]) = Some (t ++ [c]).
Proof.
  induction t as [|x t IH]; simpl; [by rewrite N.eqb_refl|]. by rewrite IH.
Qed.

Lemma brace_free_from_first s : brace_free s = true → from_first 123 s = None.
Proof.
  induction s as [|x s IH]; simpl; [done|].
  intros [[Hx _]%andb_prop Hs]%andb_prop.
  apply negb_true_iff in Hx. rewrite Hx. auto.
Qed.

Lemma brace_free_upto_last s : brace_free s = true → upto_last 125 s = None.
Proof.
  induction s as [|x s IH]; simpl; [done|].
  intros [[_ Hx]%andb_prop Hs]%andb_prop.
  apply negb_true_iff in Hx. by rewrite IH, Hx.
Qed.

Lemma brace_free_app a b :
  brace_free a = true → brace_free b = true → brace_free (a ++ b) = true.
Proof. intros Ha Hb. unfold brace_free. rewrite forallb_app. by apply andb_true_intro. Qed.

Lemma brace_span_app_l a s : brace_free a = true → brace_span (a ++ s) = brace_span s.
Proof.
  intros Ha. unfold brace_span.
  by rewrite from_first_app_none by by apply brace_free_from_first.
Qed.

Lemma brace_span_app_r s b : brace_free b = true → brace_span (s ++ b) = brace_span s.
Proof.
  intros Hb. unfold brace_span.
  destruct (from_first 123 s) as [t|] eqn:Hs.
  - rewrite (from_first_app_some _ _ _ b Hs).
    destruct (from_first_head _ _ _ Hs) as [r ->]. simpl.
    by rewrite upto_last_app_none by by apply brace_free_upto_last.
  - rewrite from_first_app_none by done. by rewrite brace_free_from_first.
Qed.

Lemma space_brace_free ws : forallb is_space ws = true → brace_free ws = true.
Proof.
  induction ws as [|c ws IH]; simpl; [done|].
  intros [Hc Hws]%andb_prop. rewrite IH by done.
  destruct (N.eqb_spec c 123) as [->|]; [done|].
  destruct (N.eqb_spec c 125) as [->|]; done.
Qed.

Lemma lstrip_decomp s : ∃ ws, s = ws ++ lstrip s ∧ forallb is_space ws = true.
Proof.
  induction s as [|c s (ws & Hs & Hws)]; [by exists []|].
  destruct (is_space c) eqn:Hc.
  - rewrite lstrip_cons_space by done. exists (c :: ws). simpl.
    rewrite Hc, Hws. split; [by f_equal|done].
  - rewrite lstrip_cons_nonspace by done. by exists [].
Qed.

Lemma rstrip_decomp s : ∃ ws, s = rstrip s ++ ws ∧ forallb is_space ws = true.
Proof.
  induction s as [|c s (ws & Hs & Hws)]; [by exists []|].
  rewrite rstrip_cons. destruct (rstrip s) as [|d r].
  - destruct (is_space c) eqn:Hc.
    + exists (c :: ws). simpl in *. rewrite Hc, Hws. split; [by f_equal|done].
    + exists ws. simpl in *. split; [by f_equal|done].
  - exists ws. split; [|done]. simpl. by f_equal.
Qed.

Lemma brace_span_lstrip s : brace_span (lstrip s) = brace_span s.
Proof.
  destruct (lstrip_decomp s) as (ws & Hs & Hws). rewrite Hs at 2.
  by rewrite brace_span_app_l by by apply space_brace_free.
Qed.

Lemma brace_span_rstrip s : brace_span (rstrip s) = brace_span s.
Proof.
  destruct (rstrip_decomp s) as (ws & Hs & Hws). rewrite Hs at 2.
  by rewrite brace_span_app_r by by apply space_brace_free.
Qed.

Lemma brace_span_strip s : brace_span (strip s) = brace_span s.
Proof. unfold strip. by rewrite brace_span_rstrip, brace_span_lstrip. Qed.

Lemma endswith_suffix p s : endswith p s = true → ∃ t, s = t ++ p.
Proof.
  unfold endswith. intros [t Ht]%startswith_prefix. exists (rev t).
  by rewrite <- (rev_involutive s), Ht, rev_app_distr, !rev_involutive.
Qed.

Lemma endswith_app t p : endswith p (t ++ p) = true.
Proof. unfold endswith. rewrite rev_app_distr. apply startswith_app. Qed.

Lemma brace_span_sub_leading c : brace_span (sub_leading_fence c) = brace_span c.
Proof.
  unfold sub_leading_fence.
  destruct (startswith FENCE c) eqn:Hf; [|done].
  apply startswith_prefix in Hf as [r ->].
  change (drop 3 (FENCE ++ r)) with r.
  rewrite brace_span_lstrip, (brace_span_app_l FENCE) by done.
  destruct (startswith (lit "json") r) eqn:Hj; [|done].
  apply startswith_prefix in Hj as [r' ->].
  change (drop 4 (lit "json" ++ r')) with r'.
  by rewrite (brace_span_app_l (lit "json")).
Qed.

Lemma take_before_suffix (y p : pystr) n :
  n = length p → take (length (y ++ p) - n) (y ++ p) = y.
Proof. intros ->. apply take_app_length'. rewrite length_app. lia. Qed.

Lemma brace_span_sub_trailing c : brace_span (sub_trailing_fence c) = brace_span c.
Proof.
  unfold sub_trailing_fence.
  destruct (endswith FENCE c) eqn:Hf.
  { apply endswith_suffix in Hf as [y ->].
    rewrite (take_before_suffix y FENCE 3), brace_span_rstrip by done.
    by rewrite brace_span_app_r. }
  destruct (endswith (FENCE ++ [10%N]) c) eqn:Hn; [|done].
  apply endswith_suffix in Hn as [y ->].
  rewrite (take_before_suffix y (FENCE ++ [10%N]) 4) by done.
  by rewrite !brace_span_app_r, brace_span_rstrip.
Qed.

(** A text that starts with an opening and ends with a closing brace is its
    own brace span. *)
Lemma brace_span_whole c :
  startswith [123%N] c = true → endswith [125%N] c = true → brace_span c = Some c.
Proof.
  intros [r ->]%startswith_prefix [t Ht]%endswith_suffix.
  unfold brace_span. simpl.
  destruct t as [|x t]; [done|]. simpl in Ht. injection Ht as <- ->.
  by rewrite upto_last_snoc.
Qed.

(** [extract_json] hands to the parser the text from the first opening
    brace to the last closing brace after it, and fails when there is none. *)
Lemma extract_json_span text :
  extract_json text =
    match brace_span text with
    | Some m => json_loads m
    | None => Raise ValueError
    end.
Proof.
  unfold extract_json.
  rewrite <- (brace_span_strip text), <- (brace_span_sub_leading (strip text)),
    <- (brace_span_sub_trailing (sub_leading_fence (strip text))).
  set (cleaned := sub_trailing_fence _).
  destruct (startswith [123%N] cleaned) eqn:Hs; [|done].
  destruct (endswith [125%N] cleaned) eqn:He; [|done].
  by rewrite brace_span_whole.
Qed.

Lemma extract_json_wrapped pre post s :
  brace_free pre = true → brace_free post = true →
  extract_json (pre ++ s ++ post) = extract_json s.
Proof.
  intros Hpre Hpost. by rewrite !extract_json_span, brace_span_app_l, brace_span_app_r.
Qed.

Lemma brace_span_Some s m :
  brace_span s = Some m → ∃ a x b, s = a ++ [123%N] ++ x ++ [125%N] ++ b.
Proof.
  unfold brace_span. destruct (from_first 123 s) as [[|c r]|] eqn:Hf; try done.
  destruct (upto_last 125 r) as [u|] eqn:Hu; [|done]. intros _.
  assert (Hpre : ∀ s t, from_first 123 s = Some t → ∃ a, s = a ++ t).
  { clear. induction s as [|x s IH]; simpl; [done|]. intros t.
    destruct (x =? 123)%N.
    - intros [= <-]. by exists [].
    - intros [a ->]%IH. by exists (x :: a). }
  assert (Hsuf : ∀ r u, upto_last 125 r = Some u → ∃ x b, r = x ++ [125%N] ++ b).
  { clear. induction r as [|y r IH]; simpl; [done|]. intros u.
    destruct (upto_last 125 r) as [t|].
    - intros _. destruct (IH t eq_refl) as (x & b & ->). by exists (y :: x), b.
    - destruct (N.eqb_spec y 125) as [->|]; [|done]. intros _. by exists [], r. }
  destruct (Hpre _ _ Hf) as [a ->].
  destruct (from_first_head _ _ _ Hf) as [r' [= -> <-]].
  destruct (Hsuf _ _ Hu) as (x & b & ->). by exists a, x, b.
Qed.

Lemma digest_extract_error w for_ai text e :
  extract_json text = Raise e → digest w for_ai text = Raise e.
Proof. intros He. unfold digest. by rewrite He. Qed.

(** Nothing between the response and the end of [main] catches an error
    of the extraction. *)
Lemma main_extract_error fuel w interests max_for_ai p papers text e :
  settings (environ w) = Ok (interests, max_for_ai) →
  load_recent_papers fuel (catalog w) = Some (Ok (p :: papers)) →
  gemini w (build_ai_prompt interests (papers_for_ai max_for_ai (p :: papers))
              (today_topic w)) = Ok text →
  extract_json text = Raise e →
  main fuel w = Some (Raise e).
Proof.
  intros Hs Hl Hg He. unfold main. rewrite Hs, Hl, Hg. cbn [bind].
  by rewrite (digest_extract_error _ _ _ _ He).
Qed.

(** C5: a response wrapped in a code fence, tagged [json] or not, yields
    what the bare response yields; a brace-delimited span after prose
    without an opening brace is found and handed to the parser; a response
    without an opening brace followed by a closing brace fails with
    [ValueError]; and a failure of the extraction is the failure of the
    run. *)
Theorem extract_json_tolerant :
  (∀ s, extract_json (FENCE ++ lit "json" ++ [10%N] ++ s ++ [10%N] ++ FENCE)
        = extract_json s)
  ∧ (∀ s, extract_json (FENCE ++ [10%N] ++ s ++ [10%N] ++ FENCE) = extract_json s)
  ∧ (∀ s, startswith [123%N] (strip s) = true → endswith [125%N] (strip s) = true →
        extract_json s = json_loads (strip s))
  ∧ (∀ p b, from_first 123 p = None →
        startswith [123%N] b = true → endswith [125%N] b = true →
        extract_json (p ++ b) = json_loads b)
  ∧ (∀ s, (¬ ∃ a x b, s = a ++ [123%N] ++ x ++ [125%N] ++ b) →
        extract_json s = Raise ValueError)
  ∧ (∀ w for_ai s e, extract_json s = Raise e → digest w for_ai s = Raise e)
  ∧ (∀ fuel w interests max_for_ai p papers s e,
        settings (environ w) = Ok (interests, max_for_ai) →
        load_recent_papers fuel (catalog w) = Some (Ok (p :: papers)) →
        gemini w (build_ai_prompt interests (papers_for_ai max_for_ai (p :: papers))
                    (today_topic w)) = Ok s →
        extract_json s = Raise e →
        main fuel w = Some (Raise e)).
Proof.
  split; [|split; [|split; [|split; [|split; [|split]]]]].
  - intros s.
    change (FENCE ++ lit "json" ++ [10%N] ++ s ++ [10%N] ++ FENCE)
      with ((FENCE ++ lit "json" ++ [10%N]) ++ s ++ ([10%N] ++ FENCE)).
    by apply extract_json_wrapped.
  - intros s.
    change (FENCE ++ [10%N] ++ s ++ [10%N] ++ FENCE)
      with ((FENCE ++ [10%N]) ++ s ++ ([10%N] ++ FENCE)).
    by apply extract_json_wrapped.
  - intros s Hs He.
    by rewrite extract_json_span, <- brace_span_strip, brace_span_whole.
  - intros p b Hp Hs He. rewrite extract_json_span.
    unfold brace_span at 1. rewrite from_first_app_none by done.
    fold (brace_span b). by rewrite brace_span_whole.
  - intros s Hs. rewrite extract_json_span.
    destruct (brace_span s) as [m|] eqn:Hm; [|done].
    destruct Hs. by eapply brace_span_Some.
  - apply digest_extract_error.
  - apply main_extract_error.
Qed.

End ExtractFacts.

(** ** Escaping in the rendered document *)

Section EscapeFacts.
Context `{!PyRuntime}.

Lemma replace_char_app c rep a b :
  replace_char c rep (a ++ b) = replace_char c rep a ++ replace_char c rep b.
Proof. induction a as [|x a IH]; simpl; [done|]. by rewrite IH, <- app_assoc. Qed.

Lemma html_escape_app a b : html_escape (a ++ b) = html_escape a ++ html_escape b.
Proof. unfold html_escape. by rewrite !replace_char_app. Qed.

Lemma html_escape_one c : html_escape [c] = esc_char c.
Proof.
  unfold esc_char.
  destruct (N.eqb_spec c 38) as [->|H38]; [done|].
  destruct (N.eqb_spec c 60) as [->|H60]; [done|].
  destruct (N.eqb_spec c 62) as [->|H62]; [done|].
  destruct (N.eqb_spec c 34) as [->|H34]; [done|].
  destruct (N.eqb_spec c 39) as [->|H39]; [done|].
  unfold html_escape. simpl.
  apply N.eqb_neq in H38, H60, H62, H34, H39.
  rewrite H38. simpl. rewrite H60. simpl. rewrite H62. simpl.
  rewrite H34. simpl. by rewrite H39.
Qed.

(** [html.escape] works character by character. *)
Lemma html_escape_chars s : html_escape s = s ≫= esc_char.
Proof.
  induction s as [|c s IH]; [done|].
  change (c :: s) with ([c] ++ s).
  by rewrite html_escape_app, html_escape_one, IH.
Qed.

Lemma markup_app a b : markup (a ++ b) = markup a ++ markup b.
Proof. apply List.filter_app. Qed.

Lemma markup_esc_char c : markup (esc_char c) = [].
Proof.
  unfold esc_char.
  destruct (N.eqb_spec c 38); [done|]. destruct (N.eqb_spec c 60); [done|].
  destruct (N.eqb_spec c 62); [done|]. destruct (N.eqb_spec c 34); [done|].
  destruct (N.eqb_spec c 39); [done|].
  unfold markup, is_markup. simpl.
  destruct (N.eqb_spec c 60); [done|]. destruct (N.eqb_spec c 62); [done|].
  destruct (N.eqb_spec c 34); [done|]. by destruct (N.eqb_spec c 39).
Qed.

(** Escaped text has no markup character. *)
Lemma markup_escape s : markup (html_escape s) = [].
Proof.
  rewrite html_escape_chars. induction s as [|c s IH]; [done|].
  change ((c :: s) ≫= esc_char) with (esc_char c ++ (s ≫= esc_char)).
  by rewrite markup_app, markup_esc_char, IH.
Qed.

Lemma markup_space ws : forallb is_space ws = true → markup ws = [].
Proof.
  induction ws as [|c ws IH]; [done|]. simpl.
  intros [Hc Hws]%andb_prop. rewrite IH by done.
  unfold is_markup.
  destruct (N.eqb_spec c 60) as [->|]; [done|].
  destruct (N.eqb_spec c 62) as [->|]; [done|].
  destruct (N.eqb_spec c 34) as [->|]; [done|].
  by destruct (N.eqb_spec c 39) as [->|].
Qed.

Lemma markup_strip s : markup (strip s) = markup s.
Proof.
  unfold strip.
  destruct (lstrip_decomp s) as (w1 & H1 & Hw1).
  destruct (rstrip_decomp (lstrip s)) as (w2 & H2 & Hw2).
  rewrite H1 at 2. rewrite H2 at 2.
  rewrite !markup_app, (markup_space w1), (markup_space w2) by done.
  by rewrite app_nil_r.
Qed.

Lemma markup_dec n : markup (dec n) = [].
Proof. unfold dec. induction (N.to_uint n); simpl; done. Qed.

Lemma markup_item idx p one_liner url :
  markup (item_html idx p one_liner url) = markup blank_item.
Proof.
  unfold blank_item, item_html, esc.
  rewrite !markup_strip, !markup_app, !markup_escape, !markup_dec. done.
Qed.

Lemma markup_document d t items a b c g d' t' items' a' b' c' g' :
  markup (concat items) = markup (concat items') →
  markup a = markup a' → markup b = markup b' → markup c = markup c' →
  markup (document d t items a b c g) = markup (document d' t' items' a' b' c' g').
Proof.
  intros Hi Ha Hb Hc. unfold document, esc.
  rewrite !markup_strip, !markup_app, !markup_escape. by rewrite Hi, Ha, Hb, Hc.
Qed.

Lemma markup_items idx top m items :
  render_items idx top m = Ok items →
  markup (concat items) = markup (concat (replicate (length items) blank_item)).
Proof.
  revert idx items.
  induction top as [|entry top IH]; intros idx items; cbn [render_items].
  - by intros [= <-].
  - destruct (py_get entry (lit "id") (JStr [])) as [pidv|]; cbn [bind]; [|done].
    destruct (m !! strip (py_str pidv)) as [p|]; [|apply IH].
    destruct (py_get entry (lit "summary") (JStr [])) as [sv|]; cbn [bind]; [|done].
    destruct (render_items (S idx) top m) as [rest|] eqn:Hr; cbn [bind]; [|done].
    intros [= <-]. cbn [length replicate concat].
    rewrite !markup_app, markup_item. f_equal. by eapply IH.
Qed.

Lemma markup_esc_any t e : esc_any t = Ok e → markup e = [].
Proof.
  unfold esc_any. destruct (truthy t).
  - destruct t; try done. intros [= <-]. apply markup_escape.
  - intros [= <-]. apply markup_escape.
Qed.

Lemma markup_bullets ts h :
  render_bullets ts = Ok h → ∃ n, markup h = markup (blank_bullets n).
Proof.
  revert h. induction ts as [|t ts IH]; intros h; cbn [render_bullets].
  - intros [= <-]. by exists 0.
  - destruct (nonempty (strip (py_str t))); [|apply IH].
    destruct (esc_any t) as [e|] eqn:He; cbn [bind]; [|done].
    destruct (render_bullets ts) as [rest|]; cbn [bind]; [|done].
    intros <-%Ok_inj. destruct (IH rest eq_refl) as [n Hn]. exists (S n).
    unfold blank_bullets. cbn [replicate concat]. fold (blank_bullets n).
    rewrite !markup_app, (markup_esc_any _ _ He), Hn.
    by rewrite <- !app_assoc.
Qed.

Lemma markup_iter_bullets v h :
  (ts ←? py_iter v; render_bullets ts) = Ok h →
  ∃ n, markup h = markup (blank_bullets n).
Proof.
  destruct (py_iter v) as [ts|]; cbn [bind]; [|done]. apply markup_bullets.
Qed.

(** C6: whatever the data, the markup characters of the rendered document
    (angle brackets and both quotes) are those of the template: the
    document has the markup characters of the same document with as many
    items and bullets and every piece of data empty, because each piece of
    data goes through [html.escape], whose result has none. *)
Theorem rendered_markup_is_template (date_str time_str : pystr) (top : list json)
    (id_to_paper : gmap pystr Paper) (trends general_concept specific_concept : json)
    (general_topic doc : pystr) :
  build_email_html date_str time_str top id_to_paper trends general_concept
    specific_concept general_topic = Ok doc →
  (∀ s, markup (esc s) = [] ∧ esc s = s ≫= esc_char)
  ∧ ∃ k n1 n2 n3, (k ≤ length top)%nat
      ∧ markup doc = markup (blank_document k n1 n2 n3).
Proof.
  intros Hdoc. split.
  { intros s. split; [apply markup_escape|apply html_escape_chars]. }
  unfold build_email_html in Hdoc.
  destruct (render_items 1 top id_to_paper) as [items|] eqn:Hi;
    cbn [bind] in Hdoc; [|done].
  destruct (ts ←? py_iter trends; render_bullets ts) as [h1|] eqn:H1;
    cbn [bind] in Hdoc; [|done].
  destruct (ts ←? py_iter general_concept; render_bullets ts) as [h2|] eqn:H2;
    cbn [bind] in Hdoc; [|done].
  destruct (ts ←? py_iter specific_concept; render_bullets ts) as [h3|] eqn:H3;
    cbn [bind] in Hdoc; [|done].
  injection Hdoc as <-.
  destruct (markup_iter_bullets _ _ H1) as [n1 Hn1].
  destruct (markup_iter_bullets _ _ H2) as [n2 Hn2].
  destruct (markup_iter_bullets _ _ H3) as [n3 Hn3].
  exists (length items), n1, n2, n3. split.
  - clear -Hi. revert Hi. generalize 1%nat. revert items.
    induction top as [|entry top IH]; intros items idx; cbn [render_items].
    + by intros [= <-].
    + destruct (py_get entry (lit "id") (JStr [])) as [pidv|]; cbn [bind]; [|done].
      destruct (id_to_paper !! strip (py_str pidv)) as [p|].
      * destruct (py_get entry (lit "summary") (JStr [])) as [sv|]; cbn [bind]; [|done].
        destruct (render_items (S idx) top id_to_paper) as [rest|] eqn:Hr;
          cbn [bind]; [|done].
        intros [= <-]. cbn [length]. specialize (IH _ _ Hr). lia.
      * intros Hr. specialize (IH _ _ Hr). cbn [length]. lia.
  - unfold blank_document. apply markup_document; [|done..].
    by eapply markup_items.
Qed.

End EscapeFacts.

(** ** Mail dispatch *)

Section DispatchFacts.
Context `{!PyRuntime}.

Lemma env_insert_ne environ k v name default required :
  k ≠ name →
  env (<[k:=v]> environ) name default required = env environ name default required.
Proof. intros Hne. unfold env. by rewrite lookup_insert_ne. Qed.

Lemma env_int_insert_ne environ k v name default :
  k ≠ lit name →
  env_int (<[k:=v]> environ) name default = env_int environ name default.
Proof. intros Hne. unfold env_int. by rewrite env_insert_ne. Qed.

(** The [send_email] that runs reads neither [EMAIL_CC] nor [EMAIL_BCC]. *)
Lemma send_email_ignores environ k v subject html_body :
  k = lit "EMAIL_CC" ∨ k = lit "EMAIL_BCC" →
  send_email (<[k:=v]> environ) subject html_body
  = send_email environ subject html_body.
Proof.
  intros Hk. unfold send_email.
  assert (Hne : ∀ name, In name ["SMTP_HOST"; "SMTP_PORT"; "SMTP_USER";
                  "SMTP_PASSWORD"; "EMAIL_TO"; "EMAIL_FROM"]%string → k ≠ lit name).
  { intros name Hin. simpl in Hin.
    destruct Hk as [-> | ->];
      repeat (destruct Hin as [<-|Hin]; [by intros [=]|]); done. }
  rewrite env_insert_ne by (apply Hne; simpl; tauto).
  destruct (env environ (lit "SMTP_HOST") None true); cbn [bind]; [|done].
  rewrite env_int_insert_ne by (apply Hne; simpl; tauto).
  destruct (env_int environ "SMTP_PORT" "587"); cbn [bind]; [|done].
  rewrite env_insert_ne by (apply Hne; simpl; tauto).
  destruct (env environ (lit "SMTP_USER") None true); cbn [bind]; [|done].
  rewrite env_insert_ne by (apply Hne; simpl; tauto).
  destruct (env environ (lit "SMTP_PASSWORD") None true); cbn [bind]; [|done].
  rewrite env_insert_ne by (apply Hne; simpl; tauto).
  destruct (env environ (lit "EMAIL_TO") None true); cbn [bind]; [|done].
  by rewrite env_insert_ne by (apply Hne; simpl; tauto).
Qed.

(** Its envelope is taken from the To header alone. *)
Lemma send_email_envelope environ subject html_body d :
  send_email environ subject html_body = Ok d →
  ∃ email_to, environ !! lit "EMAIL_TO" = Some email_to
    ∧ rcpt_to d = getaddresses [email_to]
    ∧ (headers d).*1 = [lit "Subject"; lit "From"; lit "To"].
Proof.
  unfold send_email.
  destruct (env environ (lit "SMTP_HOST") None true); cbn [bind]; [|done].
  destruct (env_int environ "SMTP_PORT" "587"); cbn [bind]; [|done].
  destruct (env environ (lit "SMTP_USER") None true); cbn [bind]; [|done].
  destruct (env environ (lit "SMTP_PASSWORD") None true); cbn [bind]; [|done].
  destruct (env environ (lit "EMAIL_TO") None true) as [email_to|] eqn:Hto;
    cbn [bind]; [|done].
  destruct (env environ (lit "EMAIL_FROM") _ false); cbn [bind]; [|done].
  intros <-%Ok_inj. exists email_to. split; [|done].
  unfold env in Hto. destruct (environ !! lit "EMAIL_TO") as [x|]; [|done].
  cbn [andb negb] in Hto. destruct (nonempty x); [|done]. simpl in Hto. congruence.
Qed.

(** The first definition does what its docstring says: it hands the relay
    the To, Cc and Bcc addresses and writes To and Cc headers only. *)
Lemma send_email_first_envelope environ subject html_body d :
  send_email_first environ subject html_body = Ok d →
  rcpt_to d = recipients_of environ "EMAIL_TO" ++ recipients_of environ "EMAIL_CC"
              ++ recipients_of environ "EMAIL_BCC"
  ∧ (headers d).*1 =
      [lit "Subject"; lit "From"; lit "To"]
      ++ match recipients_of environ "EMAIL_CC" with
         | [] => []
         | _ => [lit "Cc"]
         end.
Proof.
  assert (Hopt : ∀ name raw,
    env environ (lit name) None false = Ok raw →
    (if nonempty raw then _parse_recipients raw else []) = recipients_of environ name).
  { intros name raw. unfold env, recipients_of.
    destruct (environ !! lit name) as [x|]; cbn [andb]; intros <-%Ok_inj; [|done].
    by destruct x. }
  unfold send_email_first.
  destruct (env environ (lit "SMTP_HOST") None true); cbn [bind]; [|done].
  destruct (env_int environ "SMTP_PORT" "587"); cbn [bind]; [|done].
  destruct (env environ (lit "SMTP_USER") None true); cbn [bind]; [|done].
  destruct (env environ (lit "SMTP_PASSWORD") None true); cbn [bind]; [|done].
  destruct (env environ (lit "EMAIL_TO") None true) as [to_raw|] eqn:Hto;
    cbn [bind]; [|done].
  destruct (env environ (lit "EMAIL_CC") None false) as [cc_raw|] eqn:Hcc;
    cbn [bind]; [|done].
  destruct (env environ (lit "EMAIL_BCC") None false) as [bcc_raw|] eqn:Hbcc;
    cbn [bind]; [|done].
  destruct (env environ (lit "EMAIL_FROM") _ false); cbn [bind]; [|done].
  rewrite (Hopt "EMAIL_CC"%string _ Hcc), (Hopt "EMAIL_BCC"%string _ Hbcc).
  assert (Hto' : _parse_recipients to_raw = recipients_of environ "EMAIL_TO").
  { unfold env, recipients_of in *.
    destruct (environ !! lit "EMAIL_TO") as [x|]; [|done].
    cbn [andb negb] in Hto. destruct (nonempty x); [|done]. simpl in Hto. congruence. }
  rewrite Hto'.
  destruct (recipients_of environ "EMAIL_TO") as [|to1 tos]; [done|].
  intros <-%Ok_inj. cbn [rcpt_to headers]. split; [done|].
  by destruct (recipients_of environ "EMAIL_CC").
Qed.

End DispatchFacts.

(** * Examples *)

Section Examples.
Local Existing Instance demo_runtime.

Example fmt02_examples : fmt02 7 = lit "07" ∧ fmt02 42 = lit "42" ∧ fmt02 125 = lit "125".
Proof. repeat split. Qed.

Example py_int_examples :
  py_int (lit " 1_000 ") = Some 1000%Z ∧ py_int (lit "v2") = None
  ∧ py_int (lit "-1") = Some (-1)%Z ∧ py_int [] = None
  ∧ py_int (lit "+007") = Some 7%Z ∧ py_int (lit "1__0") = None
  ∧ py_int (lit "5" ++ [28%N]) = None ∧ py_int (strip (lit "5" ++ [28%N])) = Some 5%Z
  ∧ py_int ([160; 1635; 65297; 8195]%N) = Some 31%Z
  ∧ py_int (replicate 4300 57%N) ≠ None ∧ py_int (replicate 4301 57%N) = None
  ∧ isdigit (lit "150") = true ∧ isdigit [178%N] = true ∧ py_int [178%N] = None
  ∧ isdigit (lit "-1") = false ∧ isdigit [] = false.
Proof. repeat split; vm_compute; (reflexivity || discriminate). Qed.

Example parse_recipients_example :
  _parse_recipients (lit "a@x.com, b@y.com; c@z.com")
  = [lit "a@x.com"; lit "b@y.com"; lit "c@z.com"].
Proof. reflexivity. Qed.

Example dedupe_example :
  dedupe_keep_latest_version clean_rows
  = [row_of "10.1101/a" "2" "2024-01-02"; row_of "10.1101/b" "1" "2024-01-03"].
Proof. vm_compute. reflexivity. Qed.

Example papers_example :
  (λ p, (pid p, date p)) <$> papers_of_rows clean_rows
  = [(lit "P01", lit "2024-01-03"); (lit "P02", lit "2024-01-02")].
Proof. vm_compute. reflexivity. Qed.

Lemma papers_for_ai_floor_witness :
  papers_for_ai 3 (replicate 12 blank_paper) = take 10 (replicate 12 blank_paper)
  ∧ papers_for_ai 60 (replicate 4 blank_paper) = replicate 4 blank_paper.
Proof.
  split.
  - refine (proj1 (proj2 (proj2 (papers_for_ai_floor 3 (replicate 12 blank_paper)))) _).
    lia.
  - refine (proj2 (proj2 (proj2 (papers_for_ai_floor 60 (replicate 4 blank_paper)))) _).
    simpl. lia.
Defined.

Lemma select_checks_top_papers_only_witness :
  ∃ sel, select (JObj long_response) = Ok sel
    ∧ top_papers sel = replicate 5 (JObj [(lit "id", JStr (lit "P01"))])
    ∧ length (top_papers sel) = 5
    ∧ trends sel = JList [JStr (lit "one trend")].
Proof.
  refine (proj2 (select_checks_top_papers_only long_response)
            (replicate 7 (JObj [(lit "id", JStr (lit "P01"))])) _).
  reflexivity.
Defined.

Lemma paging_stops_witness :
  demo_catalog 0 = Ok demo_page1
  ∧ ∃ r, fetch_pages 2 demo_catalog fetch_init = Some ([0; 100]%Z, r).
Proof.
  split; [reflexivity|].
  refine (proj2 (proj2 (proj2
            (paging_stops demo_catalog 0 fetch_init demo_page1 _))) _ _ _ _ _);
    reflexivity.
Defined.

Lemma dedupe_first_max_when_stable_witness :
  Forall version_trimmed clean_rows
  ∧ Forall (first_max clean_rows) (dedupe_keep_latest_version clean_rows).
Proof.
  assert (Htr : Forall version_trimmed clean_rows)
    by (repeat constructor; vm_compute; reflexivity).
  split; [exact Htr|].
  pose proof (dedupe_first_max_when_stable clean_rows) as (_ & _ & _ & Hmax & Hst).
  exact (Hmax (Hst Htr)).
Defined.

Lemma papers_sorted_and_numbered_witness :
  Forall (λ r, strip (date_key r) = date_key r) clean_rows
  ∧ StronglySorted papers_desc (papers_of_rows clean_rows).
Proof.
  assert (Hclean : Forall (λ r, strip (date_key r) = date_key r) clean_rows)
    by (repeat constructor).
  split; [exact Hclean|].
  exact (proj2 (proj2 (proj2 (proj2 (proj2 (proj2
           (papers_sorted_and_numbered clean_rows)))))) Hclean).
Defined.

Lemma blank_doi_rows_dropped_witness :
  blank_doi (row_of "" "1" "2024-01-04") = true
  ∧ row_of "" "1" "2024-01-04" ∉ dedupe_keep_latest_version clean_rows.
Proof.
  split; [reflexivity|].
  refine (proj1 (blank_doi_rows_dropped clean_rows) _ _). reflexivity.
Defined.

Lemma extract_json_tolerant_witness :
  extract_json (lit "Here is the digest: " ++ tpl "{~top_papers~: []}")
  = json_loads (tpl "{~top_papers~: []}")
  ∧ main 1 bad_response_world = Some (Raise ValueError).
Proof.
  split.
  - refine (proj1 (proj2 (proj2 (proj2 extract_json_tolerant))) _ _ _ _ _);
      reflexivity.
  - refine (proj2 (proj2 (proj2 (proj2 (proj2 (proj2 extract_json_tolerant)))))
              1 bad_response_world (lit "protein folding") 60%Z _ []
              (lit "I could not rank the papers.") ValueError _ _ _ _);
      vm_compute; reflexivity.
Defined.

Example extract_json_fenced :
  extract_json (lit "```json" ++ [10%N] ++ tpl "{~top_papers~: []}" ++ [10%N] ++ lit "```")
  = Ok (JObj [(lit "text", JStr (tpl "{~top_papers~: []}"))])
  ∧ extract_json (lit "no object here") = Raise ValueError.
Proof. split; vm_compute; reflexivity. Qed.

Lemma rendered_markup_is_template_witness :
  hostile_html = Ok hostile_doc
  ∧ ∃ k n1 n2 n3, k ≤ 1 ∧ markup hostile_doc = markup (blank_document k n1 n2 n3).
Proof.
  assert (Hdoc : hostile_html = Ok hostile_doc) by (vm_compute; reflexivity).
  split; [exact Hdoc|].
  exact (proj2 (rendered_markup_is_template _ _ _ _ _ _ _ _ _ Hdoc)).
Defined.

(** The hostile title is in the document as escaped text only. *)
Example hostile_title_inert :
  contains (lit "<script") hostile_doc = false
  ∧ contains (lit "&lt;script&gt;alert(1)&lt;/script&gt;") hostile_doc = true
  ∧ contains (lit "<b>bold") hostile_doc = false
  ∧ contains (lit "Entropy &amp; information") hostile_doc = true.
Proof. repeat split; vm_compute; reflexivity. Qed.

(** C1: with To, Cc and Bcc all configured, the [send_email] that [main]
    calls hands the relay the To address only and writes no Cc header: the
    Cc and Bcc addresses get no mail.  The first definition, which the
    second one replaces, delivers to all three and keeps Bcc out of the
    headers. *)
Theorem send_email_drops_cc_bcc :
  (∃ d, send_email demo_environ (lit "subject") (lit "body") = Ok d
     ∧ rcpt_to d = [lit "a@x.com"]
     ∧ (headers d).*1 = [lit "Subject"; lit "From"; lit "To"])
  ∧ (∃ d, send_email_first demo_environ (lit "subject") (lit "body") = Ok d
     ∧ rcpt_to d = [lit "a@x.com"; lit "c@z.com"; lit "b@y.com"]
     ∧ (headers d).*1 = [lit "Subject"; lit "From"; lit "To"; lit "Cc"]).
Proof.
  split; eexists; (split; [vm_compute; reflexivity|]); split; reflexivity.
Qed.

End Examples.

(** * Further properties *)

(** ** Configuration *)

(** X1: a required setting is never returned empty: [env] with
    [required=True] either raises [RuntimeError] or returns the non-empty
    value of the variable, or the non-empty default when the variable is
    unset; without [required] it never raises; and a variable that is set
    but empty is not replaced by the default. *)
Theorem env_required_nonempty (environ : gmap pystr pystr) (name : pystr)
    (default : option pystr) :
  (∀ v, env environ name default true = Ok v →
     v ≠ [] ∧ (environ !! name = Some v ∨ (environ !! name = None ∧ default = Some v)))
  ∧ (env environ name default true = Raise RuntimeError
     ∨ ∃ v, env environ name default true = Ok v)
  ∧ (∃ v, env environ name default false = Ok v)
  ∧ (environ !! name = Some [] →
       env environ name default false = Ok []
       ∧ env environ name default true = Raise RuntimeError).
Proof.
  unfold env. split; [|split; [|split]].
  - intros v. destruct (environ !! name) as [x|]; [|destruct default as [x|]];
      cbn [andb negb]; try done; destruct x; cbn; try done;
      intros [= <-]; split; auto.
  - destruct (environ !! name) as [[|c x]|]; [| |destruct default as [[|c x]|]];
      cbn; eauto.
  - cbn [andb]. eauto.
  - by intros ->.
Qed.

(** ** Display address of a paper *)

(** X2: the display address of a paper is empty exactly when its DOI is;
    it is the versioned bioRxiv address when DOI and version are both
    present and the resolver address otherwise, so it always ends with the
    DOI or the version; and the alternative the renderer keeps for an empty
    address never changes it. *)
Theorem biorxiv_url_cases (p : Paper) :
  (biorxiv_url p = [] ↔ doi p = [])
  ∧ (doi p ≠ [] → version p ≠ [] →
       biorxiv_url p = lit "https://www.biorxiv.org/content/" ++ doi p ++ lit "v" ++ version p)
  ∧ (doi p ≠ [] → version p = [] → biorxiv_url p = lit "https://doi.org/" ++ doi p)
  ∧ (if nonempty (biorxiv_url p) then biorxiv_url p
     else if nonempty (doi p) then lit "https://doi.org/" ++ doi p else [])
    = biorxiv_url p.
Proof.
  unfold biorxiv_url.
  destruct (doi p) as [|c d], (version p) as [|c' v]; cbn [nonempty andb];
    repeat split; try done.
Qed.

(** ** The selection and the items *)

Section ItemsFacts.
Context `{!PyRuntime}.

Lemma render_items_dicts idx top m :
  forallb is_dict top = true →
  ∃ items, render_items idx top m = Ok items
    ∧ length items = length (List.filter (known_entry m) top).
Proof.
  revert idx. induction top as [|entry top IH]; intros idx Hd; cbn [render_items].
  - by exists [].
  - apply andb_prop in Hd as [He Hd]. destruct entry as [| | | | |d]; try done.
    cbn [py_get bind List.filter known_entry].
    destruct (IH (S idx) Hd) as (items & Hi & Hlen).
    destruct (m !! strip (py_str (dict_get d (lit "id") (JStr [])))) as [p|] eqn:Hp.
    + rewrite Hi. cbn [bind]. eexists. split; [done|].
      rewrite bool_decide_eq_true_2 by eauto. cbn [length]. by rewrite Hlen.
    + exists items. split; [done|].
      rewrite bool_decide_eq_false_2; [done|]. by intros [? ?].
Qed.

Lemma render_items_not_dict idx top m :
  forallb is_dict top = false → render_items idx top m = Raise AttributeError.
Proof.
  revert idx. induction top as [|entry top IH]; intros idx Hd; [done|].
  cbn [render_items]. cbn [forallb] in Hd.
  destruct entry as [| | | | |d]; try done. cbn [is_dict andb] in Hd.
  cbn [py_get bind]. rewrite (IH (S idx) Hd).
  by destruct (m !! _).
Qed.

(** X3: rendering the selected entries fails (with [AttributeError]) exactly
    when some entry is not an object; otherwise it yields one item for each
    entry whose identifier names a known paper and nothing, not even an
    error, for the others. *)
Theorem render_items_skips_unknown (idx : nat) (top : list json)
    (id_to_paper : gmap pystr Paper) :
  if forallb is_dict top then
    ∃ items, render_items idx top id_to_paper = Ok items
      ∧ length items = length (List.filter (known_entry id_to_paper) top)
  else render_items idx top id_to_paper = Raise AttributeError.
Proof.
  destruct (forallb is_dict top) eqn:Hd.
  - by apply render_items_dicts.
  - by apply render_items_not_dict.
Qed.

(** X4: whatever object the model returns, a selection that passes the
    check has at most five entries and a [general_trends] the renderer can
    iterate over; a response that is not an object fails with
    [AttributeError] before any check. *)
Theorem select_output_shape (ai : json) :
  match select ai with
  | Ok sel =>
      is_dict ai = true
      ∧ length (top_papers sel) ≤ 5
      ∧ ∃ ts, py_iter (trends sel) = Ok ts
  | Raise e =>
      (is_dict ai = false ∧ e = AttributeError)
      ∨ (is_dict ai = true ∧ e = RuntimeError)
  end.
Proof.
  destruct ai as [| | | | |d]; try (by left).
  rewrite select_dict.
  destruct (dict_get d (lit "top_papers") (JList [])) as [| | | |l|]; try (by right).
  split; [done|]. cbn [top_papers trends]. split.
  - rewrite length_take. lia.
  - unfold coerced_trends.
    destruct (dict_get d (lit "general_trends") (JList [])); cbn; eauto.
Qed.

End ItemsFacts.

(** ** Model invocation *)

Section GeminiFacts.
Context `{!PyRuntime}.

Lemma join_texts_parts ts :
  join_texts ((λ t, JObj [(lit "text", JStr t)]) <$> ts) = Some (concat ts).
Proof.
  induction ts as [|t ts IH]; [done|].
  rewrite fmap_cons. cbn [join_texts]. rewrite IH. done.
Qed.

Lemma response_text_candidate ts :
  response_text (candidate_response ts) = Some (strip (concat ts)).
Proof.
  unfold response_text, candidate_response.
  cbn [subscript_key dict_lookup]. rewrite bool_decide_eq_true_2 by done.
  cbn [mbind option_bind subscript_0 subscript_key dict_lookup].
  rewrite bool_decide_eq_true_2 by done.
  cbn [mbind option_bind subscript_0 subscript_key dict_lookup].
  rewrite bool_decide_eq_true_2 by done.
  cbn [mbind option_bind py_iter]. by rewrite join_texts_parts.
Qed.

Lemma response_text_stripped data text :
  response_text data = Some text → strip text = text.
Proof.
  unfold response_text. intros Hr.
  repeat (match type of Hr with
          | (mbind _ ?m = Some _) => destruct m; cbn [mbind option_bind] in Hr; [|done]
          end).
  injection Hr as <-. apply strip_idem.
Qed.

(** X5: [call_gemini] asks the fallback endpoint only after the primary one
    failed: when the primary request succeeds the result does not depend on
    the fallback, and the call fails exactly when both requests fail, with
    the error of the fallback.  A reply that carries texts as the parts of
    its first candidate yields their concatenation, trimmed; any reply
    yields some text, trimmed whenever it was read from the parts. *)
Theorem call_gemini_fallback (json_dumps : json → pystr)
    (post : endpoint → pystr → result json) (prompt : pystr) :
  (∀ data post', post Primary prompt = Ok data → post' Primary prompt = Ok data →
     call_gemini json_dumps post' prompt = call_gemini json_dumps post prompt)
  ∧ (∀ e, call_gemini json_dumps post prompt = Raise e ↔
       (∃ e0, post Primary prompt = Raise e0) ∧ post Fallback prompt = Raise e)
  ∧ (∀ ts, post Primary prompt = Ok (candidate_response ts) →
       call_gemini json_dumps post prompt = Ok (strip (concat ts)))
  ∧ (∀ data text, post Primary prompt = Ok data → response_text data = Some text →
       call_gemini json_dumps post prompt = Ok text ∧ strip text = text).
Proof.
  unfold call_gemini. split; [|split; [|split]].
  - intros data post' H1 H2. by rewrite H1, H2.
  - intros e. destruct (post Primary prompt) as [d|e0]; cbn [bind].
    + split; [done|]. by intros [[e0 ?] _].
    + destruct (post Fallback prompt) as [d|e1]; cbn [bind].
      * split; [done|]. by intros [_ ?].
      * split; [intros [= ->]; eauto|]. by intros [_ [= ->]].
  - intros ts ->. cbn [bind]. by rewrite response_text_candidate.
  - intros data text -> Ht. cbn [bind]. rewrite Ht.
    split; [done|]. by eapply response_text_stripped.
Qed.

End GeminiFacts.

(** ** Recipient lists *)

Section RecipientFacts.

Lemma split_seps_pieces after acc s :
  forallb (λ c, negb (is_sep c)) acc = true →
  Forall (λ p, forallb (λ c, negb (is_sep c)) p = true) (split_seps after acc s).
Proof.
  revert after acc. induction s as [|c s IH]; intros after acc Hacc; cbn [split_seps].
  - by constructor.
  - fold (is_sep c). destruct (is_sep c) eqn:Hc.
    + destruct after; [by apply IH|]. constructor; [done|]. by apply IH.
    + apply IH. rewrite forallb_app, Hacc. cbn. by rewrite Hc.
Qed.

Lemma forallb_lstrip (P : N → bool) s : forallb P s = true → forallb P (lstrip s) = true.
Proof.
  destruct (lstrip_decomp s) as (ws & Hs & _). rewrite Hs at 1.
  rewrite forallb_app. by intros [_ ?]%andb_prop.
Qed.

Lemma forallb_rstrip (P : N → bool) s : forallb P s = true → forallb P (rstrip s) = true.
Proof.
  destruct (rstrip_decomp s) as (ws & Hs & _). rewrite Hs at 1.
  rewrite forallb_app. by intros [? _]%andb_prop.
Qed.

Lemma forallb_strip (P : N → bool) s : forallb P s = true → forallb P (strip s) = true.
Proof. intros Hs. unfold strip. by apply forallb_rstrip, forallb_lstrip. Qed.

Lemma parse_recipients_clean raw : Forall clean_address (_parse_recipients raw).
Proof.
  unfold _parse_recipients. destruct (nonempty raw); cbn [negb]; [|constructor].
  pose proof (split_seps_pieces false [] raw eq_refl) as Hp.
  induction Hp as [|p ps Hp _ IH]; [constructor|]. cbn [omap list_omap].
  destruct (nonempty p && nonempty (strip p)) eqn:Hn; [|exact IH].
  constructor; [|exact IH]. apply andb_prop in Hn as [_ Hn].
  split; [by destruct (strip p)|]. split; [apply strip_idem|by apply forallb_strip].
Qed.

Lemma split_seps_nonsep after acc a s :
  forallb (λ c, negb (is_sep c)) a = true → a ≠ [] →
  split_seps after acc (a ++ s) = split_seps false (acc ++ a) s.
Proof.
  revert after acc. induction a as [|c a IH]; intros after acc Ha Hne; [done|].
  cbn [forallb] in Ha. apply andb_prop in Ha as [Hc Ha].
  apply negb_true_iff in Hc. cbn [app split_seps]. fold (is_sep c). rewrite Hc.
  destruct a as [|c' a'].
  - done.
  - rewrite (IH false (acc ++ [c])) by done. by rewrite <- app_assoc.
Qed.

Lemma split_seps_join a l acc :
  Forall clean_address (a :: l) →
  split_seps false acc (join (lit ", ") (a :: l)) = (acc ++ a) :: (cons 32%N <$> l).
Proof.
  revert a acc. induction l as [|b l IH]; intros a acc Hl.
  - apply Forall_cons in Hl as [(Hne & _ & Hsep) _]. cbn [join fmap list_fmap].
    rewrite <- (app_nil_r a) at 1. rewrite split_seps_nonsep by done. done.
  - pose proof Hl as Hl'. apply Forall_cons in Hl' as [(Hne & _ & Hsep) Hl'].
    change (join (lit ", ") (a :: b :: l))
      with (a ++ lit ", " ++ join (lit ", ") (b :: l)).
    rewrite split_seps_nonsep by done.
    specialize (IH b ([] ++ [32%N]) Hl').
    set (J := join (lit ", ") (b :: l)) in *.
    change (lit ", " ++ J) with (44%N :: ([32%N] ++ J)).
    cbn [split_seps N.eqb Pos.eqb orb].
    rewrite (split_seps_nonsep true [] [32%N]) by done.
    by rewrite IH.
Qed.

Lemma strip_cons_space c s : is_space c = true → strip (c :: s) = strip s.
Proof. intros Hc. unfold strip. by rewrite lstrip_cons_space. Qed.

Lemma omap_clean (l : list pystr) :
  Forall clean_address l →
  omap (λ p, if nonempty p && nonempty (strip p) then Some (strip p) else None)
       (cons 32%N <$> l) = l.
Proof.
  induction 1 as [|a l (Hne & Hst & _) _ IH]; [done|].
  rewrite fmap_cons. cbn [omap list_omap]. rewrite strip_cons_space by done.
  rewrite Hst, IH. destruct a; done.
Qed.

(** X6: every address [_parse_recipients] returns is non-empty, has no
    whitespace at its ends and contains neither a comma nor a semicolon;
    and a list of such addresses, written out with [", ".join] as the To
    and Cc headers are, parses back to itself. *)
Theorem parse_recipients_round_trip (raw : pystr) (l : list pystr) :
  Forall clean_address (_parse_recipients raw)
  ∧ (Forall clean_address l → _parse_recipients (join (lit ", ") l) = l)
  ∧ _parse_recipients (join (lit ", ") (_parse_recipients raw)) = _parse_recipients raw.
Proof.
  assert (Hrt : ∀ l, Forall clean_address l → _parse_recipients (join (lit ", ") l) = l).
  { clear. intros [|a l] Hl; [done|]. unfold _parse_recipients.
    rewrite split_seps_join by done. cbn [app].
    assert (Hne : nonempty (join (lit ", ") (a :: l)) = true).
    { apply Forall_cons in Hl as [(Hne & _) _]. destruct a; [done|].
      destruct l; done. }
    rewrite Hne. cbn [negb omap list_omap].
    pose proof Hl as Hl'. apply Forall_cons in Hl' as [(Ha & Hst & _) Hl'].
    rewrite Hst, omap_clean by done. destruct a; done. }
  split; [apply parse_recipients_clean|]. split; [apply Hrt|].
  apply Hrt, parse_recipients_clean.
Qed.

End RecipientFacts.

(** ** The index of the papers shown to the model *)

Section IndexFacts.
Context `{!PyRuntime}.

Lemma index_fold_lookup (papers : list Paper) (m : gmap pystr Paper) k :
  foldl (λ m p, <[pid p := p]> m) m papers !! k =
    match last (filter (λ p, pid p = k) papers) with
    | Some p => Some p
    | None => m !! k
    end.
Proof.
  revert m. induction papers as [|p papers IH]; intros m; [done|].
  cbn [foldl]. rewrite IH. rewrite filter_cons.
  destruct (decide (pid p = k)) as [Hk|Hk].
  - destruct (filter (λ p, pid p = k) papers) as [|q qs] eqn:Hf.
    + cbn. by rewrite <- Hk, lookup_insert_eq.
    + change (last (p :: q :: qs)) with (last (q :: qs)).
      destruct (last (q :: qs)) eqn:E; [done|]. by apply last_None in E.
  - destruct (last _); [done|]. by rewrite lookup_insert_ne.
Qed.

Lemma filter_none {A} (P : A → Prop) `{!∀ x, Decision (P x)} (l : list A) :
  Forall (λ x, ¬ P x) l → filter P l = [].
Proof. induction 1; [done|]. by rewrite filter_cons_False. Qed.

Lemma index_by_pid_unknown papers k :
  k ∉ pid <$> papers → index_by_pid papers !! k = None.
Proof.
  intros Hk. unfold index_by_pid. rewrite index_fold_lookup.
  replace (filter (λ p, pid p = k) papers) with (@nil Paper); [done|].
  symmetry. apply filter_none, Forall_forall. intros p Hp Hpk. apply Hk.
  rewrite <- Hpk. by apply list_elem_of_fmap_2.
Qed.

Lemma index_by_pid_known papers p :
  NoDup (pid <$> papers) → p ∈ papers → index_by_pid papers !! pid p = Some p.
Proof.
  intros Hnd Hp. unfold index_by_pid. rewrite index_fold_lookup.
  replace (filter (λ q, pid q = pid p) papers) with [p]; [done|].
  clear -Hnd Hp. induction papers as [|q papers IH]; [by apply elem_of_nil in Hp|].
  rewrite fmap_cons in Hnd. apply NoDup_cons in Hnd as [Hq Hnd].
  rewrite filter_cons. apply elem_of_cons in Hp as [->|Hp].
  - rewrite decide_True by done. f_equal. symmetry.
    apply filter_none, Forall_forall. intros r Hr Hrq. apply Hq.
    rewrite <- Hrq. by apply list_elem_of_fmap_2.
  - rewrite decide_False; [by apply IH|].
    intros Hqp. apply Hq. rewrite Hqp. by apply list_elem_of_fmap_2.
Qed.

(** X7: the papers handed to the renderer's index are a prefix of the
    fetched papers; the identifier of each of them leads back to that very
    paper, and the identifier of a fetched paper beyond the cap leads to
    nothing, so a selection of it is skipped. *)
Theorem shown_papers_indexed (m : Z) (rows : list dict) :
  let papers := papers_of_rows rows in
  let shown := papers_for_ai m papers in
  ∃ rest, papers = shown ++ rest
    ∧ Forall (λ p, index_by_pid shown !! pid p = Some p) shown
    ∧ Forall (λ p, index_by_pid shown !! pid p = None) rest.
Proof.
  intros papers shown.
  assert (Hshown : shown = take (Z.to_nat (Z.max 10 (Z.min m (Z.of_nat (length papers))))) papers).
  { unfold shown, papers_for_ai. apply slice_to_nonneg. lia. }
  exists (drop (Z.to_nat (Z.max 10 (Z.min m (Z.of_nat (length papers))))) papers).
  pose proof (pids_distinct rows) as Hnd. fold papers in Hnd.
  rewrite Hshown. split; [by rewrite take_drop|].
  rewrite <- (take_drop (Z.to_nat (Z.max 10 (Z.min m (Z.of_nat (length papers))))) papers),
    fmap_app in Hnd.
  apply NoDup_app in Hnd as (Hn1 & Hdisj & _). split.
  - apply Forall_forall. intros p Hp. by apply index_by_pid_known.
  - apply Forall_forall. intros p Hp. apply index_by_pid_unknown.
    intros Hin. apply (Hdisj _ Hin). by apply list_elem_of_fmap_2.
Qed.

End IndexFacts.

(** ** More on the paging loop *)

Section LoopFacts.
Context `{!PyRuntime}.

Lemma page_cases payload st s :
  page payload st = Ok s →
  (normalize_collection payload = [] ∧ s = Break st)
  ∨ ∃ t', normalize_collection payload ≠ [] ∧ total_after payload st = Ok t'
      ∧ (s = Break (advanced payload st t')
         ∨ (s = Continue (advanced payload st t')
            ∧ 100 ≤ length (normalize_collection payload)
            ∧ ∀ t, t' = Some t → (cursor (advanced payload st t') < t)%Z)).
Proof.
  destruct (normalize_collection payload) as [|x rows] eqn:E.
  - rewrite page_no_rows by done. intros [= <-]. by left.
  - intros Hs. right.
    destruct (total_after payload st) as [t'|e] eqn:Ht.
    + exists t'. split; [done|]. split; [done|].
      rewrite (page_rows payload st t') in Hs by (by rewrite ?E).
      rewrite E in Hs.
      destruct (Z.ltb_spec (Z.of_nat (length (x :: rows))) 100);
        cbn [orb] in Hs; [left; congruence|].
      destruct t' as [t|]; [|right; split; [congruence|split; [lia|done]]].
      destruct (Z.geb_spec (cursor (advanced payload st (Some t))) t);
        [left; congruence|].
      right. split; [congruence|]. split; [lia|]. intros ? [= <-]. lia.
    + unfold page, total_after in *. rewrite E, Ht in Hs. done.
Qed.

(** X8: when the first page is a bare list with rows, the fetcher fails with
    [AttributeError]: the total is read with [payload.get], which a list
    does not have.  A bare list is taken in only when it is empty or when a
    total is already known. *)
Theorem bare_list_page_fails (fuel : nat) (api : Z → result json) (st : fetch_state)
    (x : json) (l : list json) :
  api (cursor st) = Ok (JList (x :: l)) →
  (total st = None →
     fetch_pages (S fuel) api st = Some ([cursor st], Raise AttributeError))
  ∧ (st = fetch_init →
     load_recent_papers (S fuel) api = Some (Raise AttributeError))
  ∧ (∀ t, total st = Some t →
     ∃ s, page (JList (x :: l)) st = Ok s).
Proof.
  intros Ha.
  assert (H1 : total st = None →
    fetch_pages (S fuel) api st = Some ([cursor st], Raise AttributeError)).
  { intros Ht. cbn [fetch_pages]. rewrite Ha. unfold page. cbn [normalize_collection].
    by rewrite Ht. }
  split; [exact H1|]. split.
  - intros ->. unfold load_recent_papers. by rewrite H1.
  - intros t Ht. unfold page. cbn [normalize_collection]. rewrite Ht. cbn [bind].
    destruct (_ <? 100)%Z; [eauto|]. destruct (_ >=? t)%Z; eauto.
Qed.

Lemma fetch_pages_trace fuel api st tr r :
  fetch_pages fuel api st = Some (tr, r) →
  (∃ tr', tr = cursor st :: tr' ∧ Forall (λ c, (cursor st < c)%Z) tr')
  ∧ StronglySorted Z.lt tr
  ∧ length tr ≤ fuel
  ∧ ∀ st', r = Ok st' →
      (∃ new, all_rows st' = all_rows st ++ new
         ∧ cursor st' = (cursor st + Z.of_nat (length new))%Z
         ∧ 100 * (length tr - 1) ≤ length new).
Proof.
  revert st tr r. induction fuel as [|fuel IH]; intros st tr r; [done|].
  cbn [fetch_pages].
  assert (Hone : ∀ r0, (∀ st', r0 = Ok st' → ∃ new, all_rows st' = all_rows st ++ new
              ∧ cursor st' = (cursor st + Z.of_nat (length new))%Z) →
      Some ([cursor st], r0) = Some (tr, r) →
      (∃ tr', tr = cursor st :: tr' ∧ Forall (λ c, (cursor st < c)%Z) tr')
      ∧ StronglySorted Z.lt tr ∧ length tr ≤ S fuel
      ∧ ∀ st', r = Ok st' →
          ∃ new, all_rows st' = all_rows st ++ new
            ∧ cursor st' = (cursor st + Z.of_nat (length new))%Z
            ∧ 100 * (length tr - 1) ≤ length new).
  { intros r0 Hr0 [= <- <-]. split; [by exists []|].
    split; [repeat constructor|]. split; [cbn; lia|].
    intros st' Hst'. destruct (Hr0 _ Hst') as (new & ? & ?).
    exists new. repeat split; [done..|cbn; lia]. }
  destruct (api (cursor st)) as [payload|e]; [|by apply Hone].
  destruct (page payload st) as [[st1|st1]|e] eqn:Hp; [| |by apply Hone].
  - (* the loop goes on *)
    apply page_cases in Hp as [[_ ?]|(t' & Hrows & _ & [?|([= ->] & Hlen & _)])];
      try done.
    destruct (fetch_pages fuel api (advanced payload st t')) as [[tr1 r1]|] eqn:Hf;
      [|done].
    intros [= <- <-].
    destruct (IH _ _ _ Hf) as ((tr' & -> & Hgt) & Hsorted & Hfuel & Hrows').
    cbn [cursor advanced] in *.
    assert (Hadv : (cursor st < cursor st + Z.of_nat (length (normalize_collection payload)))%Z)
      by lia.
    split; [|split; [|split]].
    + eexists. split; [done|]. constructor; [done|].
      eapply Forall_impl; [exact Hgt|]. cbn. lia.
    + constructor; [done|]. constructor; [done|].
      eapply Forall_impl; [exact Hgt|]. cbn. lia.
    + cbn [length] in *. lia.
    + intros st' Hst'. destruct (Hrows' _ Hst') as (new & Hall & Hcur & Hn).
      exists (normalize_collection payload ++ new).
      rewrite Hall, Hcur, length_app. cbn [all_rows advanced].
      split; [by rewrite app_assoc|]. split; [lia|]. cbn [length] in *. lia.
  - (* the loop stops *)
    apply Hone. intros st' Hst'. injection Hst' as <-.
    apply page_cases in Hp as [[_ Hb]|(t' & _ & _ & [Hb|[Hb _]])]; try done;
      injection Hb as ->.
    + exists []. rewrite app_nil_r. cbn. split; [done|lia].
    + exists (normalize_collection payload). done.
Qed.

Lemma page_continue payload st st' :
  page payload st = Ok (Continue st') → (cursor st + 100 ≤ cursor st')%Z.
Proof.
  intros Hp.
  apply page_cases in Hp as [[_ ?]|(t' & _ & _ & [?|([= ->] & Hlen & _)])]; try done.
  cbn [cursor advanced]. lia.
Qed.

Lemma requests_S fuel api st :
  requests (S fuel) api st =
    cursor st ::
      match api (cursor st) with
      | Ok payload =>
          match page payload st with
          | Ok (Continue st') => requests fuel api st'
          | _ => []
          end
      | Raise _ => []
      end.
Proof. done. Qed.

Lemma requests_trace fuel api st :
  StronglySorted (λ a b, (a + 100 ≤ b)%Z) (requests fuel api st)
  ∧ Forall (λ c, (cursor st ≤ c)%Z) (requests fuel api st)
  ∧ length (requests fuel api st) ≤ fuel.
Proof.
  revert st. induction fuel as [|fuel IH]; intros st.
  { split; [constructor|]. split; [constructor|done]. }
  rewrite requests_S.
  assert (Hone : StronglySorted (λ a b, (a + 100 ≤ b)%Z) [cursor st]
                 ∧ Forall (λ c, (cursor st ≤ c)%Z) [cursor st]
                 ∧ length [cursor st] ≤ S fuel).
  { split; [repeat constructor|]. split; [by repeat constructor|cbn; lia]. }
  destruct (api (cursor st)) as [payload|e]; [|done].
  destruct (page payload st) as [[st'|st']|e] eqn:Hp; [|done..].
  apply page_continue in Hp. destruct (IH st') as (Hs & Hge & Hlen).
  split; [|split].
  - constructor; [done|]. eapply Forall_impl; [exact Hge|]. cbn. lia.
  - constructor; [lia|]. eapply Forall_impl; [exact Hge|]. cbn. lia.
  - cbn [length]. lia.
Qed.

Lemma requests_prefix fuel api st :
  requests fuel api st `prefix_of` requests (S fuel) api st.
Proof.
  revert st. induction fuel as [|fuel IH]; intros st; [apply prefix_nil|].
  rewrite (requests_S (S fuel)), (requests_S fuel). apply prefix_cons.
  destruct (api (cursor st)) as [payload|e]; [|done].
  destruct (page payload st) as [[st'|st']|e]; [|done..]. apply IH.
Qed.

Lemma requests_fetch fuel api st :
  match fetch_pages fuel api st with
  | Some (tr, _) => tr = requests fuel api st
  | None => length (requests fuel api st) = fuel
  end.
Proof.
  revert st. induction fuel as [|fuel IH]; intros st; [done|].
  rewrite requests_S. cbn [fetch_pages].
  destruct (api (cursor st)) as [payload|e]; [|done].
  destruct (page payload st) as [[st'|st']|e]; [|done..].
  specialize (IH st'). destruct (fetch_pages fuel api st') as [[tr r]|].
  - by rewrite IH.
  - cbn [length]. by rewrite IH.
Qed.

(** X9: however the catalog answers, and whether the loop ends or not, the
    cursors it requests in its first [fuel] rounds start at 0 and each is at
    least 100 more than the one before, so no page is asked for twice; a
    further round only adds to them.  If the loop ends within these rounds
    they are all its requests, and when it ends normally the final cursor
    is the number of rows accumulated and every request but the last
    brought at least 100 rows; if it does not, it has made [fuel]
    requests. *)
Theorem fetch_cursors_increase (fuel : nat) (api : Z → result json) :
  let tr := requests fuel api fetch_init in
  head tr = match fuel with O => None | S _ => Some 0%Z end
  ∧ StronglySorted (λ a b, (a + 100 ≤ b)%Z) tr
  ∧ StronglySorted Z.lt tr
  ∧ NoDup tr
  ∧ tr `prefix_of` requests (S fuel) api fetch_init
  ∧ match fetch_pages fuel api fetch_init with
    | Some (tr', r) =>
        tr' = tr
        ∧ ∀ st, r = Ok st →
            cursor st = Z.of_nat (length (all_rows st))
            ∧ 100 * (length tr - 1) ≤ length (all_rows st)
    | None => length tr = fuel
    end.
Proof.
  intros tr. destruct (requests_trace fuel api fetch_init) as (Hs & _ & _).
  assert (Hlt : StronglySorted Z.lt tr).
  { clear -Hs. induction Hs as [|c l _ IH Hc]; constructor; [done|].
    eapply Forall_impl; [exact Hc|]. cbn. lia. }
  split; [by destruct fuel|]. split; [done|]. split; [done|]. split; [|split].
  - clear -Hlt. induction Hlt as [|c l _ IH Hc]; constructor; [|done].
    intros Hin. rewrite Forall_forall in Hc. specialize (Hc _ Hin). lia.
  - apply requests_prefix.
  - pose proof (requests_fetch fuel api fetch_init) as Hf. fold tr in Hf.
    destruct (fetch_pages fuel api fetch_init) as [[tr' r]|] eqn:E; [|done].
    split; [done|]. subst tr'.
    destruct (fetch_pages_trace _ _ _ _ _ E) as (_ & _ & _ & Hr).
    intros st Hst. destruct (Hr _ Hst) as (new & Hall & Hcur & Hn).
    cbn in Hall, Hcur. rewrite Hall, Hcur. split; [lia|done].
Qed.

Lemma fetch_pages_S fuel api st :
  fetch_pages (S fuel) api st =
    match api (cursor st) with
    | Raise e => Some ([cursor st], Raise e)
    | Ok payload =>
        match page payload st with
        | Raise e => Some ([cursor st], Raise e)
        | Ok (Break st') => Some ([cursor st], Ok st')
        | Ok (Continue st') =>
            match fetch_pages fuel api st' with
            | Some (tr, r) => Some (cursor st :: tr, r)
            | None => None
            end
        end
    end.
Proof. done. Qed.

Lemma fetch_pages_bounded fuel api st t :
  total st = Some t → (t - cursor st ≤ 100 * Z.of_nat fuel)%Z →
  ∃ tr r, fetch_pages (S fuel) api st = Some (tr, r).
Proof.
  revert st. induction fuel as [|fuel IH]; intros st Ht Hb.
  - rewrite fetch_pages_S.
    destruct (api (cursor st)) as [payload|e]; [|eauto].
    destruct (page payload st) as [[st1|st1]|e] eqn:Hp; [|eauto..].
    apply page_cases in Hp as [[_ ?]|(t' & Hrows & Hta & [?|(_ & Hlen & Hlt)])];
      try done.
    unfold total_after in Hta. rewrite Ht in Hta. injection Hta as <-.
    specialize (Hlt t eq_refl). cbn [cursor advanced] in Hlt. lia.
  - rewrite fetch_pages_S.
    destruct (api (cursor st)) as [payload|e]; [|eauto].
    destruct (page payload st) as [[st1|st1]|e] eqn:Hp; [|eauto..].
    apply page_cases in Hp as [[_ ?]|(t' & Hrows & Hta & [?|([= ->] & Hlen & Hlt)])];
      try done.
    unfold total_after in Hta. rewrite Ht in Hta. injection Hta as <-.
    destruct (IH (advanced payload st (Some t))) as (tr & r & Hf); [done| |].
    + cbn [cursor advanced]. lia.
    + rewrite Hf. eauto.
Qed.

(** X10: once a total [t] is known the loop ends, whatever the catalog
    returns afterwards: from a state with cursor [c] it makes at most
    [fuel + 1] requests when [t - c <= 100 * fuel]; in particular a first
    page with rows that announces the total [t] bounds the whole fetch. *)
Theorem fetch_ends_once_total_known (fuel : nat) (api : Z → result json)
    (st : fetch_state) (t : Z) :
  (total st = Some t → (t - cursor st ≤ 100 * Z.of_nat fuel)%Z →
     ∃ tr r, fetch_pages (S fuel) api st = Some (tr, r) ∧ length tr ≤ S fuel)
  ∧ (∀ p1, api 0%Z = Ok p1 → normalize_collection p1 ≠ [] →
       parse_total p1 = Ok (Some t) → (t ≤ 100 * Z.of_nat fuel)%Z →
       ∃ r, load_recent_papers (S (S fuel)) api = Some r).
Proof.
  split.
  - intros Ht Hb. destruct (fetch_pages_bounded fuel api st t Ht Hb) as (tr & r & Hf).
    exists tr, r. split; [done|]. by apply (fetch_pages_trace _ _ _ _ _ Hf).
  - intros p1 Ha Hrows Hpt Hb. unfold load_recent_papers.
    rewrite fetch_pages_S. cbn [cursor fetch_init]. rewrite Ha.
    destruct (page p1 fetch_init) as [[st1|st1]|e] eqn:Hp; [|eauto..].
    apply page_cases in Hp as [[? _]|(t' & _ & Hta & [?|([= ->] & Hlen & _)])];
      try done.
    unfold total_after in Hta. cbn [total fetch_init] in Hta.
    rewrite Hpt in Hta. injection Hta as <-.
    destruct (fetch_pages_bounded fuel api (advanced p1 fetch_init (Some t)) t)
      as (tr & r & Hf); [done| |].
    + cbn [cursor advanced fetch_init]. lia.
    + rewrite Hf. eauto.
Qed.

End LoopFacts.

(** ** More on deduplication and sorting *)

Section DedupeSortFacts.
Context `{!PyRuntime}.

Lemma dedupe_fold_distinct (l : list dict) (best : list (pystr * dict)) :
  NoDup (best.*1 ++ (doi_of <$> l)) →
  Forall (λ r, doi_of r ≠ []) l →
  foldl dedupe_step best l = best ++ ((λ r, (doi_of r, r)) <$> l).
Proof.
  revert best. induction l as [|x l IH]; intros best Hnd Hne.
  - by rewrite app_nil_r.
  - apply Forall_cons in Hne as [Hx Hne]. cbn [foldl].
    assert (Hfresh : doi_of x ∉ best.*1).
    { apply NoDup_app in Hnd as (_ & Hd & _). intros Hin.
      apply (Hd _ Hin). rewrite fmap_cons. left. }
    assert (Hstep : dedupe_step best x = best ++ [(doi_of x, x)]).
    { unfold dedupe_step. fold (doi_of x).
      rewrite (proj2 (best_lookup_None best (doi_of x)) Hfresh).
      rewrite best_assign_fresh by done. by destruct (doi_of x). }
    rewrite Hstep, IH; [|rewrite fmap_app, <- app_assoc; exact Hnd|done].
    by rewrite <- app_assoc.
Qed.

Lemma dedupe_distinct (l : list dict) :
  NoDup (doi_of <$> l) → Forall (λ r, doi_of r ≠ []) l →
  dedupe_keep_latest_version l = l.
Proof.
  intros Hnd Hne. unfold dedupe_keep_latest_version.
  rewrite dedupe_fold_distinct by done. cbn [app].
  rewrite <- list_fmap_compose. apply list_fmap_id.
Qed.

Lemma dedupe_nodup rows : NoDup (doi_of <$> dedupe_keep_latest_version rows).
Proof. rewrite dedupe_dois. apply dedupe_inv_final. Qed.

(** X11: deduplication leaves a list of rows with pairwise distinct,
    non-empty DOIs as it is, order included; so deduplicating twice is
    deduplicating once; and it never returns more rows than it was given. *)
Theorem dedupe_idempotent (rows : list dict) :
  (NoDup (doi_of <$> rows) → Forall (λ r, doi_of r ≠ []) rows →
     dedupe_keep_latest_version rows = rows)
  ∧ dedupe_keep_latest_version (dedupe_keep_latest_version rows)
    = dedupe_keep_latest_version rows
  ∧ length (dedupe_keep_latest_version rows) ≤ length rows.
Proof.
  split; [apply dedupe_distinct|]. split.
  - apply dedupe_distinct; [apply dedupe_nodup|].
    eapply Forall_impl; [apply dedupe_kept|]. by intros r [? _].
  - rewrite <- (length_fmap doi_of (dedupe_keep_latest_version rows)),
      <- (length_fmap doi_of rows).
    apply submseteq_length, NoDup_submseteq; [apply dedupe_nodup|].
    intros d (r & -> & Hr)%list_elem_of_fmap_1.
    pose proof (dedupe_kept rows) as Hk. rewrite Forall_forall in Hk.
    apply list_elem_of_fmap_2. by apply Hk.
Qed.

(** X12: the number of papers the fetcher builds is the number of distinct
    non-empty DOIs among the rows; there is no paper at all exactly when
    every row lacks a DOI. *)
Theorem papers_count (rows : list dict) :
  length (papers_of_rows rows)
  = length (remove_dups (filter (λ d, d ≠ []) (doi_of <$> rows)))
  ∧ (papers_of_rows rows = [] ↔ Forall (λ r, doi_of r = []) rows).
Proof.
  assert (Hlen : length (papers_of_rows rows) = length (dedupe_keep_latest_version rows)).
  { unfold papers_of_rows. by rewrite length_imap, sort_by_date_desc_perm. }
  destruct (dedupe_inv_final rows) as (_ & _ & Hseen).
  rewrite <- dedupe_dois in Hseen. rewrite Forall_forall in Hseen.
  pose proof (dedupe_kept rows) as Hk. rewrite Forall_forall in Hk.
  split.
  - rewrite Hlen, <- (length_fmap doi_of (dedupe_keep_latest_version rows)).
    apply Permutation_length, NoDup_Permutation;
      [apply dedupe_nodup|apply NoDup_remove_dups|].
    intros d. rewrite elem_of_remove_dups, list_elem_of_filter. split.
    + intros (r & -> & Hr)%list_elem_of_fmap_1. destruct (Hk _ Hr) as [Hd Hin].
      split; [done|]. by apply list_elem_of_fmap_2.
    + intros [Hd (r & -> & Hr)%list_elem_of_fmap_1]. by apply Hseen.
  - split.
    + intros He. apply Forall_forall. intros r Hr.
      destruct (decide (doi_of r = [])) as [|Hd]; [done|].
      specialize (Hseen _ Hr Hd).
      assert (Hnil : dedupe_keep_latest_version rows = []).
      { apply length_zero_iff_nil. rewrite <- Hlen, He. done. }
      rewrite Hnil in Hseen. by apply elem_of_nil in Hseen.
    + intros Hall. apply length_zero_iff_nil. rewrite Hlen.
      destruct (dedupe_keep_latest_version rows) as [|r out] eqn:E; [done|].
      destruct (Hk r) as [Hd Hin]; [left|].
      rewrite Forall_forall in Hall. by destruct Hd; apply Hall.
Qed.

Lemma insert_desc_filter x rows k :
  filter (λ r, date_key r = k) (insert_desc x rows)
  = filter (λ r, date_key r = k) (x :: rows).
Proof.
  induction rows as [|y rows IH]; [done|]. cbn [insert_desc].
  destruct (str_ltb (date_key x) (date_key y)) eqn:E; [|done].
  rewrite (filter_cons _ y), IH, !(filter_cons _ x), (filter_cons _ y).
  destruct (decide (date_key x = k)) as [Hx|Hx]; [|done].
  destruct (decide (date_key y = k)) as [Hy|Hy]; [|done].
  rewrite Hx, Hy, str_ltb_irrefl in E. done.
Qed.

Lemma insert_desc_head x rows :
  Forall (rows_desc x) rows → insert_desc x rows = x :: rows.
Proof.
  destruct 1 as [|y rows Hxy _]; [done|]. cbn [insert_desc].
  unfold rows_desc, str_leb in Hxy. apply negb_true_iff in Hxy. by rewrite Hxy.
Qed.

Lemma sort_sorted rows :
  StronglySorted rows_desc rows → sort_by_date_desc rows = rows.
Proof.
  induction 1 as [|x rows _ IH Hx]; [done|].
  cbn [sort_by_date_desc foldr]. fold (sort_by_date_desc rows).
  rewrite IH. by apply insert_desc_head.
Qed.

(** X13: the sort is stable: rows with the same date string come out in the
    order in which they went in; rows already in descending order are left
    as they are, so sorting twice is sorting once. *)
Theorem sort_by_date_stable (rows : list dict) :
  (∀ k, filter (λ r, date_key r = k) (sort_by_date_desc rows)
        = filter (λ r, date_key r = k) rows)
  ∧ (StronglySorted rows_desc rows → sort_by_date_desc rows = rows)
  ∧ sort_by_date_desc (sort_by_date_desc rows) = sort_by_date_desc rows.
Proof.
  split; [|split; [apply sort_sorted|apply sort_sorted, sort_by_date_desc_sorted]].
  intros k. induction rows as [|x rows IH]; [done|].
  cbn [sort_by_date_desc foldr]. fold (sort_by_date_desc rows).
  by rewrite insert_desc_filter, !(filter_cons _ x), IH.
Qed.

End DedupeSortFacts.

(** ** Integers and their decimal text *)

Section NumberFacts.
Context `{!PyRuntime}.

Lemma uint_codes_nonspace d : forallb (λ c, negb (is_space c)) (uint_codes d) = true.
Proof. induction d; cbn [uint_codes forallb]; by rewrite ?IHd. Qed.

Lemma uint_codes_digits d :
  forallb (λ c, (48 <=? c)%N && (c <=? 57)%N) (uint_codes d) = true.
Proof. induction d; cbn [uint_codes forallb]; by rewrite ?IHd. Qed.

Lemma parse_digits_codes d acc :
  parse_digits acc true (uint_codes d)
  = Some (acc * 10 ^ Z.of_N (DecimalPos.Unsigned.usize d)
          + Z.of_N (DecimalPos.Unsigned.of_lu (Decimal.rev d)))%Z.
Proof.
  revert acc. induction d; intros acc.
  { cbn; f_equal; lia. }
  all: cbn [uint_codes parse_digits N.eqb Pos.eqb digit_val N.leb N.compare
          Pos.compare Pos.compare_cont andb].
  all: rewrite IHd; f_equal; unfold Decimal.rev at 2; cbn [Decimal.revapp].
  all: match goal with
       | |- context [DecimalPos.Unsigned.of_lu (revapp ?u (?k Nil))] =>
           rewrite (DecimalPos.Unsigned.of_lu_revapp u (k Nil))
       end.
  all: cbn [DecimalPos.Unsigned.usize DecimalPos.Unsigned.of_lu].
  all: rewrite N2Z.inj_succ, Z.pow_succ_r by lia.
  all: rewrite N2Z.inj_add, N2Z.inj_mul, N2Z.inj_pow.
  all: cbn [N.sub Pos.sub Pos.sub_mask Pos.succ_double_mask Pos.double_mask
            Pos.pred_double Pos.double_pred_mask N.mul N.add Pos.mul Pos.add Z.of_N].
  all: lia.
Qed.

Lemma parse_digits_first d acc :
  d ≠ Nil → parse_digits acc false (uint_codes d) = parse_digits acc true (uint_codes d).
Proof. by destruct d. Qed.

Lemma ascii_digit_facts c :
  ascii_digit c = true →
  (c <? 128)%N = true ∧ is_ascii_space c = false ∧ (c =? 45)%N = false
  ∧ (c =? 43)%N = false ∧ (c =? 95)%N = false.
Proof.
  unfold ascii_digit, is_ascii_space.
  intros [H1%N.leb_le H2%N.leb_le]%andb_prop.
  repeat split.
  - apply N.ltb_lt. lia.
  - apply orb_false_intro; [apply andb_false_intro2, N.leb_gt; lia|apply N.eqb_neq; lia].
  - apply N.eqb_neq. lia.
  - apply N.eqb_neq. lia.
  - apply N.eqb_neq. lia.
Qed.

Lemma ascii_text s :
  Forall (λ c, (c <? 128)%N = true) s → mapM ascii_of s = Some s.
Proof.
  intros Hs. apply mapM_Some. induction Hs as [|c s Hc _ IH]; constructor; [|done].
  unfold ascii_of. by rewrite Hc.
Qed.

Lemma digits_below_128 s :
  forallb ascii_digit s = true → Forall (λ c, (c <? 128)%N = true) s.
Proof.
  rewrite forallb_forall, Forall_forall. intros Hs c Hin%list_elem_of_In.
  by destruct (ascii_digit_facts c (Hs c Hin)) as (? & _).
Qed.

Lemma digits_ascii s : forallb ascii_digit s = true → mapM ascii_of s = Some s.
Proof. intros Hs. by apply ascii_text, digits_below_128. Qed.

Lemma digits_no_trailing_space s :
  forallb ascii_digit s = true → drop_end_while is_ascii_space s = s.
Proof.
  induction s as [|c s IH]; [done|]. cbn [forallb drop_end_while].
  intros [Hc Hs]%andb_prop. destruct (ascii_digit_facts c Hc) as (_ & Hsp & _).
  rewrite (IH Hs), Hsp. by destruct s.
Qed.

Lemma digits_no_underscore s :
  forallb ascii_digit s = true → List.filter (λ c, negb (c =? 95)%N) s = s.
Proof.
  induction s as [|c s IH]; [done|]. cbn [forallb List.filter].
  intros [Hc Hs]%andb_prop. destruct (ascii_digit_facts c Hc) as (_ & _ & _ & _ & Hu).
  by rewrite Hu, (IH Hs).
Qed.

(** [int] on a string of ASCII digits, and on one with a minus sign *)
Lemma py_int_digits s :
  s ≠ [] → forallb ascii_digit s = true → over_digit_limit (length s) = false →
  py_int s = parse_digits 0 false s
  ∧ py_int (45%N :: s) = Z.opp <$> parse_digits 0 false s.
Proof.
  intros Hne Hs Hlim. unfold py_int. split.
  - rewrite (digits_ascii s Hs). cbn [mbind option_bind].
    destruct s as [|c r]; [done|]. pose proof Hs as Hs'. cbn [forallb] in Hs'.
    apply andb_prop in Hs' as [Hc _].
    destruct (ascii_digit_facts c Hc) as (_ & Hsp & H45 & H43 & _).
    cbn [drop_while]. rewrite Hsp, H45, H43. cbn [orb].
    rewrite (digits_no_trailing_space _ Hs), (digits_no_underscore _ Hs), Hlim.
    by destruct (parse_digits 0 false (c :: r)).
  - rewrite (ascii_text (45%N :: s)) by (constructor; [done|by apply digits_below_128]).
    cbn [mbind option_bind].
    cbn [drop_while is_ascii_space N.leb N.eqb N.compare Pos.compare Pos.compare_cont
         Pos.eqb andb orb].
    rewrite (digits_no_trailing_space _ Hs), (digits_no_underscore _ Hs), Hlim.
    by destruct (parse_digits 0 false s).
Qed.

Lemma dec_digits n : dec n ≠ [] ∧ forallb ascii_digit (dec n) = true.
Proof. split; [apply dec_nonempty|apply uint_codes_digits]. Qed.

Lemma parse_digits_dec n : parse_digits 0 false (dec n) = Some (Z.of_N n).
Proof.
  unfold dec. pose proof (dec_nonempty n) as Hne. unfold dec in Hne.
  assert (Hd : N.to_uint n ≠ Nil) by (intros E; by rewrite E in Hne).
  rewrite parse_digits_first, parse_digits_codes by done.
  rewrite <- DecimalPos.Unsigned.of_uint_alt.
  change (Pos.of_uint (N.to_uint n)) with (N.of_uint (N.to_uint n)).
  by rewrite DecimalN.Unsigned.of_to, Z.mul_0_l, Z.add_0_l.
Qed.

Lemma py_int_dec n :
  over_digit_limit (length (dec n)) = false → py_int (dec n) = Some (Z.of_N n).
Proof.
  intros Hlim. destruct (dec_digits n) as [Hne Hd].
  rewrite (proj1 (py_int_digits _ Hne Hd Hlim)). apply parse_digits_dec.
Qed.

Lemma py_int_dec_Z z :
  over_digit_limit (length (dec (Z.abs_N z))) = false → py_int (dec_Z z) = Some z.
Proof.
  intros Hlim. destruct (dec_digits (Z.abs_N z)) as [Hne Hd].
  unfold dec_Z. destruct (Z.ltb_spec z 0).
  - rewrite (proj2 (py_int_digits _ Hne Hd Hlim)), parse_digits_dec.
    cbn [fmap option_fmap option_map]. f_equal. lia.
  - rewrite py_int_dec by done. f_equal. lia.
Qed.

Lemma isdigit_dec n : isdigit (dec n) = true.
Proof.
  destruct (dec_digits n) as [Hne Hd]. unfold isdigit.
  destruct (dec n) as [|c r] eqn:E; [done|]. rewrite <- E in *. clear E.
  eapply forallb_forall. intros c' Hin. unfold isdigit_char.
  rewrite forallb_forall in Hd. specialize (Hd c' Hin).
  by destruct (ascii_digit_facts c' Hd) as (-> & _).
Qed.

Lemma strip_dec_Z z : strip (dec_Z z) = dec_Z z.
Proof.
  apply strip_nonspace. unfold dec_Z.
  destruct (z <? 0)%Z; [cbn [forallb]; apply andb_true_intro; split; [done|]|];
    apply uint_codes_nonspace.
Qed.

(** X14: within the interpreter's digit limit, which never applies to a
    number of up to 640 digits, reading an integer back from its decimal
    text gives the integer: [int(str(z))] is [z].  So both places that read
    the version of a row read [z], whether the catalog sends the version as
    the integer [z] or as its decimal text, and a total sent as a decimal
    string is read as the same number as when it is sent as an integer. *)
Theorem int_of_str_round_trip (z : Z) (n : N) (row m : dict) (rest : list json) :
  (∀ k, k ≤ 640 → over_digit_limit k = false)
  ∧ (over_digit_limit (length (dec (Z.abs_N z))) = false →
       py_int (dec_Z z) = Some z
       ∧ (dict_lookup row (lit "version") = Some (JInt z)
          ∨ dict_lookup row (lit "version") = Some (JStr (dec_Z z)) →
          ver_of row = z ∧ stored_ver row = z))
  ∧ (over_digit_limit (length (dec n)) = false →
       dict_lookup m (lit "total") = Some (JStr (dec n))
       ∨ dict_lookup m (lit "total") = Some (JInt (Z.of_N n)) →
       parse_total (JObj [(lit "messages", JList (JObj m :: rest))]) = Ok (Some (Z.of_N n))).
Proof.
  split; [|split].
  - intros k Hk. unfold over_digit_limit.
    destruct (Nat.ltb_spec 640 k); [lia|done].
  - intros Hlim. pose proof (py_int_dec_Z z Hlim) as Hz. split; [done|].
    intros Hv. unfold ver_of, stored_ver, field, dict_get, int_or_minus_one.
    assert (Hs : ∀ d, py_str (match dict_lookup row (lit "version") with
                              | Some v => v | None => d end) = dec_Z z)
      by (intros d; destruct Hv as [-> | ->]; done).
    by rewrite !Hs, strip_dec_Z, Hz.
  - intros Hlim Ht. unfold parse_total, py_get, dict_get.
    cbn [dict_lookup bind]. rewrite bool_decide_eq_true_2 by done. cbn [bind].
    destruct Ht as [-> | ->]; [|done].
    by rewrite isdigit_dec, py_int_dec.
Qed.

End NumberFacts.

(** ** More on clipping and escaping *)

Section ClipEscapeFacts.

Lemma squeezed_take n s : squeezed s = true → squeezed (take n s) = true.
Proof.
  revert n. induction s as [|c s IH]; intros [|n] Hs; try done.
  cbn [squeezed] in Hs. apply andb_prop in Hs as [Hc Hs].
  cbn [take squeezed]. rewrite (IH n Hs), andb_true_r.
  destruct (is_space c); [|done]. apply andb_prop in Hc as [-> Hnext]. cbn [andb].
  destruct s as [|d s]; [by destruct n|]. by destruct n.
Qed.

Lemma squeezed_snoc s e :
  squeezed s = true → is_space e = false → squeezed (s ++ [e]) = true.
Proof.
  intros Hs He. induction s as [|c s IH]; cbn [app squeezed].
  - by rewrite He.
  - cbn [squeezed] in Hs. apply andb_prop in Hs as [Hc Hs].
    rewrite (IH Hs), andb_true_r.
    destruct (is_space c); [|done]. apply andb_prop in Hc as [-> Hnext]. cbn [andb].
    destruct s as [|d s]; cbn [app]; [by rewrite He|done].
Qed.

Lemma clip_normal s n : ws_normal (clip s n) = true.
Proof.
  pose proof (collapse_ws_normal s) as Hc. unfold clip.
  set (c := collapse_ws s) in *.
  destruct (n <? length c)%nat eqn:Hn; [|by rewrite app_nil_r, firstn_all2
    by (apply Nat.ltb_ge in Hn; lia)].
  unfold ws_normal in *. apply andb_prop in Hc as [Hsq Hst].
  apply bool_decide_eq_true in Hst.
  apply andb_true_intro.
  split; [apply squeezed_snoc; [by apply squeezed_take|done]|].
  apply bool_decide_eq_true. unfold strip.
  rewrite lstrip_fixed; [by apply rstrip_snoc_nonspace|].
  pose proof (lstrip_head c) as Hh. pose proof (rstrip_head (lstrip c) Hh) as Hh'.
  fold (strip c) in Hh'. rewrite Hst in Hh'.
  destruct c as [|x c]; [by destruct n|]. destruct n; [done|]. exact Hh'.
Qed.

(** X15: the clipped text is never longer than [n + 1] characters, has
    single spaces and no whitespace at its ends, and clipping it again to
    the same limit changes nothing. *)
Theorem clip_bounded_idempotent (s : pystr) (n : nat) :
  length (clip s n) ≤ S n
  ∧ ws_normal (clip s n) = true
  ∧ clip (clip s n) n = clip s n.
Proof.
  split; [|split; [apply clip_normal|]].
  - unfold clip. rewrite length_app, length_take.
    destruct (n <? length (collapse_ws s))%nat; cbn [length]; lia.
  - unfold clip at 1. rewrite (collapse_ws_fixed _ (clip_normal s n)).
    unfold clip. set (c := collapse_ws s).
    destruct (Nat.ltb_spec n (length c)) as [Hn|Hn].
    + assert (Hlen : length (take n c ++ [ELLIPSIS]) = S n)
        by (rewrite length_app, length_take; cbn [length]; lia).
      rewrite Hlen. destruct (Nat.ltb_spec n (S n)); [|lia].
      rewrite take_app_length' by (rewrite length_take; lia). done.
    + rewrite !app_nil_r.
      replace (take n c) with c by (symmetry; by apply firstn_all2).
      destruct (Nat.ltb_spec n (length c)); [lia|].
      rewrite app_nil_r. by apply firstn_all2.
Qed.

(** The five characters [html.escape] replaces *)
Lemma esc_char_plain c :
  esc_char c = [c] ↔ c ≠ 38%N ∧ c ≠ 60%N ∧ c ≠ 62%N ∧ c ≠ 34%N ∧ c ≠ 39%N.
Proof.
  unfold esc_char.
  destruct (N.eqb_spec c 38) as [->|]; [split; [done|tauto]|].
  destruct (N.eqb_spec c 60) as [->|]; [split; [done|tauto]|].
  destruct (N.eqb_spec c 62) as [->|]; [split; [done|tauto]|].
  destruct (N.eqb_spec c 34) as [->|]; [split; [done|tauto]|].
  destruct (N.eqb_spec c 39) as [->|]; [split; [done|tauto]|].
  done.
Qed.

Lemma esc_char_head c : ∃ x r, esc_char c = x :: r ∧ (x = 38%N ∨ (esc_char c = [c] ∧ c ≠ 38%N)).
Proof.
  unfold esc_char.
  destruct (N.eqb_spec c 38); [by eexists _, _; split; [|left]|].
  destruct (N.eqb_spec c 60); [by eexists _, _; split; [|left]|].
  destruct (N.eqb_spec c 62); [by eexists _, _; split; [|left]|].
  destruct (N.eqb_spec c 34); [by eexists _, _; split; [|left]|].
  destruct (N.eqb_spec c 39); [by eexists _, _; split; [|left]|].
  by eexists _, _; split; [|right].
Qed.

Lemma esc_char_cancel x y a b :
  esc_char x ++ a = esc_char y ++ b → x = y ∧ a = b.
Proof.
  unfold esc_char.
  destruct (N.eqb_spec x 38) as [->|]; [|
  destruct (N.eqb_spec x 60) as [->|]; [|
  destruct (N.eqb_spec x 62) as [->|]; [|
  destruct (N.eqb_spec x 34) as [->|]; [|
  destruct (N.eqb_spec x 39) as [->|]]]]];
  (destruct (N.eqb_spec y 38) as [->|]; [|
   destruct (N.eqb_spec y 60) as [->|]; [|
   destruct (N.eqb_spec y 62) as [->|]; [|
   destruct (N.eqb_spec y 34) as [->|]; [|
   destruct (N.eqb_spec y 39) as [->|]]]]]);
  intros E; try (by injection E); try (injection E; intros; by subst).
Qed.

Lemma escape_inj a b : html_escape a = html_escape b → a = b.
Proof.
  rewrite !html_escape_chars. revert b.
  induction a as [|x a IH]; intros [|y b] E; [done| | |].
  - cbn in E. destruct (esc_char_head y) as (? & ? & Hy & _). rewrite Hy in E. done.
  - cbn in E. destruct (esc_char_head x) as (? & ? & Hx & _). rewrite Hx in E. done.
  - change (esc_char x ++ (a ≫= esc_char) = esc_char y ++ (b ≫= esc_char)) in E.
    apply esc_char_cancel in E as [-> E]. f_equal. by apply IH.
Qed.

Lemma esc_char_long c : esc_char c = [c] ∨ 2 ≤ length (esc_char c).
Proof.
  unfold esc_char.
  destruct (c =? 38)%N; [right; cbv; lia|].
  destruct (c =? 60)%N; [right; cbv; lia|].
  destruct (c =? 62)%N; [right; cbv; lia|].
  destruct (c =? 34)%N; [right; cbv; lia|].
  destruct (c =? 39)%N; [right; cbv; lia|]. by left.
Qed.

Lemma escape_length a : length a ≤ length (a ≫= esc_char).
Proof.
  induction a as [|x a IH]; [done|].
  change ((x :: a) ≫= esc_char) with (esc_char x ++ (a ≫= esc_char)).
  rewrite length_app. destruct (esc_char_head x) as (? & ? & -> & _).
  cbn [length]. lia.
Qed.

(** X16: [html.escape] loses nothing: two texts with the same escaped form
    are the same text; it never shortens a text; and it leaves a text
    unchanged exactly when the text has none of the five characters it
    replaces. *)
Theorem html_escape_faithful (a b : pystr) :
  (html_escape a = html_escape b → a = b)
  ∧ length a ≤ length (html_escape a)
  ∧ (html_escape a = a ↔
       Forall (λ c, c ≠ 38%N ∧ c ≠ 60%N ∧ c ≠ 62%N ∧ c ≠ 34%N ∧ c ≠ 39%N) a).
Proof.
  split; [apply escape_inj|]. rewrite html_escape_chars.
  split; [apply escape_length|].
  induction a as [|x a IH]; [by split|].
  change ((x :: a) ≫= esc_char) with (esc_char x ++ (a ≫= esc_char)).
  rewrite Forall_cons, <- IH, <- esc_char_plain. split.
  - intros E. destruct (decide (esc_char x = [x])) as [Hp|Hp].
    + rewrite Hp in E. by injection E as ->.
    + exfalso. pose proof (escape_length a) as Hlen.
      apply (f_equal length) in E. rewrite length_app in E. cbn [length] in E.
      destruct (esc_char_long x) as [?|?]; [done|lia].
  - intros [-> ->]. done.
Qed.

End ClipEscapeFacts.

(** ** The run and the mail *)

Section RunFacts.
Context `{!PyRuntime}.

Lemma env_required_ok environ name v :
  env environ name None true = Ok v → environ !! name = Some v ∧ v ≠ [].
Proof.
  unfold env. destruct (environ !! name) as [[|c x]|]; cbn; try done.
  by intros [= <-].
Qed.

Lemma env_optional_ok environ name default :
  env environ name (Some default) false
  = Ok (match environ !! name with Some x => x | None => default end).
Proof. unfold env. by destruct (environ !! name). Qed.

(** X17: a successful [send_email] had all four required settings present
    and non-empty.  It sets three header fields itself and no other:
    Subject with the subject it was given, From with the value of
    [EMAIL_FROM], or of [SMTP_USER] when that is unset or empty, and To
    with the value of [EMAIL_TO] as it is; what the mail library makes of
    these values and the fields it adds are not part of this.  It logs in
    with the configured user and password at the configured host, on port
    587 when [SMTP_PORT] is unset or empty, and gives the library the body
    it was given as the HTML alternative of the fixed text. *)
Theorem send_email_delivery (environ : gmap pystr pystr) (subject html_body : pystr)
    (d : delivery) :
  send_email environ subject html_body = Ok d →
  ∃ host user password email_to,
    environ !! lit "SMTP_HOST" = Some host ∧ host ≠ []
    ∧ environ !! lit "SMTP_USER" = Some user ∧ user ≠ []
    ∧ environ !! lit "SMTP_PASSWORD" = Some password ∧ password ≠ []
    ∧ environ !! lit "EMAIL_TO" = Some email_to ∧ email_to ≠ []
    ∧ headers d =
        [(lit "Subject", subject);
         (lit "From", match environ !! lit "EMAIL_FROM" with
                      | Some (c :: f) => c :: f
                      | _ => user
                      end);
         (lit "To", email_to)]
    ∧ login d = (user, password)
    ∧ (relay d).1 = host
    ∧ (environ !! lit "SMTP_PORT" = None ∨ environ !! lit "SMTP_PORT" = Some [] →
         (relay d).2 = 587%Z)
    ∧ html_part d = html_body
    ∧ text_part d = TEXT_FALLBACK.
Proof.
  unfold send_email.
  destruct (env environ (lit "SMTP_HOST") None true) as [host|] eqn:Hh;
    cbn [bind]; [|done].
  destruct (env_int environ "SMTP_PORT" "587") as [port|] eqn:Hport;
    cbn [bind]; [|done].
  destruct (env environ (lit "SMTP_USER") None true) as [user|] eqn:Hu;
    cbn [bind]; [|done].
  destruct (env environ (lit "SMTP_PASSWORD") None true) as [password|] eqn:Hp;
    cbn [bind]; [|done].
  destruct (env environ (lit "EMAIL_TO") None true) as [email_to|] eqn:Hto;
    cbn [bind]; [|done].
  rewrite env_optional_ok. cbn [bind]. intros <-%Ok_inj.
  apply env_required_ok in Hh as [Hh Hh'], Hu as [Hu Hu'], Hp as [Hp Hp'],
    Hto as [Hto Hto'].
  exists host, user, password, email_to. cbn [headers login relay html_part text_part fst snd].
  do 8 (split; [done|]). split; [|split; [done|split; [done|split; [|done]]]].
  - do 2 f_equal. unfold or_else.
    destruct (environ !! lit "EMAIL_FROM") as [[|c f]|]; try done.
    by destruct user.
  - intros Hport'. unfold env_int in Hport. rewrite env_optional_ok in Hport.
    cbn [bind] in Hport. unfold or_else in Hport.
    destruct Hport' as [E|E]; rewrite E in Hport; by injection Hport as <-.
Qed.

Lemma env_required_missing environ name :
  environ !! name = None ∨ environ !! name = Some [] →
  env environ name None true = Raise RuntimeError.
Proof. unfold env. by intros [->| ->]. Qed.

Lemma env_required_raise environ name e :
  env environ name None true = Raise e → e = RuntimeError.
Proof.
  unfold env. destruct (environ !! name) as [[|c x]|]; cbn; congruence.
Qed.

(** X18: a missing or empty [DIGEST_INTERESTS] or [GEMINI_API_KEY] ends the
    run with [RuntimeError] before any request to the catalog (no fuel is
    needed), whatever else is configured; a fetch without papers ends it
    successfully without the model or the mail settings being looked at;
    and a run that sends a mail has read a non-empty list of papers, got a
    reply from the model for the prompt built from the capped papers, found
    an object in the reply that passed the check, and sent, under the
    subject with the run's date, the document [build_email_html] rendered
    from the checked selection and the index of the capped papers. *)
Theorem main_exits (fuel : nat) (w : world) :
  (∀ name, name = lit "DIGEST_INTERESTS" ∨ name = lit "GEMINI_API_KEY" →
     environ w !! name = None ∨ environ w !! name = Some [] →
     main 0 w = Some (Raise RuntimeError))
  ∧ (∀ c, settings (environ w) = Ok c →
       load_recent_papers fuel (catalog w) = Some (Ok []) →
       main fuel w = Some (Ok NoPapers))
  ∧ (∀ d, main fuel w = Some (Ok (Sent d)) →
       ∃ interests max_for_ai p papers text ai sel html_body,
         settings (environ w) = Ok (interests, max_for_ai)
         ∧ environ w !! lit "DIGEST_INTERESTS" = Some interests
         ∧ load_recent_papers fuel (catalog w) = Some (Ok (p :: papers))
         ∧ gemini w (build_ai_prompt interests
                       (papers_for_ai max_for_ai (p :: papers)) (today_topic w))
           = Ok text
         ∧ extract_json text = Ok ai
         ∧ select ai = Ok sel
         ∧ build_email_html (date_str w) (time_str w) (top_papers sel)
             (index_by_pid (papers_for_ai max_for_ai (p :: papers)))
             (trends sel) (general_concept sel) (specific_concept sel) (today_topic w)
           = Ok html_body
         ∧ send_email (environ w)
             (lit "bioRxiv digest: (" ++ date_str w ++ lit ")") html_body = Ok d
         ∧ html_part d = html_body).
Proof.
  split; [|split].
  - intros name Hname Hmiss%env_required_missing. unfold main, settings.
    destruct Hname as [->| ->]; [by rewrite Hmiss|]. rewrite Hmiss.
    destruct (env (environ w) (lit "DIGEST_INTERESTS") None true) eqn:Hi; [done|].
    by apply env_required_raise in Hi as ->.
  - intros [i m] Hs Hl. unfold main. by rewrite Hs, Hl.
  - intros d. unfold main.
    destruct (settings (environ w)) as [[interests m]|] eqn:Hs; [|done].
    destruct (load_recent_papers fuel (catalog w)) as [[[|p papers]|]|] eqn:Hl;
      try done.
    destruct (gemini w _) as [text|] eqn:Hg; cbn [bind]; [|done].
    destruct (digest w _ text) as [d'|] eqn:Hd; cbn [bind]; [|done].
    intros [= <-]. unfold digest in Hd.
    destruct (extract_json text) as [ai|] eqn:Hai; cbn [bind] in Hd; [|done].
    destruct (select ai) as [sel|] eqn:Hsel; cbn [bind] in Hd; [|done].
    destruct (build_email_html _ _ _ _ _ _ _ _) as [html_body|] eqn:Hb;
      cbn [bind] in Hd; [|done].
    exists interests, m, p, papers, text, ai, sel, html_body.
    split; [done|]. split.
    + unfold settings in Hs.
      destruct (env (environ w) (lit "DIGEST_INTERESTS") None true) as [i|] eqn:Hi;
        cbn [bind] in Hs; [|done].
      apply env_required_ok in Hi as [Hi _].
      destruct (env (environ w) (lit "GEMINI_API_KEY") None true);
        cbn [bind] in Hs; [|done].
      destruct (env_int (environ w) "LOOKBACK_DAYS" "1"); cbn [bind] in Hs; [|done].
      destruct (env_int (environ w) "MAX_PAPERS_FOR_AI" "60"); cbn [bind] in Hs; [|done].
      by injection Hs as <- _.
    + repeat (split; [done|]).
      unfold send_email in Hd.
      repeat (match type of Hd with
              | bind ?m _ = Ok _ => destruct m; cbn [bind] in Hd; [|done]
              end).
      by injection Hd as <-.
Qed.

Lemma render_bullets_strings l :
  forallb (λ t, match t with JStr _ => true | _ => false end) l = true →
  ∃ h, render_bullets l = Ok h.
Proof.
  induction l as [|t l IH]; [by eexists|]. cbn [forallb].
  intros [Ht Hl]%andb_prop. destruct t as [| | |s| |]; try done.
  destruct (IH Hl) as [h Hh]. cbn [render_bullets].
  destruct (nonempty (strip (py_str (JStr s)))); [|eauto].
  unfold esc_any. destruct (truthy (JStr s)); cbn [bind]; rewrite Hh; cbn [bind]; eauto.
Qed.

Lemma iter_bullets_strings v :
  str_list v = true → ∃ h, (ts ←? py_iter v; render_bullets ts) = Ok h.
Proof.
  destruct v as [| | | |l|]; try done. cbn [str_list py_iter bind].
  apply render_bullets_strings.
Qed.

(** X19: the renderer succeeds whenever the selected entries are objects
    and the three bullet values are lists of strings; with such entries
    and trends, a [general_concept] that is [null], a boolean or a number,
    which the check after parsing lets through, makes it fail with
    [TypeError]. *)
Theorem build_email_html_typed (date_str time_str : pystr) (top : list json)
    (id_to_paper : gmap pystr Paper) (trends general_concept specific_concept : json)
    (general_topic : pystr) :
  forallb is_dict top = true → str_list trends = true →
  (str_list general_concept = true → str_list specific_concept = true →
     ∃ doc, build_email_html date_str time_str top id_to_paper trends
              general_concept specific_concept general_topic = Ok doc)
  ∧ (not_iterable general_concept = true →
     build_email_html date_str time_str top id_to_paper trends
       general_concept specific_concept general_topic = Raise TypeError).
Proof.
  intros Htop Htr. unfold build_email_html.
  destruct (render_items_dicts 1 top id_to_paper Htop) as (items & -> & _).
  destruct (iter_bullets_strings _ Htr) as [h1 ->]. cbn [bind]. split.
  - intros Hgc Hsc.
    destruct (iter_bullets_strings _ Hgc) as [h2 ->].
    destruct (iter_bullets_strings _ Hsc) as [h3 ->]. cbn [bind]. eauto.
  - intros Hgc. by destruct general_concept.
Qed.

End RunFacts.

(** ** More on the fetcher's output *)

Section OutputFacts.
Context `{!PyRuntime}.

Lemma normalize_collection_rows p :
  normalize_collection p ≠ [] ↔
    (∃ x l, p = JList (x :: l))
    ∨ (∃ d x l, p = JObj d ∧ dict_lookup d (lit "collection") = Some (JList (x :: l))).
Proof.
  split.
  - destruct p as [| | | |[|x l]|d]; try done; [left; eauto|].
    cbn [normalize_collection].
    destruct (dict_lookup d (lit "collection")) as [col|] eqn:Hc; [|done].
    intros Hne. right.
    assert (∃ x l, col = JList (x :: l)) as (x & l & ->); [|eauto 10].
    destruct col as [| | | |[|x l]|]; [..|by eauto|];
      exfalso; apply Hne; clear; unfold truthy; repeat case_match; congruence.
  - intros [(x & l & ->)|(d & x & l & -> & Hc)]; [done|].
    cbn [normalize_collection]. by rewrite Hc.
Qed.

(** X20: a first answer of the catalog that carries no rows (an object
    without a [collection], or with one that is not a non-empty list; an
    empty list; anything else) ends the fetch after that one request with
    no papers, and the run ends successfully without a mail; rows are only
    ever taken from a bare list or from the list under [collection]. *)
Theorem empty_first_page (fuel : nat) (api : Z → result json) (p : json) :
  api 0%Z = Ok p →
  (normalize_collection p = [] →
     fetch_pages (S fuel) api fetch_init = Some ([0%Z], Ok fetch_init)
     ∧ load_recent_papers (S fuel) api = Some (Ok [])
     ∧ ∀ w c, catalog w = api → settings (environ w) = Ok c →
         main (S fuel) w = Some (Ok NoPapers))
  ∧ (normalize_collection p ≠ [] ↔
       (∃ x l, p = JList (x :: l))
       ∨ (∃ d x l, p = JObj d ∧ dict_lookup d (lit "collection") = Some (JList (x :: l)))).
Proof.
  intros Ha. split; [|apply normalize_collection_rows].
  intros Hn.
  assert (Hf : fetch_pages (S fuel) api fetch_init = Some ([0%Z], Ok fetch_init)).
  { rewrite fetch_pages_S. cbn [cursor fetch_init]. rewrite Ha.
    by rewrite page_no_rows. }
  assert (Hl : load_recent_papers (S fuel) api = Some (Ok [])).
  { unfold load_recent_papers. by rewrite Hf. }
  split; [done|]. split; [done|].
  intros w [i m] Hw Hs. unfold main. by rewrite Hs, Hw, Hl.
Qed.

Lemma papers_from_rows rows p :
  p ∈ papers_of_rows rows →
  ∃ i r, p = make_paper i r ∧ r ∈ dedupe_keep_latest_version rows.
Proof.
  intros (i & r & -> & Hr)%elem_of_lookup_imap_1.
  exists (S i), r. split; [done|].
  rewrite <- (sort_by_date_desc_perm (dedupe_keep_latest_version rows)).
  by eapply list_elem_of_lookup_2.
Qed.

Lemma papers_dois rows :
  doi <$> papers_of_rows rows
  = doi_of <$> sort_by_date_desc (dedupe_keep_latest_version rows).
Proof.
  unfold papers_of_rows. rewrite fmap_imap.
  rewrite <- (imap_const doi_of). apply imap_ext. done.
Qed.

Lemma kept_is_latest rows r x :
  Forall version_stable rows →
  r ∈ dedupe_keep_latest_version rows → x ∈ rows → doi_of x = doi_of r →
  (ver_of x ≤ ver_of r)%Z.
Proof.
  intros Hst Hr Hx Hd.
  destruct (dedupe_inv_final rows) as (_ & Hbest & _). rewrite Forall_forall in Hbest.
  unfold dedupe_keep_latest_version in Hr.
  apply list_elem_of_fmap_1 in Hr as ([k r'] & -> & Hin).
  destruct (Hbest _ Hin) as (_ & _ & _ & Hfm). by apply (first_max_bound rows); [apply Hfm|..].
Qed.

(** X21: the papers of one run have pairwise distinct DOIs; every field of
    every paper is free of surrounding whitespace; and when every row's
    version reads the same trimmed and untrimmed, each paper carries the
    greatest version number found among the rows with its DOI (a version
    that does not parse counting as -1). *)
Theorem papers_distinct_latest (rows : list dict) :
  NoDup (doi <$> papers_of_rows rows)
  ∧ Forall (λ p, strip (title p) = title p ∧ strip (doi p) = doi p
                 ∧ strip (version p) = version p ∧ strip (date p) = date p
                 ∧ strip (category p) = category p ∧ strip (authors p) = authors p
                 ∧ strip (abstract p) = abstract p) (papers_of_rows rows)
  ∧ (Forall version_stable rows →
     Forall (λ p, ∀ x, x ∈ rows → doi_of x = doi p →
                    (ver_of x ≤ int_or_minus_one (version p))%Z) (papers_of_rows rows)).
Proof.
  split; [|split].
  - rewrite papers_dois, sort_by_date_desc_perm. apply dedupe_nodup.
  - apply Forall_forall. intros p (i & r & -> & _)%papers_from_rows.
    cbn [title doi version date category authors abstract make_paper].
    unfold field. by rewrite !strip_idem.
  - intros Hst. apply Forall_forall.
    intros p (i & r & -> & Hr)%papers_from_rows x Hx Hd.
    cbn [doi version make_paper] in *. by apply (kept_is_latest rows).
Qed.

End OutputFacts.

(** ** More on the extraction and the bullets *)

Section SpanFacts.
Context `{!PyRuntime}.

Lemma from_first_Some c s t :
  from_first c s = Some t → ∃ a, s = a ++ t ∧ from_first c a = None.
Proof.
  revert t. induction s as [|x s IH]; intros t; cbn [from_first]; [done|].
  destruct (x =? c)%N eqn:E.
  - intros [= <-]. by exists [].
  - intros (a & -> & Ha)%IH. exists (x :: a). cbn [from_first]. by rewrite E.
Qed.

Lemma upto_last_Some c r u :
  upto_last c r = Some u → ∃ u' b, r = u ++ b ∧ u = u' ++ [c] ∧ upto_last c b = None.
Proof.
  revert u. induction r as [|x r IH]; intros u; cbn [upto_last]; [done|].
  destruct (upto_last c r) as [t|] eqn:Hr.
  - intros [= <-]. destruct (IH t eq_refl) as (u' & b & -> & -> & Hb).
    by exists (x :: u'), b.
  - destruct (N.eqb_spec x c) as [->|]; [|done]. intros [= <-].
    by exists [], r.
Qed.

Lemma upto_last_mid c y b : upto_last c (y ++ [c] ++ b) ≠ None.
Proof.
  induction y as [|x y IH]; cbn [app upto_last].
  - destruct (upto_last c b); [done|]. by rewrite N.eqb_refl.
  - cbn [app] in IH. by destruct (upto_last c (y ++ c :: b)).
Qed.

(** X22: what [extract_json] hands to the parser is the longest span of the
    response that starts with an opening and ends with a closing brace:
    nothing before it has an opening brace and nothing after it a closing
    one; without such a span the result is [ValueError] and the parser is
    not called. *)
Theorem extract_json_longest_span (text : pystr) :
  match brace_span text with
  | Some m =>
      extract_json text = json_loads m
      ∧ ∃ a x b, text = a ++ m ++ b ∧ m = [123%N] ++ x ++ [125%N]
          ∧ from_first 123 a = None ∧ upto_last 125 b = None
  | None =>
      extract_json text = Raise ValueError
      ∧ ¬ ∃ a x b, text = a ++ [123%N] ++ x ++ [125%N] ++ b
  end.
Proof.
  rewrite extract_json_span. unfold brace_span.
  destruct (from_first 123 text) as [t|] eqn:Hf.
  - destruct (from_first_head _ _ _ Hf) as [r ->].
    destruct (from_first_Some _ _ _ Hf) as (a & -> & Ha).
    destruct (upto_last 125 r) as [u|] eqn:Hu; cbn [fmap option_fmap option_map].
    + split; [done|]. destruct (upto_last_Some _ _ _ Hu) as (u' & b & -> & -> & Hb).
      exists a, u', b. by split_and!.
    + split; [done|]. intros (a' & x & b & E).
      assert (from_first 123 (a' ++ [123%N] ++ x ++ [125%N] ++ b)
              = Some (123%N :: r)) as Hf' by (by rewrite <- E).
      assert (Hin : ∃ y b', r = y ++ [125%N] ++ b').
      { destruct (from_first 123 a') as [t'|] eqn:Ha'.
        - rewrite (from_first_app_some _ _ _ _ Ha') in Hf'.
          destruct (from_first_head _ _ _ Ha') as [r' ->].
          injection Hf' as <-. exists (r' ++ [123%N] ++ x), b.
          by rewrite <- !app_assoc.
        - rewrite from_first_app_none in Hf' by done. cbn in Hf'.
          injection Hf' as <-. by exists x, b. }
      destruct Hin as (y & b' & ->). by apply upto_last_mid in Hu.
  - split; [done|]. intros (a' & x & b & ->).
    destruct (from_first 123 a') as [t'|] eqn:Ha'.
    + by rewrite (from_first_app_some _ _ _ _ Ha') in Hf.
    + rewrite from_first_app_none in Hf by done. done.
Qed.

(** X23: bullets are taken by iterating over the value: a
    [general_concept] that is one string, which nothing rejects, is
    rendered as one bullet for each of its characters that is not
    whitespace, each escaped. *)
Theorem bullets_of_a_string (s : pystr) :
  (ts ←? py_iter (JStr s); render_bullets ts)
  = Ok (List.filter (λ c, negb (is_space c)) s
        ≫= λ c, lit "<li>" ++ esc_char c ++ lit "</li>").
Proof.
  cbn [py_iter bind]. induction s as [|c s IH]; [done|].
  cbn [map render_bullets py_str List.filter].
  assert (Hs : nonempty (strip [c]) = negb (is_space c)).
  { unfold strip, lstrip. cbn. destruct (is_space c) eqn:E; cbn; by rewrite ?E. }
  rewrite Hs. destruct (is_space c); cbn [negb]; [exact IH|].
  unfold esc_any. cbn [truthy]. rewrite bool_decide_eq_false_2 by done.
  cbn [negb bind]. rewrite IH. cbn [bind]. rewrite html_escape_one.
  f_equal. change ((c :: ?l) ≫= ?f) with (f c ++ (l ≫= f)).
  cbv beta. by rewrite <- !app_assoc.
Qed.

End SpanFacts.

(** ** Size of the prompt *)

Section PromptFacts.

Lemma join_cons_length sep x r :
  length (join sep (x :: r))
  = length x + sum_list_with (λ y, length sep + length y) r.
Proof.
  revert x. induction r as [|y r IH]; intros x; [cbn; lia|].
  change (join sep (x :: y :: r)) with (x ++ sep ++ join sep (y :: r)).
  rewrite !length_app, IH. cbn [sum_list_with]. lia.
Qed.

Lemma join_app_length sep x l r :
  length (join sep ((x :: l) ++ r))
  = length (join sep (x :: l)) + sum_list_with (λ y, length sep + length y) r.
Proof.
  rewrite <- app_comm_cons, !join_cons_length, sum_list_with_app. lia.
Qed.

Lemma clip_length s n : length (clip s n) ≤ S n.
Proof.
  unfold clip. rewrite length_app, length_take.
  destruct (n <? length (collapse_ws s))%nat; cbn [length]; lia.
Qed.

Lemma strip_length s : length (strip s) ≤ length s.
Proof.
  unfold strip.
  destruct (rstrip_decomp (lstrip s)) as (w1 & E1 & _).
  destruct (lstrip_decomp s) as (w2 & E2 & _).
  apply (f_equal length) in E1, E2. rewrite length_app in E1, E2. lia.
Qed.

Ltac literal_lengths :=
  repeat match goal with
    | |- context [length (lit ?s)] =>
        let n := eval vm_compute in (length (lit s)) in
        change (length (lit s)) with n
    | |- context [length (tpl ?s)] =>
        let n := eval vm_compute in (length (tpl s)) in
        change (length (tpl s)) with n
    end.

Lemma paper_lines_length p :
  sum_list_with (λ y, length [10%N] + length y) (paper_lines p)
  ≤ 1239 + length (pid p) + length (date p) + length (doi p).
Proof.
  unfold paper_lines. cbn [sum_list_with]. rewrite !length_app.
  pose proof (clip_length (title p) 220). pose proof (clip_length (category p) 60).
  pose proof (clip_length (abstract p) 900).
  literal_lengths. cbn [length]. lia.
Qed.

(** X24: the prompt grows with the number of papers only: its length is at
    most 2468 characters of instructions, the interests, the topic, and per
    paper 1239 characters plus its identifier, date and DOI, however long
    titles, categories and abstracts are; and it is the same for papers
    that differ in authors or version only. *)
Theorem prompt_size_bounded (interests general_topic : pystr) (papers : list Paper) :
  length (build_ai_prompt interests papers general_topic)
  ≤ 2468 + length interests + length general_topic
    + sum_list_with (λ p, 1239 + length (pid p) + length (date p) + length (doi p)) papers
  ∧ ∀ papers',
      Forall2 (λ p q, pid p = pid q ∧ title p = title q ∧ doi p = doi q
                      ∧ date p = date q ∧ category p = category q
                      ∧ abstract p = abstract q) papers papers' →
      build_ai_prompt interests papers general_topic
      = build_ai_prompt interests papers' general_topic.
Proof.
  split.
  - unfold build_ai_prompt. rewrite join_app_length, join_cons_length.
    cbn [sum_list_with]. rewrite !length_app.
    pose proof (strip_length interests).
    assert (sum_list_with (λ y, length [10%N] + length y) (concat (map paper_lines papers))
            ≤ sum_list_with (λ p, 1239 + length (pid p) + length (date p) + length (doi p))
                papers) as Hps.
    { induction papers as [|p ps IH]; [done|].
      cbn [map concat sum_list_with]. rewrite sum_list_with_app.
      pose proof (paper_lines_length p). lia. }
    literal_lengths. cbn [length] in *. lia.
  - intros papers' Hp. unfold build_ai_prompt. do 2 f_equal.
    induction Hp as [|p q ps qs (Hi & Ht & Hd & Hda & Hc & Ha) _ IH]; [done|].
    cbn [map concat]. rewrite IH. f_equal.
    unfold paper_lines. by rewrite Hi, Ht, Hd, Hda, Hc, Ha.
Qed.

End PromptFacts.

(** ** Instances of the further properties *)

Section FurtherExamples.
Local Existing Instance demo_runtime.

Lemma env_required_nonempty_witness :
  lit "secret" ≠ []
  ∧ env (<[lit "SMTP_HOST" := []]> demo_environ) (lit "SMTP_HOST") (Some (lit "localhost")) true
    = Raise RuntimeError.
Proof.
  split.
  - refine (proj1 (proj1 (env_required_nonempty demo_environ (lit "SMTP_PASSWORD") None)
                     (lit "secret") _)).
    vm_compute. reflexivity.
  - refine (proj2 (proj2 (proj2 (proj2
              (env_required_nonempty (<[lit "SMTP_HOST" := []]> demo_environ)
                 (lit "SMTP_HOST") (Some (lit "localhost"))))) _)).
    vm_compute. reflexivity.
Defined.

Lemma biorxiv_url_cases_witness :
  biorxiv_url hostile_paper
  = lit "https://www.biorxiv.org/content/" ++ lit "10.1101/a" ++ lit "v" ++ lit "1".
Proof.
  refine (proj1 (proj2 (biorxiv_url_cases hostile_paper)) _ _); vm_compute; discriminate.
Defined.

Lemma call_gemini_fallback_witness :
  call_gemini (λ _, lit "{}") demo_post (lit "prompt") = Ok (tpl "{~top_papers~: []}")
  ∧ call_gemini (λ _, lit "{}") failing_post (lit "prompt") = Raise ValueError.
Proof.
  split.
  - refine (proj1 (proj2 (proj2
              (call_gemini_fallback (λ _, lit "{}") demo_post (lit "prompt"))))
              [tpl " {~top_papers~"; lit ": []} "] _).
    reflexivity.
  - refine (proj2 (proj1 (proj2
              (call_gemini_fallback (λ _, lit "{}") failing_post (lit "prompt")))
              ValueError) _).
    split; [by exists RequestError|reflexivity].
Defined.

Lemma parse_recipients_round_trip_witness :
  _parse_recipients (lit "a@x.com, b@y.com") = [lit "a@x.com"; lit "b@y.com"].
Proof.
  refine (proj1 (proj2 (parse_recipients_round_trip [] [lit "a@x.com"; lit "b@y.com"])) _).
  repeat constructor; vm_compute; discriminate.
Defined.

Lemma bare_list_page_fails_witness :
  load_recent_papers 1 bare_list_catalog = Some (Raise AttributeError).
Proof.
  refine (proj1 (proj2 (bare_list_page_fails 0 bare_list_catalog fetch_init _ [] _)) _);
    reflexivity.
Defined.

(** A catalog that answers every request with the same full page and no
    total: the loop does not end, and after five rounds it has asked for
    the cursors 0, 100, 200, 300 and 400. *)
Example endless_catalog_requests :
  fetch_pages 5 endless_catalog fetch_init = None
  ∧ requests 5 endless_catalog fetch_init = [0; 100; 200; 300; 400]%Z.
Proof. split; vm_compute; reflexivity. Qed.

Lemma fetch_ends_once_total_known_witness :
  ∃ r, load_recent_papers 4 demo_catalog = Some r.
Proof.
  refine (proj2 (fetch_ends_once_total_known 2 demo_catalog fetch_init 150)
            demo_page1 _ _ _ _).
  - reflexivity.
  - vm_compute. discriminate.
  - vm_compute. reflexivity.
  - lia.
Defined.

Lemma dedupe_idempotent_witness :
  dedupe_keep_latest_version distinct_rows = distinct_rows.
Proof.
  refine (proj1 (dedupe_idempotent distinct_rows) _ _).
  - refine (bool_decide_unpack (NoDup (doi_of <$> distinct_rows)) _).
    vm_compute. exact I.
  - repeat constructor; vm_compute; discriminate.
Defined.

Lemma papers_count_witness :
  papers_of_rows [row_of "" "1" "2024-01-04"; row_of " " "2" "2024-01-05"] = [].
Proof.
  refine (proj2 (proj2 (papers_count _)) _).
  repeat constructor; vm_compute; reflexivity.
Defined.

Lemma sort_by_date_stable_witness :
  sort_by_date_desc distinct_rows = distinct_rows.
Proof.
  refine (proj1 (proj2 (sort_by_date_stable distinct_rows)) _).
  repeat constructor; vm_compute; reflexivity.
Defined.

Lemma int_of_str_round_trip_witness :
  ver_of (row_of "10.1101/a" "12" "2024-01-02") = 12%Z
  ∧ parse_total (JObj [(lit "messages", JList [JObj [(lit "total", JStr (lit "150"))]])])
    = Ok (Some 150%Z).
Proof.
  split.
  - refine (proj1 (proj2 (proj1 (proj2 (int_of_str_round_trip 12 0
                            (row_of "10.1101/a" "12" "2024-01-02") [] [])) _) _)).
    + reflexivity.
    + right. vm_compute. reflexivity.
  - refine (proj2 (proj2 (int_of_str_round_trip 0 150 []
                            [(lit "total", JStr (lit "150"))] [])) _ _).
    + reflexivity.
    + left. vm_compute. reflexivity.
Defined.

Lemma html_escape_faithful_witness :
  html_escape (lit "A. Author") = lit "A. Author".
Proof.
  refine (proj2 (proj2 (proj2 (html_escape_faithful (lit "A. Author") []))) _).
  repeat constructor; vm_compute; discriminate.
Defined.

Lemma send_email_delivery_witness :
  ∃ d, send_email demo_environ (lit "subject") (lit "body") = Ok d
    ∧ login d = (lit "digest@example.org", lit "secret")
    ∧ (relay d).2 = 587%Z.
Proof.
  assert (E : ∃ d, send_email demo_environ (lit "subject") (lit "body") = Ok d)
    by (eexists; vm_compute; reflexivity).
  destruct E as [d E]. exists d. split; [exact E|].
  destruct (send_email_delivery demo_environ _ _ d E)
    as (host & user & pw & to & _ & _ & Hu & _ & Hp & _ & _ & _ & _ & Hl & _ & Hport & _).
  split.
  - rewrite Hl. vm_compute in Hu, Hp.
    injection Hu as <-. injection Hp as <-. reflexivity.
  - apply Hport. left. vm_compute. reflexivity.
Defined.

Lemma main_exits_witness :
  main 0 unset_world = Some (Raise RuntimeError)
  ∧ main 1 quiet_world = Some (Ok NoPapers)
  ∧ ∃ d sel html_body,
      main 1 sending_world = Some (Ok (Sent d))
      ∧ build_email_html (lit "2024-01-02") (lit "2024-01-02 08:00 EST") (top_papers sel)
          (index_by_pid (papers_for_ai 60
             (papers_of_rows [row_of "10.1101/a" "1" "2024-01-01"])))
          (trends sel) (general_concept sel) (specific_concept sel) (lit "Entropy")
        = Ok html_body
      ∧ html_part d = html_body.
Proof.
  split; [|split]; [| |
    assert (E : ∃ d, main 1 sending_world = Some (Ok (Sent d)))
      by (eexists; vm_compute; reflexivity);
    destruct E as [d E];
    destruct (proj2 (proj2 (main_exits 1 sending_world)) d E)
      as (i & m & p & ps & text & ai & sel & html_body
          & Hs & _ & Hl & _ & _ & _ & Hb & _ & Hpart);
    exists d, sel, html_body; split; [exact E|]; split; [|exact Hpart];
    assert (Hm : m = 60%Z) by (vm_compute in Hs; congruence);
    assert (Hp : p :: ps = papers_of_rows [row_of "10.1101/a" "1" "2024-01-01"])
      by (vm_compute in Hl; vm_compute; congruence);
    rewrite <- Hp, <- Hm; exact Hb].
  - refine (proj1 (main_exits 0 unset_world) (lit "DIGEST_INTERESTS") _ _).
    + left. reflexivity.
    + left. vm_compute. reflexivity.
  - refine (proj1 (proj2 (main_exits 1 quiet_world)) (lit "protein folding", 60%Z) _ _);
      vm_compute; reflexivity.
Defined.

Lemma build_email_html_typed_witness :
  (∃ doc, hostile_html = Ok doc)
  ∧ build_email_html (lit "2024-01-02") (lit "2024-01-02 08:00 EST") hostile_top
      (index_by_pid [hostile_paper]) (JList [JStr (lit "a trend")]) JNull (JList [])
      (lit "Entropy") = Raise TypeError.
Proof.
  split.
  - refine (proj1 (build_email_html_typed _ _ hostile_top _ _ _ _ _ _ _) _ _);
      reflexivity.
  - refine (proj2 (build_email_html_typed _ _ hostile_top _ _ _ _ _ _ _) _);
      reflexivity.
Defined.

Lemma empty_first_page_witness :
  load_recent_papers 1 message_catalog = Some (Ok [])
  ∧ main 1 quiet_world = Some (Ok NoPapers).
Proof.
  assert (Hp : message_catalog 0%Z = Ok message_only) by reflexivity.
  assert (Hn : normalize_collection message_only = []) by reflexivity.
  split.
  - exact (proj1 (proj2 (proj1 (empty_first_page 0 message_catalog message_only Hp) Hn))).
  - refine (proj2 (proj2 (proj1 (empty_first_page 0 message_catalog message_only Hp) Hn))
              quiet_world (lit "protein folding", 60%Z) _ _).
    + reflexivity.
    + vm_compute. reflexivity.
Defined.

Lemma papers_distinct_latest_witness :
  Forall (λ p, doi p = lit "10.1101/a" → (1 ≤ int_or_minus_one (version p))%Z)
    (papers_of_rows clean_rows).
Proof.
  assert (Hst : Forall version_stable clean_rows)
    by (repeat constructor; vm_compute; reflexivity).
  refine (Forall_impl _ _ _ (proj2 (proj2 (papers_distinct_latest clean_rows)) Hst) _).
  intros p Hp Hd.
  refine (Hp (row_of "10.1101/a" "1" "2024-01-01") _ _).
  - apply list_elem_of_here.
  - rewrite Hd. vm_compute. reflexivity.
Defined.

Lemma prompt_size_bounded_witness :
  build_ai_prompt (lit "protein folding") [hostile_paper] (lit "Entropy")
  = build_ai_prompt (lit "protein folding") [revised_paper] (lit "Entropy").
Proof.
  refine (proj2 (prompt_size_bounded (lit "protein folding") (lit "Entropy")
                   [hostile_paper]) [revised_paper] _).
  repeat constructor.
Defined.

End FurtherExamples.
